(** * BioX (bioxai): file discovery, year grouping and batch decompression

    A shallow embedding of [bioxai/utilities/files_finder.py],
    [bioxai/models/data_model.py] and [bioxai/utilities/unzip_files.py],
    with the properties of the discovery engine and of the batch
    decompression pipeline stated over it.

    Conventions of the embedding.
    - A Python [str] is a list of characters.  The strings of the
      file-system components (paths, patterns, extensions) are over the
      code points 0..255.  The year extractor, a function of an arbitrary
      string, is over all code points, with the decimal digits of every
      script; the digit table is that of Unicode 14.0 (Python 3.11).
    - [pathlib.Path] is the POSIX flavour ([PurePosixPath] for the pure
      part), Python 3.10 to 3.13.
    - Library code the program calls but does not define ([fnmatch], the
      file system, the process pool's completion order) is a parameter. *)

From Stdlib Require Import Bool Arith ZArith QArith Lia.
From Stdlib Require Import Ascii String List Permutation Sorted.
Import ListNotations.

Local Open Scope list_scope.
Local Open Scope Z_scope.

(* ================================================================= *)
(** ** Python strings *)

Module PyStr.

Definition str := list ascii.

(** A string literal of the source. *)
Definition pystr (s : string) : str := list_ascii_of_string s.
Arguments pystr s%_string.

Definition ascii_eqb (a b : ascii) : bool := Ascii.eqb a b.

Fixpoint str_eqb (a b : str) : bool :=
  match a, b with
  | [], [] => true
  | x :: a', y :: b' => ascii_eqb x y && str_eqb a' b'
  | _, _ => false
  end.

(** [a < b] on [str]: lexicographic on code points. *)
Fixpoint str_ltb (a b : str) : bool :=
  match a, b with
  | _, [] => false
  | [], _ :: _ => true
  | x :: a', y :: b' =>
      let nx := nat_of_ascii x in
      let ny := nat_of_ascii y in
      if (nx <? ny)%nat then true
      else if (ny <? nx)%nat then false
      else str_ltb a' b'
  end.

(** [s.startswith(p)] *)
Fixpoint startswith (s p : str) : bool :=
  match p, s with
  | [], _ => true
  | _ :: _, [] => false
  | y :: p', x :: s' => ascii_eqb x y && startswith s' p'
  end.

(** [s.endswith(p)] *)
Definition endswith (s p : str) : bool :=
  (length p <=? length s)%nat
  && str_eqb (skipn (length s - length p) s) p.

(** [s.removesuffix(p)]: the suffix is removed when it is non-empty and
    [s] ends with it; otherwise [s] is returned unchanged. *)
Definition removesuffix (s p : str) : str :=
  match p with
  | [] => s
  | _ :: _ => if endswith s p then firstn (length s - length p) s else s
  end.

(** [s.rfind(c)] for a one-character needle: the highest index, or [None]
    for Python's [-1]. *)
Fixpoint rfind (c : ascii) (s : str) : option nat :=
  match s with
  | [] => None
  | x :: s' =>
      match rfind c s' with
      | Some i => Some (S i)
      | None => if ascii_eqb x c then Some O else None
      end
  end.

(** [s.split(c)] for a one-character separator. *)
Fixpoint split (c : ascii) (s : str) : list str :=
  match s with
  | [] => [[]]
  | x :: s' =>
      if ascii_eqb x c then [] :: split c s'
      else match split c s' with
           | h :: t => (x :: h) :: t
           | [] => [[x]]
           end
  end.

(** [sep.join(l)] *)
Fixpoint join (sep : str) (l : list str) : str :=
  match l with
  | [] => []
  | [x] => x
  | x :: l' => x ++ sep ++ join sep l'
  end.

(** [s.lstrip(c)] for a one-character set. *)
Fixpoint lstrip (c : ascii) (s : str) : str :=
  match s with
  | x :: s' => if ascii_eqb x c then lstrip c s' else s
  | [] => []
  end.

(** [c.lower()] on the code points 0..255: A-Z and the Latin-1 capitals
    U+00C0..U+00DE (without the multiplication sign U+00D7) move up by 32. *)
Definition lower_char (c : ascii) : ascii :=
  let n := nat_of_ascii c in
  if ((65 <=? n) && (n <=? 90))%nat then ascii_of_nat (n + 32)
  else if ((192 <=? n) && (n <=? 222) && negb (n =? 215))%nat
       then ascii_of_nat (n + 32)
  else c.

Definition lower (s : str) : str := map lower_char s.

End PyStr.
Import PyStr.

(* ================================================================= *)
(** ** pathlib: pure paths, POSIX flavour *)

Module Pathlib.

(** The root of a path: none, ["/"], or the POSIX ["//"]. *)
Inductive Root := NoRoot | Slash | Slash2.

(** [parts] holds the components after the root. *)
Record Path := mkPath { root : Root; parts : list str }.

Definition root_eqb (a b : Root) : bool :=
  match a, b with
  | NoRoot, NoRoot | Slash, Slash | Slash2, Slash2 => true
  | _, _ => false
  end.

Fixpoint parts_eqb (a b : list str) : bool :=
  match a, b with
  | [], [] => true
  | x :: a', y :: b' => str_eqb x y && parts_eqb a' b'
  | _, _ => false
  end.

Definition path_eqb (p q : Path) : bool :=
  root_eqb (root p) (root q) && parts_eqb (parts p) (parts q).

Definition slash : ascii := "/"%char.
Definition dot : ascii := "."%char.

(** [posixpath.splitroot] *)
Definition splitroot (s : str) : Root * str :=
  match s with
  | c1 :: r1 =>
      if ascii_eqb c1 slash then
        match r1 with
        | c2 :: r2 =>
            if ascii_eqb c2 slash then
              match r2 with
              | c3 :: _ => if ascii_eqb c3 slash then (Slash, r1)
                           else (Slash2, r2)
              | [] => (Slash2, r2)
              end
            else (Slash, r1)
        | [] => (Slash, r1)
        end
      else (NoRoot, s)
  | [] => (NoRoot, s)
  end.

Definition is_component (x : str) : bool :=
  negb (str_eqb x []) && negb (str_eqb x [dot]).

(** [Path(s)] *)
Definition Path_of_str (s : str) : Path :=
  let '(r, rel) := splitroot s in
  mkPath r (filter is_component (split slash rel)).

Definition root_str (r : Root) : str :=
  match r with
  | NoRoot => []
  | Slash => [slash]
  | Slash2 => [slash; slash]
  end.

(** [str(p)] *)
Definition str_of_Path (p : Path) : str :=
  match root p, parts p with
  | NoRoot, [] => [dot]
  | r, ps => root_str r ++ join [slash] ps
  end.

(** [p.name] *)
Definition name (p : Path) : str := last (parts p) [].

(** [p.parent] *)
Definition parent (p : Path) : Path :=
  mkPath (root p) (removelast (parts p)).

(** [p / s] for a [str] right operand. *)
Definition joinpath (p : Path) (s : str) : Path :=
  let q := Path_of_str s in
  match root q with
  | NoRoot => mkPath (root p) (parts p ++ parts q)
  | _ => q
  end.

(** The index at which the final extension of a name starts:
    [i = name.rfind('.')] when [0 < i < len(name) - 1]. *)
Definition suffix_index (nm : str) : option nat :=
  match rfind dot nm with
  | Some i => if ((0 <? i) && (i <? length nm - 1))%nat then Some i else None
  | None => None
  end.

Definition name_suffix (nm : str) : str :=
  match suffix_index nm with
  | Some i => skipn i nm
  | None => []
  end.

Definition name_stem (nm : str) : str :=
  match suffix_index nm with
  | Some i => firstn i nm
  | None => nm
  end.

(** [p.suffix] *)
Definition suffix (p : Path) : str := name_suffix (name p).

(** [p.stem] *)
Definition stem (p : Path) : str := name_stem (name p).

End Pathlib.
Import Pathlib.

(* ================================================================= *)
(** ** Python strings in full *)

Module Unicode.

(** The year extractor takes any Python [str]: its argument is a list of
    code points, and [\d] and [int] read the decimal digits of every
    script. *)
Definition ustr := list N.

(** The code points of a string of the other components. *)
Definition code_points (s : str) : ustr := map N_of_ascii s.

(** A string literal of the source. *)
Definition upystr (s : string) : ustr := code_points (pystr s).
Arguments upystr s%_string.

Fixpoint ustr_eqb (a b : ustr) : bool :=
  match a, b with
  | [], [] => true
  | x :: a', y :: b' => N.eqb x y && ustr_eqb a' b'
  | _, _ => false
  end.

(** [s.startswith(p)] *)
Fixpoint ustartswith (s p : ustr) : bool :=
  match p, s with
  | [], _ => true
  | _ :: _, [] => false
  | y :: p', x :: s' => N.eqb x y && ustartswith s' p'
  end.

(** The digits zero of Unicode 14.0, the characters of category [Nd] with
    decimal value 0; the nine code points after each of them are its
    digits one to nine. *)
Definition decimal_zeros : list N :=
  [48; 1632; 1776; 1984; 2406; 2534; 2662; 2790;
   2918; 3046; 3174; 3302; 3430; 3558; 3664; 3792;
   3872; 4160; 4240; 6112; 6160; 6470; 6608; 6784;
   6800; 6992; 7088; 7232; 7248; 42528; 43216; 43264;
   43472; 43504; 43600; 44016; 65296; 66720; 68912; 69734;
   69872; 69942; 70096; 70384; 70736; 70864; 71248; 71360;
   71472; 71904; 72016; 72784; 73040; 73120; 92768; 92864;
   93008; 120782; 120792; 120802; 120812; 120822; 123200; 123632;
   125264; 130032]%N.

Fixpoint decimal_among (zeros : list N) (c : N) : option Z :=
  match zeros with
  | [] => None
  | z :: zeros' =>
      if ((z <=? c) && (c <? z + 10))%N then Some (Z.of_N (c - z))
      else decimal_among zeros' c
  end.

(** The decimal value of a character, when it is a decimal digit. *)
Definition decimal (c : N) : option Z := decimal_among decimal_zeros c.

(** The characters [\d] matches, which are those [int] reads as digits. *)
Definition is_digit (c : N) : bool :=
  match decimal c with
  | Some _ => true
  | None => false
  end.

Definition digit_value (c : N) : Z :=
  match decimal c with
  | Some v => v
  | None => 0
  end.

(** [int(s)] for the strings the program converts, which are runs of
    decimal digits; [None] stands for the [ValueError] of anything else. *)
Fixpoint int_digits (acc : Z) (s : ustr) : option Z :=
  match s with
  | [] => Some acc
  | c :: s' =>
      if is_digit c then int_digits (10 * acc + digit_value c) s' else None
  end.

Definition int (s : ustr) : option Z :=
  match s with
  | [] => None
  | _ :: _ => int_digits 0 s
  end.

(** A character is a digit of [0-9]. *)
Definition ascii_digit (c : N) : bool := ((48 <=? c) && (c <=? 57))%N.

End Unicode.
Import Unicode.

(* ================================================================= *)
(** ** The regular expressions of the year extractor *)

Module Re.

(** The fragment of [re] syntax the three patterns are written in; the
    only group is the named group [year]. *)
Inductive regex :=
| RLit (s : ustr)
| RDigit
| RSeq (a b : regex)
| RAlt (a b : regex)
| RRep (n : nat) (r : regex)
| RGroup (r : regex).

(** One way of matching at the start of the subject: the text consumed,
    the text of the group if it took part, and the rest of the subject. *)
Record attempt := mkAttempt
  { consumed : ustr; group : option ustr; rest : ustr }.

Definition seq_attempt (a b : attempt) : attempt :=
  mkAttempt (consumed a ++ consumed b)
            (match group b with Some g => Some g | None => group a end)
            (rest b).

Fixpoint rep_match (m : ustr -> list attempt) (n : nat) (s : ustr)
  : list attempt :=
  match n with
  | O => [mkAttempt [] None s]
  | S k =>
      flat_map (fun a => map (seq_attempt a) (rep_match m k (rest a))) (m s)
  end.

(** All the ways of matching [r] at the start of [s], in the order a
    backtracking matcher tries them. *)
Fixpoint match_here (r : regex) (s : ustr) : list attempt :=
  match r with
  | RLit l =>
      if ustartswith s l then [mkAttempt l None (skipn (length l) s)] else []
  | RDigit =>
      match s with
      | c :: s' => if is_digit c then [mkAttempt [c] None s'] else []
      | [] => []
      end
  | RSeq a b =>
      flat_map (fun x => map (seq_attempt x) (match_here b (rest x)))
               (match_here a s)
  | RAlt a b => match_here a s ++ match_here b s
  | RRep n r' => rep_match (match_here r') n s
  | RGroup r' =>
      map (fun x => mkAttempt (consumed x) (Some (consumed x)) (rest x))
          (match_here r' s)
  end.

(** [re.search(r, s)]: the first way of matching at the leftmost position
    that has one. *)
Fixpoint search (r : regex) (s : ustr) : option attempt :=
  match match_here r s with
  | a :: _ => Some a
  | [] =>
      match s with
      | [] => None
      | _ :: s' => search r s'
      end
  end.

End Re.
Import Re.

(* ================================================================= *)
(** ** Exceptions and results, shared by both components *)

Inductive Exn :=
| ValueError
| TypeError
| IndexError
| ModuleNotFoundError
| OSError
| FileNotFoundError
| NotADirectoryError
| IsADirectoryError
| FileExistsError
| PermissionError
| BadGzipFile
| PicklingError.

Inductive Result (A : Type) :=
| Ok (a : A)
| Raise (e : Exn).
Arguments Ok {A} a.
Arguments Raise {A} e.

Definition exn_eqb (a b : Exn) : bool :=
  match a, b with
  | ValueError, ValueError
  | TypeError, TypeError
  | IndexError, IndexError
  | ModuleNotFoundError, ModuleNotFoundError
  | OSError, OSError
  | FileNotFoundError, FileNotFoundError
  | NotADirectoryError, NotADirectoryError
  | IsADirectoryError, IsADirectoryError
  | FileExistsError, FileExistsError
  | PermissionError, PermissionError
  | BadGzipFile, BadGzipFile
  | PicklingError, PicklingError => true
  | _, _ => false
  end.

(** The exceptions that are instances of [OSError]. *)
Definition is_OSError (e : Exn) : bool :=
  match e with
  | OSError | FileNotFoundError | NotADirectoryError | IsADirectoryError
  | FileExistsError | PermissionError | BadGzipFile => true
  | _ => false
  end.

(* ================================================================= *)
(** ** files_finder.py: the year extractor *)

Module Year.

(** [r"pubmed_sorted_(?P<year>\d{4})"] *)
Definition pat_pubmed_sorted : regex :=
  RSeq (RLit (upystr "pubmed_sorted_")) (RGroup (RRep 4 RDigit)).

(** [r"pubmed_(?P<year>\d{4})"] *)
Definition pat_pubmed : regex :=
  RSeq (RLit (upystr "pubmed_")) (RGroup (RRep 4 RDigit)).

(** [r"(?P<year>19\d{2}|20\d{2})"] *)
Definition pat_bare : regex :=
  RGroup (RAlt (RSeq (RLit (upystr "19")) (RRep 2 RDigit))
               (RSeq (RLit (upystr "20")) (RRep 2 RDigit))).

Definition patterns : list regex := [pat_pubmed_sorted; pat_pubmed; pat_bare].

Definition year_in_range (y : Z) : bool := (1900 <=? y) && (y <=? 2099).

(** [int(m.group("year"))]; [None] when the conversion raises. *)
Definition int_of_year_group (m : attempt) : option Z :=
  match group m with
  | Some g => int g
  | None => None
  end.

(** The [for pat in (...)] loop: a pattern that does not match, whose
    number is out of range, or whose conversion raises, leaves the turn to
    the next pattern. *)
Fixpoint extract_loop (pats : list regex) (name : ustr) : option Z :=
  match pats with
  | [] => None
  | pat :: pats' =>
      match search pat name with
      | Some m =>
          match int_of_year_group m with
          | Some y => if year_in_range y then Some y
                      else extract_loop pats' name
          | None => extract_loop pats' name
          end
      | None => extract_loop pats' name
      end
  end.

Definition _extract_year_from_filename (name : ustr) : option Z :=
  extract_loop patterns name.

(** [m.group("year")] for [m = re.search(pat, name)], when there is a
    match. *)
Definition captured (pat : regex) (name : ustr) : option ustr :=
  match search pat name with
  | Some m => group m
  | None => None
  end.

(** *** The extractor as the specification words it

    Each rule is read directly on the characters of the file name. *)

(** The four characters after [lit] at the very start of [s], when [lit]
    is there and four decimal digits follow it. *)
Definition digits4_after (lit s : ustr) : option ustr :=
  if ustartswith s lit then
    match skipn (length lit) s with
    | d1 :: d2 :: d3 :: d4 :: _ =>
        if is_digit d1 && is_digit d2 && is_digit d3 && is_digit d4
        then Some [d1; d2; d3; d4] else None
    | _ => None
    end
  else None.

(** The digits of the leftmost [lit<4 digits>] token of the name. *)
Fixpoint token_year (lit name : ustr) : option ustr :=
  match digits4_after lit name with
  | Some d => Some d
  | None =>
      match name with
      | [] => None
      | _ :: name' => token_year lit name'
      end
  end.

(** A [19xx] or [20xx] at the very start of [s]. *)
Definition bare4_here (s : ustr) : option ustr :=
  match s with
  | d1 :: d2 :: d3 :: d4 :: _ =>
      if (ustr_eqb [d1; d2] (upystr "19") || ustr_eqb [d1; d2] (upystr "20"))
         && is_digit d3 && is_digit d4
      then Some [d1; d2; d3; d4] else None
  | _ => None
  end.

(** The leftmost [19xx] or [20xx] of the name. *)
Fixpoint bare_year (name : ustr) : option ustr :=
  match bare4_here name with
  | Some d => Some d
  | None =>
      match name with
      | [] => None
      | _ :: name' => bare_year name'
      end
  end.

(** The number a rule captured, kept only when it lies in 1900..2099. *)
Definition valid_year (captured : option ustr) : option Z :=
  match captured with
  | Some d =>
      match int d with
      | Some y => if year_in_range y then Some y else None
      | None => None
      end
  | None => None
  end.

Definition first_some (a b : option Z) : option Z :=
  match a with Some _ => a | None => b end.

(** Rule 1, else rule 2, else rule 3, else none. *)
Definition extractYear (name : ustr) : option Z :=
  first_some (valid_year (token_year (upystr "pubmed_sorted_") name))
    (first_some (valid_year (token_year (upystr "pubmed_") name))
                (valid_year (bare_year name))).

End Year.
Import Year.

(* ================================================================= *)
(** ** files_finder.py and data_model.py: the discovery engine *)

Module Discovery.

(** *** The world a discovery call runs in *)

(** What [os.stat] gives; [st_mtime] is a float of seconds, of which only
    the (rational) value matters. *)
Record Stat := mkStat { st_size : Z; st_mtime : Q }.

(** The file system as the calls of [pathlib] see it during one call of
    the engine, and whether [vectorsage_data.utils] can be imported. *)
Record World := mkWorld
  { fs_exists : Path -> bool;
    fs_is_dir : Path -> bool;
    fs_is_file : Path -> bool;
    fs_glob : Path -> str -> list Path;
    fs_stat : Path -> option Stat;      (* [None]: [p.stat()] raises OSError *)
    fs_resolve : Path -> Path;
    vectorsage_data_importable : bool }.

(** The observable steps of a call, in the order they happen. *)
Inductive Event :=
| EvExists (p : Path)
| EvIsDir (p : Path)
| EvGlob (p : Path) (pattern : str)
| EvIsFile (p : Path)
| EvStat (p : Path)
| EvResolve (p : Path)
| EvLogDebug (base : Path) (recursive : bool) (total_matched : nat).

(** A computation: its outcome and the steps it made. *)
Definition M (A : Type) : Type := Result A * list Event.

Definition ret {A} (a : A) : M A := (Ok a, []).
Definition raise {A} (e : Exn) : M A := (Raise e, []).
Definition tell (ev : Event) : M unit := (Ok tt, [ev]).

Definition bind {A B} (m : M A) (f : A -> M B) : M B :=
  match m with
  | (Ok a, t) => let '(r, t') := f a in (r, t ++ t')
  | (Raise e, t) => (Raise e, t)
  end.

(** [try: m  except OSError: h] *)
Definition try_except_OSError {A} (m : M A) (h : M A) : M A :=
  match m with
  | (Raise e, t) => if is_OSError e then let '(r, t') := h in (r, t ++ t')
                    else m
  | _ => m
  end.

Declare Scope py_scope.
Delimit Scope py_scope with py.
Notation "x <- m ;; k" := (bind m (fun x => k))
  (at level 61, m at next level, right associativity) : py_scope.
Notation "m ;;; k" := (bind m (fun _ => k))
  (at level 61, right associativity) : py_scope.
Local Open Scope py_scope.

Fixpoint mapM {A B} (f : A -> M B) (l : list A) : M (list B) :=
  match l with
  | [] => ret []
  | x :: l' => y <- f x ;; ys <- mapM f l' ;; ret (y :: ys)
  end.

(** [[x for x in l if f(x)]] *)
Fixpoint filterM {A} (f : A -> M bool) (l : list A) : M (list A) :=
  match l with
  | [] => ret []
  | x :: l' =>
      b <- f x ;; ys <- filterM f l' ;; ret (if b then x :: ys else ys)
  end.

(** [[g(x) for x in l if f(x)]] *)
Fixpoint filter_mapM {A B} (f : A -> M bool) (g : A -> M B) (l : list A)
  : M (list B) :=
  match l with
  | [] => ret []
  | x :: l' =>
      b <- f x ;;
      if b then y <- g x ;; ys <- filter_mapM f g l' ;; ret (y :: ys)
      else filter_mapM f g l'
  end.


(** *** Sort keys and [list.sort] *)

(** The values a sort key takes: a name, a number (a size or a time
    stamp), or [float("inf")]. *)
Inductive Key :=
| KStr (s : str)
| KNum (q : Q)
| KInf.

Definition Qltb (x y : Q) : bool := negb (Qle_bool y x).

(** [a < b] on keys.  One sort compares keys of one mode only, so a name
    is never compared with a number (which would be a [TypeError]). *)
Definition key_lt (a b : Key) : bool :=
  match a, b with
  | KStr s, KStr t => str_ltb s t
  | KNum x, KNum y => Qltb x y
  | KNum _, KInf => true
  | _, _ => false
  end.

Section ListSort.
Context {K V : Type}.
Variable lt : K -> K -> bool.

(** The place of [x] among sorted entries that all came after it:
    before the first entry whose key is not smaller. *)
Fixpoint insert (x : K * V) (l : list (K * V)) : list (K * V) :=
  match l with
  | [] => [x]
  | y :: l' => if lt (fst y) (fst x) then y :: insert x l'
               else x :: y :: l'
  end.

(** The stable ascending sort on precomputed keys. *)
Definition stable_sort (l : list (K * V)) : list (K * V) :=
  fold_right insert [] l.

(** [l.sort(key=..., reverse=reverse)] once the keys are there: with
    [reverse] the list is reversed, sorted, and reversed again. *)
Definition sort_keyed (reverse : bool) (l : list (K * V)) : list V :=
  map snd (if reverse then rev (stable_sort (rev l)) else stable_sort l).
End ListSort.

(** *** The arguments and the result (data_model.py) *)

(** A pattern argument as it can arrive: [None], a list of patterns, or a
    single pattern string. *)
Inductive PyPatterns :=
| PNone
| PList (l : list str)
| PStr (s : str).

(** [dir: str | Path] *)
Inductive PyDir :=
| DStr (s : str)
| DPath (p : Path).

(** [Path(dir)] *)
Definition Path_of_dir (d : PyDir) : Path :=
  match d with
  | DStr s => Path_of_str s
  | DPath p => p
  end.

(** The fields of [FindFilesArgs], which mirror the keyword arguments of
    [find_files]; a value of this record also stands for one call's
    arguments. *)
Record FindFilesArgs := mkArgs
  { dir : PyDir;
    prefix : option str;
    suffix_arg : option str;
    file_format : option str;
    recursive : bool;
    include_patterns : PyPatterns;
    exclude_patterns : PyPatterns;
    min_size_bytes : option Z;
    max_files : option Z;
    sort_by : str;
    reverse : bool }.

(** A [dict[int, list[Path]]], in the order of its keys. *)
Definition YearBuckets := list (Z * list Path).

Record FindFilesResult := mkResult
  { searched_dir : Path;
    args : FindFilesArgs;
    files : list Path;
    total_matched : nat;
    res_recursive : bool;
    notes : option str;
    db_file_paths : option YearBuckets }.

Definition sort_modes : list str := [pystr "name"; pystr "mtime"; pystr "size"].

(** [x in {"name", "mtime", "size"}] *)
Definition is_sort_mode (x : str) : bool := existsb (str_eqb x) sort_modes.

(** The pattern field after [__post_init__]: a value that is neither
    [None] nor a list becomes the one-element list of its [str]. *)
Definition ensure_list (v : PyPatterns) : PyPatterns :=
  match v with
  | PStr s => PList [s]
  | _ => v
  end.

(** [FindFilesArgs.__post_init__] *)
Definition FindFilesArgs_post_init (self : FindFilesArgs) : M FindFilesArgs :=
  let d := DPath (Path_of_dir (dir self)) in
  if negb (is_sort_mode (sort_by self)) then raise ValueError
  else
    let ff := match file_format self with
              | Some (c :: f) => Some (lstrip dot (c :: f))
              | other => other
              end in
    ret (mkArgs d (prefix self) (suffix_arg self) ff (recursive self)
                (ensure_list (include_patterns self))
                (ensure_list (exclude_patterns self))
                (min_size_bytes self) (max_files self)
                (sort_by self) (reverse self)).

(** *** files_finder.py *)

Section Finder.
(** [fnmatch.fnmatch] *)
Variable fnmatch : str -> str -> bool.
Variable w : World.

Definition path_exists (p : Path) : M bool :=
  tell (EvExists p) ;;; ret (fs_exists w p).
Definition path_is_dir (p : Path) : M bool :=
  tell (EvIsDir p) ;;; ret (fs_is_dir w p).
Definition path_is_file (p : Path) : M bool :=
  tell (EvIsFile p) ;;; ret (fs_is_file w p).
Definition path_glob (p : Path) (pattern : str) : M (list Path) :=
  tell (EvGlob p pattern) ;;; ret (fs_glob w p pattern).
Definition path_stat (p : Path) : M Stat :=
  tell (EvStat p) ;;;
  match fs_stat w p with
  | Some s => ret s
  | None => raise OSError
  end.
Definition path_resolve (p : Path) : M Path :=
  tell (EvResolve p) ;;; ret (fs_resolve w p).

Definition _ext_ok (p : Path) (file_format : option str) : bool :=
  match file_format with
  | None => true
  | Some ff => str_eqb (lower (suffix p)) (dot :: lower ff)
  end.

Definition _prefix_suffix_ok (p : Path) (prefix suffix : option str) : bool :=
  let name := name p in
  let stem := stem p in
  if match prefix with
     | Some pre => negb (startswith name pre)
     | None => false
     end
  then false
  else
    match suffix with
    | None => true
    | Some suf =>
        let base_no_ext := removesuffix name (Pathlib.suffix p) in
        endswith stem suf || endswith base_no_ext suf
    end.

(** The truth value of a pattern argument. *)
Definition truthy (v : PyPatterns) : bool :=
  match v with
  | PNone => false
  | PList l => negb (Nat.eqb (length l) 0)
  | PStr s => negb (Nat.eqb (length s) 0)
  end.

(** [for pat in v]: the elements of a list, the characters of a
    string. *)
Definition iterate (v : PyPatterns) : list str :=
  match v with
  | PNone => []
  | PList l => l
  | PStr s => map (fun c => [c]) s
  end.

Definition _patterns_ok (name : str) (include_patterns exclude_patterns : PyPatterns)
  : bool :=
  if truthy include_patterns
     && negb (existsb (fun pat => fnmatch name pat) (iterate include_patterns))
  then false
  else if truthy exclude_patterns
          && existsb (fun pat => fnmatch name pat) (iterate exclude_patterns)
  then false
  else true.

Definition _size_ok (p : Path) (min_size_bytes : option Z) : M bool :=
  match min_size_bytes with
  | None => ret true
  | Some m =>
      try_except_OSError (s <- path_stat p ;; ret (m <=? st_size s))
                         (ret false)
  end.

(** The [and] chain; the size predicate runs only when the first three
    hold. *)
Definition _file_passes (p : Path) (a : FindFilesArgs) : M bool :=
  let name := name p in
  if negb (_ext_ok p (file_format a)) then ret false
  else if negb (_prefix_suffix_ok p (prefix a) (suffix_arg a)) then ret false
  else if negb (_patterns_ok name (include_patterns a) (exclude_patterns a))
  then ret false
  else _size_ok p (min_size_bytes a).

Definition _build_sort_key (sort_by : str) (p : Path) : M Key :=
  try_except_OSError
    (if str_eqb sort_by (pystr "name") then ret (KStr (name p))
     else if str_eqb sort_by (pystr "mtime") then
       s <- path_stat p ;; ret (KNum (st_mtime s))
     else
       s <- path_stat p ;; ret (KNum (inject_Z (st_size s))))
    (ret KInf).

Definition _validate_sort_by (sort_by : str) : M unit :=
  if negb (is_sort_mode sort_by) then raise ValueError else ret tt.

(** [l.sort(key=key, reverse=reverse)]: the keys are computed first, in
    the order of the list. *)
Definition list_sort (key : Path -> M Key) (reverse : bool) (l : list Path)
  : M (list Path) :=
  keys <- mapM key l ;;
  ret (sort_keyed key_lt reverse (combine keys l)).

(** [buckets[y].append(p)] on a [defaultdict(list)] *)
Fixpoint bucket_append (y : Z) (p : Path) (b : YearBuckets) : YearBuckets :=
  match b with
  | [] => [(y, [p])]
  | (y', l) :: b' =>
      if Z.eqb y' y then (y', l ++ [p]) :: b'
      else (y', l) :: bucket_append y p b'
  end.

Definition sort_files_by_year (files : list Path) (sort_by : str)
  : M YearBuckets :=
  if negb (is_sort_mode sort_by) then raise ValueError
  else
    let buckets :=
      fold_left
        (fun b f =>
           match _extract_year_from_filename (code_points (name f)) with
           | Some y => bucket_append y f b
           | None => b
           end)
        files [] in
    let sort_key := _build_sort_key sort_by in
    buckets <- mapM (fun yl => l <- list_sort sort_key false (snd yl) ;;
                               ret (fst yl, l)) buckets ;;
    ret (sort_keyed Z.ltb false (map (fun kv => (fst kv, kv)) buckets)).

(** *** data_model.py: [FindFilesResult] *)

Definition set_db_file_paths (self : FindFilesResult) (v : option YearBuckets)
  : FindFilesResult :=
  mkResult (searched_dir self) (args self) (files self) (total_matched self)
           (res_recursive self) (notes self) v.

(** [from vectorsage_data.utils import sort_files_by_year].  The module
    is not part of this package: where it cannot be imported the
    statement raises; where it can, the name is bound to "the shared
    utility" of the docstring, [sort_files_by_year]. *)
Definition import_sort_files_by_year
  : M (list Path -> str -> M YearBuckets) :=
  if vectorsage_data_importable w then ret sort_files_by_year
  else raise ModuleNotFoundError.

(** [FindFilesResult.group_by_year]: stores the grouping in [self] and
    returns it. *)
Definition group_by_year (self : FindFilesResult) (sort_by : str)
  : M (FindFilesResult * option YearBuckets) :=
  f <- import_sort_files_by_year ;;
  g <- f (files self) sort_by ;;
  ret (set_db_file_paths self (Some g), Some g).

(** [FindFilesResult.__post_init__]; [group_by_year()] runs with its
    default [sort_by="name"]. *)
Definition FindFilesResult_post_init (self : FindFilesResult)
  : M FindFilesResult :=
  r <- group_by_year self (pystr "name") ;;
  ret (set_db_file_paths (fst r) (snd r)).

(** *** [find_files] *)

(** [filtered[:max_files]] under [max_files is not None and max_files >= 0] *)
Definition truncate (max_files : option Z) (l : list Path) : list Path :=
  match max_files with
  | Some m => if 0 <=? m then firstn (Z.to_nat m) l else l
  | None => l
  end.

Definition find_files (a : FindFilesArgs) : M FindFilesResult :=
  let base := Path_of_dir (dir a) in
  e <- path_exists base ;;
  if negb e then raise FileNotFoundError
  else
    d <- path_is_dir base ;;
    if negb d then raise NotADirectoryError
    else
      let pattern := if recursive a then pystr "**/*" else pystr "*" in
      globbed <- path_glob base pattern ;;
      candidates <- filterM path_is_file globbed ;;
      filtered <- filter_mapM (fun p => _file_passes p a) path_resolve
                              candidates ;;
      _validate_sort_by (sort_by a) ;;;
      filtered <- list_sort (_build_sort_key (sort_by a)) (reverse a)
                            filtered ;;
      let filtered := truncate (max_files a) filtered in
      tell (EvLogDebug base (recursive a) (length filtered)) ;;;
      args_obj <- FindFilesArgs_post_init
                    (mkArgs (DPath base) (prefix a) (suffix_arg a)
                            (file_format a) (recursive a)
                            (include_patterns a) (exclude_patterns a)
                            (min_size_bytes a) (max_files a)
                            (sort_by a) (reverse a)) ;;
      FindFilesResult_post_init
        (mkResult base args_obj filtered (length filtered) (recursive a)
                  None None).
End Finder.

(** The outcome and the steps of a computation. *)
Definition outcome {A} (m : M A) : Result A := fst m.
Definition steps {A} (m : M A) : list Event := snd m.

(** A step that enumerates a directory. *)
Definition is_enumeration (ev : Event) : bool :=
  match ev with
  | EvGlob _ _ => true
  | _ => false
  end.

(** *** A matcher for patterns without brackets

    [fnmatch] is a parameter of the engine.  For concrete runs this
    matcher stands for it on the patterns made of [*], [?] and literal
    characters, where the two agree. *)
Fixpoint glob_match (pat : str) (name : str) : bool :=
  match pat with
  | [] => match name with [] => true | _ => false end
  | c :: pat' =>
      if ascii_eqb c "*"%char then
        (fix star (s : str) : bool :=
           glob_match pat' s
           || match s with
              | [] => false
              | _ :: s' => star s'
              end) name
      else
        match name with
        | [] => false
        | x :: name' =>
            (ascii_eqb c "?"%char || ascii_eqb c x) && glob_match pat' name'
        end
  end.

Definition fnmatch_plain (name pat : str) : bool := glob_match pat name.

(** *** Vocabulary of the properties *)

(** The metadata of [p] cannot be read. *)
Definition unreadable (w : World) (p : Path) : bool :=
  match fs_stat w p with
  | None => true
  | Some _ => false
  end.

Definition readable (w : World) (p : Path) : bool := negb (unreadable w p).

(** The unreadable entries of [l] are at its end: after the first of them
    there are only unreadable ones. *)
Fixpoint unreadable_last (w : World) (l : list Path) : bool :=
  match l with
  | [] => true
  | p :: l' => if unreadable w p then forallb (unreadable w) l'
               else unreadable_last w l'
  end.

(** The two checks the suffix predicate joins with [or]. *)
Definition stem_check (p : Path) (suf : str) : bool := endswith (stem p) suf.
Definition base_no_ext_check (p : Path) (suf : str) : bool :=
  endswith (removesuffix (name p) (Pathlib.suffix p)) suf.

(** Entries of a keyed list whose key is infinite, or a number. *)
Definition is_inf {V} (x : Key * V) : bool :=
  match fst x with KInf => true | _ => false end.
Definition is_num {V} (x : Key * V) : bool :=
  match fst x with KNum _ => true | _ => false end.

(** The value of the sort key of [p], whether its metadata can be read
    or not. *)
Definition key_value (w : World) (sort_by : str) (p : Path) : Key :=
  if str_eqb sort_by (pystr "name") then KStr (name p)
  else
    match fs_stat w p with
    | None => KInf
    | Some s => if str_eqb sort_by (pystr "mtime") then KNum (st_mtime s)
                else KNum (inject_Z (st_size s))
    end.

(** The value of the size predicate. *)
Definition size_ok_value (w : World) (p : Path) (min_size_bytes : option Z)
  : bool :=
  match min_size_bytes with
  | None => true
  | Some m =>
      match fs_stat w p with
      | Some s => m <=? st_size s
      | None => false
      end
  end.

(** The value of the conjunction of the four predicates. *)
Definition passes (fnmatch : str -> str -> bool) (w : World)
           (a : FindFilesArgs) (p : Path) : bool :=
  _ext_ok p (file_format a)
  && _prefix_suffix_ok p (prefix a) (suffix_arg a)
  && _patterns_ok fnmatch (name p) (include_patterns a) (exclude_patterns a)
  && size_ok_value w p (min_size_bytes a).

(** The root of a call and the pattern it is enumerated with. *)
Definition base_of (a : FindFilesArgs) : Path := Path_of_dir (dir a).
Definition glob_pattern (a : FindFilesArgs) : str :=
  if recursive a then pystr "**/*" else pystr "*".

(** The candidates of a call: the regular files of the enumeration. *)
Definition candidates_of (w : World) (a : FindFilesArgs) : list Path :=
  filter (fs_is_file w) (fs_glob w (base_of a) (glob_pattern a)).

(** The file list a successful call ends with: the canonical paths of the
    candidates that pass, sorted, then truncated. *)
Definition final_files (fnmatch : str -> str -> bool) (w : World)
           (a : FindFilesArgs) : list Path :=
  truncate (max_files a)
    (sort_keyed key_lt (reverse a)
       (map (fun p => (key_value w (sort_by a) p, p))
            (map (fs_resolve w)
                 (filter (passes fnmatch w a) (candidates_of w a))))).

(** *** Concrete worlds *)

Definition abs_path (l : list string) : Path := mkPath Slash (map pystr l).

Definition data_dir : Path := abs_path ["data"%string].
Definition a_txt : Path := abs_path ["data"; "a.txt"]%string.
Definition b_txt : Path := abs_path ["data"; "b.txt"]%string.
Definition c_csv : Path := abs_path ["data"; "c.csv"]%string.
Definition stored_csv : Path := abs_path ["store"; "b.csv"]%string.

(** [/data] holds [a.txt] (50 bytes), [b.txt] (150 bytes) and [c.csv]
    (200 bytes); nothing is a symbolic link. *)
Definition w_data : World :=
  mkWorld
    (fun p => path_eqb p data_dir || path_eqb p a_txt || path_eqb p b_txt
              || path_eqb p c_csv)
    (fun p => path_eqb p data_dir)
    (fun p => path_eqb p a_txt || path_eqb p b_txt || path_eqb p c_csv)
    (fun p _ => if path_eqb p data_dir then [a_txt; b_txt; c_csv] else [])
    (fun p => if path_eqb p a_txt then Some (mkStat 50 (10 # 1))
              else if path_eqb p b_txt then Some (mkStat 150 (30 # 1))
              else if path_eqb p c_csv then Some (mkStat 200 (20 # 1))
              else None)
    (fun p => p)
    true.

(** The same directory when the metadata of [b.txt] cannot be read. *)
Definition w_unreadable : World :=
  mkWorld (fs_exists w_data) (fs_is_dir w_data) (fs_is_file w_data)
          (fs_glob w_data)
          (fun p => if path_eqb p b_txt then None else fs_stat w_data p)
          (fs_resolve w_data) true.

(** [/data] holds only [a.txt], a symbolic link to [/store/b.csv]. *)
Definition w_link : World :=
  mkWorld
    (fun p => path_eqb p data_dir || path_eqb p a_txt || path_eqb p stored_csv)
    (fun p => path_eqb p data_dir)
    (fun p => path_eqb p a_txt || path_eqb p stored_csv)
    (fun p _ => if path_eqb p data_dir then [a_txt] else [])
    (fun p => if path_eqb p a_txt || path_eqb p stored_csv
              then Some (mkStat 7 (1 # 1)) else None)
    (fun p => if path_eqb p a_txt then stored_csv else p)
    true.

(** The directory of [w_data] where [c.csv] is a symbolic link to
    [/store/b.csv]; the two text files are not links. *)
Definition w_link_aside : World :=
  mkWorld (fs_exists w_data) (fs_is_dir w_data) (fs_is_file w_data)
          (fs_glob w_data) (fs_stat w_data)
          (fun p => if path_eqb p c_csv then stored_csv else p) true.

Definition archive_tar_gz : Path := abs_path ["data"; "archive.tar.gz"]%string.

Definition pubmed_1998 : Path :=
  abs_path ["pubmed"; "pubmed_sorted_1998_and_2020.xml"]%string.
Definition pubmed_2021 : Path := abs_path ["pubmed"; "pubmed_2021_b.xml"]%string.
Definition report_2021 : Path := abs_path ["pubmed"; "report_2021.csv"]%string.
Definition notes_txt : Path := abs_path ["pubmed"; "notes.txt"]%string.
Definition pubmed_dir : Path := abs_path ["pubmed"%string].

(** [/pubmed] holds four files, three of them with a year in the name. *)
Definition w_pubmed : World :=
  mkWorld
    (fun p => path_eqb p pubmed_dir)
    (fun p => path_eqb p pubmed_dir)
    (fun p => negb (path_eqb p pubmed_dir))
    (fun p _ => if path_eqb p pubmed_dir
                then [report_2021; pubmed_1998; notes_txt; pubmed_2021] else [])
    (fun p => Some (mkStat 10 (5 # 1)))
    (fun p => p)
    true.

(** [find_files(dir)] with every other argument at its default. *)
Definition default_args (d : Path) : FindFilesArgs :=
  mkArgs (DPath d) None None None false PNone PNone None None
         (pystr "name") false.

Definition with_sort_by (a : FindFilesArgs) (s : str) : FindFilesArgs :=
  mkArgs (dir a) (prefix a) (suffix_arg a) (file_format a) (recursive a)
         (include_patterns a) (exclude_patterns a) (min_size_bytes a)
         (max_files a) s (reverse a).

Definition with_include (a : FindFilesArgs) (v : PyPatterns) : FindFilesArgs :=
  mkArgs (dir a) (prefix a) (suffix_arg a) (file_format a) (recursive a)
         v (exclude_patterns a) (min_size_bytes a)
         (max_files a) (sort_by a) (reverse a).

Definition with_exclude (a : FindFilesArgs) (v : PyPatterns) : FindFilesArgs :=
  mkArgs (dir a) (prefix a) (suffix_arg a) (file_format a) (recursive a)
         (include_patterns a) v (min_size_bytes a)
         (max_files a) (sort_by a) (reverse a).

(** [find_files(dir, file_format="txt")] *)
Definition txt_args (d : Path) : FindFilesArgs :=
  mkArgs (DPath d) None None (Some (pystr "txt")) false PNone PNone
         None None (pystr "name") false.

(** [find_files(dir, file_format="txt", min_size_bytes=100)] *)
Definition txt_100_args (d : Path) : FindFilesArgs :=
  mkArgs (DPath d) None None (Some (pystr "txt")) false PNone PNone
         (Some 100) None (pystr "name") false.

End Discovery.

(* ================================================================= *)
(** ** unzip_files.py: the batch decompression pipeline *)

Module Unzip.

Definition bytes := list Byte.byte.

(** What a path names. *)
Inductive Node :=
| Dir
| File (data : bytes).

(** The records the module's logger receives. *)
Inductive LogRecord :=
| InfoSkipping (dest_p : Path)              (* "Skipping ..., already exists." *)
| InfoExtracted (dest_p : Path)             (* "Extracted: ..." *)
| ErrorExtracting (source_path : str) (e : Exn).  (* "Error extracting ...: ..." *)

(** The file system and the log.  [denied] marks the files the process
    may not open and the directories it may not create entries in;
    [resolve] is [Path.resolve()]. *)
Record World := mkWorld
  { nodes : Path -> option Node;
    denied : Path -> bool;
    resolve : Path -> Path;
    log : list LogRecord }.

Definition set_node (w : World) (p : Path) (n : Node) : World :=
  mkWorld (fun q => if path_eqb q p then Some n else nodes w q)
          (denied w) (resolve w) (log w).

Definition add_log (w : World) (r : LogRecord) : World :=
  mkWorld (nodes w) (denied w) (resolve w) (log w ++ [r]).

(** A computation on the world; a raised exception keeps the changes
    made before it. *)
Definition M (A : Type) : Type := World -> Result A * World.

Definition ret {A} (a : A) : M A := fun w => (Ok a, w).
Definition raise {A} (e : Exn) : M A := fun w => (Raise e, w).

Definition bind {A B} (m : M A) (f : A -> M B) : M B :=
  fun w =>
    match m w with
    | (Ok a, w') => f a w'
    | (Raise e, w') => (Raise e, w')
    end.

(** [try: m  except Exception as e: h(e)]; every exception of the model
    is an [Exception]. *)
Definition try_except_Exception {A} (m : M A) (h : Exn -> M A) : M A :=
  fun w =>
    match m w with
    | (Raise e, w') => h e w'
    | r => r
    end.

Declare Scope unzip_scope.
Delimit Scope unzip_scope with unzip.
Notation "x <- m ;; k" := (bind m (fun x => k))
  (at level 61, m at next level, right associativity) : unzip_scope.
Notation "m ;;; k" := (bind m (fun _ => k))
  (at level 61, right associativity) : unzip_scope.
Local Open Scope unzip_scope.

Fixpoint mapM {A B} (f : A -> M B) (l : list A) : M (list B) :=
  match l with
  | [] => ret []
  | x :: l' => y <- f x ;; ys <- mapM f l' ;; ret (y :: ys)
  end.

Definition logger (r : LogRecord) : M unit := fun w => (Ok tt, add_log w r).

(** *** The file-system calls *)

Definition path_exists (p : Path) : M bool :=
  fun w => (Ok (match nodes w p with Some _ => true | None => false end), w).

Definition path_is_dir (p : Path) : M bool :=
  fun w => (Ok (match nodes w p with Some Dir => true | _ => false end), w).

Definition path_resolve (p : Path) : M Path :=
  fun w => (Ok (resolve w p), w).

(** [os.mkdir(p)] *)
Definition os_mkdir (p : Path) : M unit :=
  fun w =>
    match nodes w p with
    | Some _ => (Raise FileExistsError, w)
    | None =>
        match nodes w (parent p) with
        | Some Dir => if denied w (parent p) then (Raise PermissionError, w)
                      else (Ok tt, set_node w p Dir)
        | Some (File _) => (Raise NotADirectoryError, w)
        | None => (Raise FileNotFoundError, w)
        end
    end.

(** [Path.mkdir(parents=..., exist_ok=...)]; [n] bounds the climb to the
    ancestors by the number of components. *)
Fixpoint mkdir_rec (n : nat) (p : Path) (parents exist_ok : bool) : M unit :=
  fun w =>
    match os_mkdir p w with
    | (Raise e, w1) =>
        if exn_eqb e FileNotFoundError then
          if negb parents || path_eqb (parent p) p then (Raise e, w1)
          else
            match n with
            | O => (Raise e, w1)
            | S k =>
                (mkdir_rec k (parent p) true true ;;;
                 mkdir_rec k p false exist_ok) w1
            end
        else if is_OSError e then
          match path_is_dir p w1 with
          | (Ok true, w2) => if exist_ok then (Ok tt, w2) else (Raise e, w2)
          | (_, w2) => (Raise e, w2)
          end
        else (Raise e, w1)
    | ok => ok
    end.

Definition path_mkdir (p : Path) (parents exist_ok : bool) : M unit :=
  mkdir_rec (length (parts p)) p parents exist_ok.

(** [gzip.open(p, "rb")]: the file is opened for reading. *)
Definition gzip_open_rb (p : Path) : M unit :=
  fun w =>
    match nodes w p with
    | None => (Raise FileNotFoundError, w)
    | Some Dir => (Raise IsADirectoryError, w)
    | Some (File _) => if denied w p then (Raise PermissionError, w)
                       else (Ok tt, w)
    end.

(** [open(p, "wb")]: the file is created or truncated. *)
Definition open_wb (p : Path) : M unit :=
  fun w =>
    match nodes w p with
    | Some Dir => (Raise IsADirectoryError, w)
    | Some (File _) => if denied w p then (Raise PermissionError, w)
                       else (Ok tt, set_node w p (File []))
    | None =>
        match nodes w (parent p) with
        | Some Dir => if denied w (parent p) then (Raise PermissionError, w)
                      else (Ok tt, set_node w p (File []))
        | Some (File _) => (Raise NotADirectoryError, w)
        | None => (Raise FileNotFoundError, w)
        end
    end.

Section Pipeline.
(** The gzip decoder: the bytes it delivers before the stream ends, and
    whether the stream was sound. *)
Variable gunzip : bytes -> bytes * bool.

(** [shutil.copyfileobj(f_in, f_out)] with [f_in] the gzip reader on
    [src] and [f_out] the writer on [dst]. *)
Definition copyfileobj (src dst : Path) : M unit :=
  fun w =>
    match nodes w src with
    | Some (File raw) =>
        let '(out, sound) := gunzip raw in
        let w' := set_node w dst (File out) in
        if sound then (Ok tt, w') else (Raise BadGzipFile, w')
    | _ => (Raise OSError, w)
    end.

(** The [with gzip.open(source_p, "rb") as f_in, open(dest_p, "wb") as
    f_out:] statement and its body. *)
Definition decompress_copy (source_p dest_p : Path) : M unit :=
  gzip_open_rb source_p ;;;
  open_wb dest_p ;;;
  copyfileobj source_p dest_p.

Definition WorkItem : Type := str * str * bool.

Definition unzip_file (file_info : WorkItem) : M (option str) :=
  let '(source_path, dest_path, overwrite) := file_info in
  try_except_Exception
    (let source_p := Path_of_str source_path in
     let dest_p := Path_of_str dest_path in
     e <- path_exists dest_p ;;
     if e && negb overwrite then
       logger (InfoSkipping dest_p) ;;; ret None
     else
       decompress_copy source_p dest_p ;;;
       logger (InfoExtracted dest_p) ;;;
       ret (Some (str_of_Path dest_p)))
    (fun e => logger (ErrorExtracting source_path e) ;;; ret None).

(** An element of the input list: a path string, a 3-tuple, or anything
    else. *)
Inductive PyItem :=
| ItemStr (s : str)
| ItemTuple3 (source dest : str) (overwrite : bool)
| ItemOther.

(** The first argument: a list, or anything else. *)
Inductive PySource :=
| SrcList (l : list PyItem)
| SrcOther.

Definition is_tuple3 (it : PyItem) : bool :=
  match it with ItemTuple3 _ _ _ => true | _ => false end.

Definition is_str (it : PyItem) : bool :=
  match it with ItemStr _ => true | _ => false end.

(** [cast(list[tuple[str, str, bool]], l)] *)
Fixpoint as_tuples (l : list PyItem) : list WorkItem :=
  match l with
  | ItemTuple3 s d o :: l' => (s, d, o) :: as_tuples l'
  | _ :: l' => as_tuples l'
  | [] => []
  end.

(** [cast(list[str], l)] *)
Fixpoint as_strs (l : list PyItem) : list str :=
  match l with
  | ItemStr s :: l' => s :: as_strs l'
  | _ :: l' => as_strs l'
  | [] => []
  end.

(** The destination directory the second branch settles on and creates. *)
Definition chosen_destination (first : str) (destination_directory : option str)
  : M Path :=
  first_file <- path_resolve (Path_of_str first) ;;
  let default_dest_dir := joinpath (parent first_file) (pystr "unzipped") in
  match destination_directory with
  | Some (c :: d) => path_resolve (Path_of_str (c :: d))
  | _ => ret default_dest_dir
  end.

(** The input normalisation: the two branches on the shape of the list
    and the [ValueError] of a mixed list. *)
Definition build_file_paths (l : list PyItem)
           (destination_directory : option str) (overwrite : bool)
  : M (list WorkItem) :=
  if forallb is_tuple3 l then ret (as_tuples l)
  else if forallb is_str l then
    let str_list := as_strs l in
    match str_list with
    | [] => raise IndexError
    | first :: _ =>
        destination_path <- chosen_destination first destination_directory ;;
        path_mkdir destination_path true true ;;;
        mapM (fun file =>
                src <- path_resolve (Path_of_str file) ;;
                ret (str_of_Path src,
                     str_of_Path (joinpath destination_path
                                           (stem (Path_of_str file))),
                     overwrite))
             str_list
    end
  else raise ValueError.

(** The order in which the pool's workers complete the items. *)
Variable completion_order : list WorkItem -> list WorkItem.

(** [pool.imap_unordered(unzip_file, file_paths)], drained. *)
Definition imap_unordered (file_paths : list WorkItem) : M (list (option str)) :=
  mapM unzip_file (completion_order file_paths).

(** [filter(None, results)]: the results that are true. *)
Fixpoint filter_None (l : list (option str)) : list str :=
  match l with
  | Some (c :: s) :: l' => (c :: s) :: filter_None l'
  | _ :: l' => filter_None l'
  | [] => []
  end.

Definition unzip_xml_gz_files (source_directory : PySource)
           (destination_directory : option str) (overwrite : bool)
  : M (str * list str) :=
  match source_directory with
  | SrcList l =>
      file_paths <- build_file_paths l destination_directory overwrite ;;
      destination_path <-
        match file_paths with
        | [] => raise IndexError
        | (_, dest, _) :: _ => ret (parent (Path_of_str dest))
        end ;;
      results <- imap_unordered file_paths ;;
      ret (str_of_Path destination_path, filter_None results)
  | SrcOther => raise TypeError
  end.

End Pipeline.

(** *** Vocabulary of the properties *)

(** A work item as an element of the input list. *)
Definition item_of (x : WorkItem) : PyItem :=
  let '(s, d, o) := x in ItemTuple3 s d o.

Definition item_dest (x : WorkItem) : str := snd (fst x).

(** The directory the bare-path branch settles on. *)
Definition destination_value (w : World) (first : str)
           (destination_directory : option str) : Path :=
  match destination_directory with
  | Some (c :: d) => resolve w (Path_of_str (c :: d))
  | _ => joinpath (parent (resolve w (Path_of_str first))) (pystr "unzipped")
  end.

(** The work item the bare-path branch derives from one source. *)
Definition derived_item (w : World) (destination_path : Path)
           (overwrite : bool) (file : str) : WorkItem :=
  (str_of_Path (resolve w (Path_of_str file)),
   str_of_Path (joinpath destination_path (stem (Path_of_str file))),
   overwrite).

Definition is_dir_in (w : World) (p : Path) : bool :=
  match nodes w p with Some Dir => true | _ => false end.

(** *** A concrete world *)

(** A stand-in decoder for concrete runs: a stream is sound when it
    starts with the two magic bytes, and its payload is what follows. *)
Definition gunzip_magic (raw : bytes) : bytes * bool :=
  match raw with
  | Byte.x1f :: Byte.x8b :: payload => (payload, true)
  | _ => ([], false)
  end.

Definition p_in : Path := mkPath Slash [pystr "in"].
Definition p_out : Path := mkPath Slash [pystr "out"].
Definition p_a_gz : Path := mkPath Slash [pystr "in"; pystr "a.xml.gz"].
Definition p_a_xml : Path := mkPath Slash [pystr "out"; pystr "a.xml"].

(** [/in/a.xml.gz] is a sound archive, [/out] an empty directory, and
    there is no [/in/missing.xml.gz]. *)
Definition w_archive : World :=
  mkWorld
    (fun p => if path_eqb p (mkPath Slash []) then Some Dir
              else if path_eqb p p_in then Some Dir
              else if path_eqb p p_out then Some Dir
              else if path_eqb p p_a_gz
                   then Some (File [Byte.x1f; Byte.x8b; Byte.x3c; Byte.x61;
                                    Byte.x2f; Byte.x3e])
              else None)
    (fun _ => false)
    (fun p => p)
    [].

Definition good_item : WorkItem :=
  (pystr "/in/a.xml.gz", pystr "/out/a.xml", false).
Definition missing_item : WorkItem :=
  (pystr "/in/missing.xml.gz", pystr "/out/missing.xml", false).



End Unzip.

(* ================================================================= *)
(** ** files_finder.py: [search_files] and [find_one] *)

Module Search.
Import Discovery.

(** The outcome of a search: a value, or [re.error] from an invalid
    regular expression. *)
Inductive Outcome (A : Type) :=
| Returned (a : A)
| RaisedReError.
Arguments Returned {A} a.
Arguments RaisedReError {A}.

Section SearchFiles.
Variable w : World.

(** [re.compile(regex, flags)]: [None] when the expression is invalid;
    otherwise what [rx.search(s)] finds, as a truth value.  The flag is
    whether [re.IGNORECASE] is set. *)
Variable re_compile : str -> bool -> option (str -> bool).

(** The truth value of an optional string. *)
Definition given (s : option str) : bool :=
  match s with
  | Some (_ :: _) => true
  | _ => false
  end.

(** [max_results and len(out) >= max_results] *)
Definition cap_reached (max_results : option Z) (out : list Path) : bool :=
  match max_results with
  | Some m => negb (m =? 0) && (m <=? Z.of_nat (length out))
  | None => false
  end.

(** [rx and not rx.search(s)] *)
Definition rejected (rx : option (str -> bool)) (p : Path) : bool :=
  match rx with
  | Some search => negb (search (str_of_Path p))
  | None => false
  end.

(** The [for p in candidates] loop over what the enumeration yields.
    With [only_files] the candidates are the generator
    [(p for p in ... if p.is_file())], whose test runs as the loop asks
    for the next candidate; a [break] leaves the rest unvisited. *)
Fixpoint search_loop (only_files : bool) (rx : option (str -> bool))
         (max_results : option Z) (yielded : list Path) (out : list Path)
  : list Path * list Event :=
  match yielded with
  | [] => (out, [])
  | p :: rest =>
      let visit := if only_files then [EvIsFile p] else [] in
      if only_files && negb (fs_is_file w p) then
        let '(r, t) := search_loop only_files rx max_results rest out in
        (r, visit ++ t)
      else if rejected rx p then
        let '(r, t) := search_loop only_files rx max_results rest out in
        (r, visit ++ t)
      else
        let out' := out ++ [p] in
        if cap_reached max_results out' then (out', visit)
        else
          let '(r, t) := search_loop only_files rx max_results rest out' in
          (r, visit ++ t)
  end.

(** The pattern [root.rglob] enumerates with: [rglob(pat)] is
    [glob("**/" + pat)]. *)
Definition rglob_pattern (pattern : option str) : str :=
  match pattern with
  | Some (c :: s) => pystr "**/" ++ c :: s
  | _ => pystr "**/*"
  end.

(** [re.compile(regex, flags) if regex else None]; the outer [None] is
    [re.error]. *)
Definition compile_regex (regex : option str) (case_insensitive : bool)
  : option (option (str -> bool)) :=
  match regex with
  | Some (c :: s) =>
      match re_compile (c :: s) case_insensitive with
      | Some search => Some (Some search)
      | None => None
      end
  | _ => Some None
  end.

(** The patterns are relative ones, which [rglob] accepts. *)
Definition search_files (root : PyDir) (pattern regex : option str)
           (case_insensitive : bool) (max_results : option Z)
  : Outcome (list Path) * list Event :=
  let root := Path_of_dir root in
  if negb (fs_exists w root) then (Returned [], [EvExists root])
  else
    match compile_regex regex case_insensitive with
    | None => (RaisedReError, [EvExists root])
    | Some rx =>
        let '(out, t) :=
          search_loop (negb (given pattern)) rx max_results
                      (fs_glob w root (rglob_pattern pattern)) [] in
        (Returned out, EvExists root :: EvGlob root (rglob_pattern pattern) :: t)
    end.

Definition find_one (root : PyDir) (pattern regex : option str)
           (case_insensitive : bool) : Outcome (option Path) * list Event :=
  match search_files root pattern regex case_insensitive (Some 1) with
  | (Returned res, t) => (Returned (match res with p :: _ => Some p | [] => None end), t)
  | (RaisedReError, t) => (RaisedReError, t)
  end.

(** *** Vocabulary *)

(** What the loop is fed, in order: the enumeration, without the
    non-files when no pattern is given. *)
Definition candidates (root : PyDir) (pattern : option str) : list Path :=
  let l := fs_glob w (Path_of_dir root) (rglob_pattern pattern) in
  if given pattern then l else filter (fs_is_file w) l.

(** The candidates the expression accepts. *)
Definition matches (rx : option (str -> bool)) (l : list Path) : list Path :=
  filter (fun p => negb (rejected rx p)) l.

(** How many results the loop stops at: never for [None] and 0, at
    [max_results] when it is positive, and at one when it is negative. *)
Definition limit (max_results : option Z) : option nat :=
  match max_results with
  | None => None
  | Some m => if m =? 0 then None
              else if m <? 0 then Some 1%nat
              else Some (Z.to_nat m)
  end.

Definition limited (max_results : option Z) (l : list Path) : list Path :=
  match limit max_results with
  | None => l
  | Some n => firstn n l
  end.

(** A candidate the loop keeps: a file when only files are wanted, and
    accepted by the expression. *)
Definition accepted (only_files : bool) (rx : option (str -> bool))
           (p : Path) : bool :=
  (negb only_files || fs_is_file w p) && negb (rejected rx p).

(** The [is_file] tests made on a run of yielded entries. *)
Definition visits (only_files : bool) (l : list Path) : list Event :=
  if only_files then map EvIsFile l else [].

End SearchFiles.

(** A stand-in for [re.compile] in concrete runs: an expression is a
    plain substring to look for, and one that starts with [(] is
    invalid. *)
Fixpoint contains (needle s : str) : bool :=
  startswith s needle
  || match s with
     | [] => false
     | _ :: s' => contains needle s'
     end.

Definition re_plain (regex : str) (ignore_case : bool) : option (str -> bool) :=
  match regex with
  | c :: _ => if ascii_eqb c "("%char then None
              else Some (fun s => if ignore_case
                                  then contains (lower regex) (lower s)
                                  else contains regex s)
  | [] => Some (fun _ => true)
  end.

End Search.

(* ================================================================= *)
(** ** multi_proc.py: [run_multiprocessing] *)

Module MultiProc.

Section Run.
Context {A B : Type}.

(** [multiprocessing.cpu_count()] *)
Variable cpu_count : Z.

(** The function run on each input: its value, or the exception it
    raises. *)
Variable func : A -> Result B.

(** [pool.map] sends the function, the inputs and the results from one
    process to another by pickling them.  The exceptions this raises for
    a list of inputs ([PicklingError] for a lambda, say); none when all
    of it can be pickled. *)
Variable unpicklable : list A -> list Exn.

(** Which of the exceptions of a run [pool.map] re-raises: the one that
    reaches the parent first. *)
Variable first_to_arrive : list Exn -> Exn.

(** [multiprocessing.Pool(processes=n)] for a number [n]. *)
Definition Pool (processes : Z) : Result unit :=
  if processes <? 1 then Raise ValueError else Ok tt.

Fixpoint values (rs : list (Result B)) : list B :=
  match rs with
  | Ok b :: rs' => b :: values rs'
  | Raise _ :: rs' => values rs'
  | [] => []
  end.

Fixpoint failures (rs : list (Result B)) : list Exn :=
  match rs with
  | Ok _ :: rs' => failures rs'
  | Raise e :: rs' => e :: failures rs'
  | [] => []
  end.

(** [pool.map(func, inputs)]: the values in the order of the inputs, or
    an exception when something could not be pickled or a task raised. *)
Definition pool_map (inputs : list A) : Result (list B) :=
  let rs := map func inputs in
  match unpicklable inputs ++ failures rs with
  | [] => Ok (values rs)
  | e :: es => Raise (first_to_arrive (e :: es))
  end.

(** [num_workers or multiprocessing.cpu_count() - 1] *)
Definition workers (num_workers : option Z) : Z :=
  match num_workers with
  | Some n => if n =? 0 then cpu_count - 1 else n
  | None => cpu_count - 1
  end.

Definition run_multiprocessing (inputs : list A) (num_workers : option Z)
  : Result (list B) :=
  match Pool (workers num_workers) with
  | Raise e => Raise e
  | Ok _ => pool_map inputs
  end.

End Run.

End MultiProc.

(* ================================================================= *)
(** ** files_finder.py: attaching functions as methods *)

Module Attach.




(** The [func] argument: whether it is callable, and its [__name__] if it
    has one. *)
Record Func := mkFunc { fid : nat; is_callable : bool; dunder_name : option str }.










(** *** Vocabulary *)









Definition not_callable : Func := mkFunc 3 false (Some (pystr "data")).

End Attach.

(* ================================================================= *)
(** ** Vocabulary of the further properties *)

Module Vocabulary.
Import Discovery.

(** The keys of one sort: names, or numbers with infinity. *)
Definition name_key (k : Key) : Prop := exists s, k = KStr s.
Definition number_key (k : Key) : Prop := k = KInf \/ exists q, k = KNum q.

(** The year the extractor reads off the name of a path. *)
Definition year_of (p : Path) : option Z :=
  _extract_year_from_filename (code_points (name p)).

Definition has_year (p : Path) : bool :=
  match year_of p with Some _ => true | None => false end.

Definition year_is (y : Z) (p : Path) : bool :=
  match year_of p with Some y' => Z.eqb y' y | None => false end.

(** The step of the [for f in files] loop of [sort_files_by_year]. *)
Definition bucket_step (b : YearBuckets) (f : Path) : YearBuckets :=
  match _extract_year_from_filename (code_points (name f)) with
  | Some y => bucket_append y f b
  | None => b
  end.

(** What holds of the buckets once the loop has gone through [fs]. *)
Definition buckets_invariant (b : YearBuckets) (fs : list Path) : Prop :=
  NoDup (map fst b)
  /\ (forall y l, In (y, l) b -> l = filter (year_is y) fs /\ l <> [])
  /\ (forall p y, In p fs -> year_of p = Some y -> In y (map fst b))
  /\ length (concat (map snd b)) = length (filter has_year fs).

(** Arguments that [FindFilesArgs.__post_init__] would leave as they
    are, [dir] apart: no leading dot in [file_format], and pattern
    arguments that are [None] or lists. *)
Definition in_normal_form (a : FindFilesArgs) : bool :=
  match file_format a with
  | Some (c :: _) => negb (ascii_eqb c dot)
  | _ => true
  end
  && match include_patterns a with PStr _ => false | _ => true end
  && match exclude_patterns a with PStr _ => false | _ => true end.

(** Every decimal digit of the name is one of [0-9]. *)
Definition only_ascii_digits (name : ustr) : bool :=
  forallb (fun c => implb (is_digit c) (ascii_digit c)) name.

(** Two keys that compare equal: neither is smaller. *)
Definition key_same (a b : Key) : bool :=
  negb (key_lt a b) && negb (key_lt b a).

(** [p] has a key equal to that of [p0]. *)
Definition same_key_as (w : World) (sort_by : str) (p0 p : Path) : bool :=
  key_same (key_value w sort_by p0) (key_value w sort_by p).

(** The world [w] with other sizes and time stamps: what [stat] returns
    for a file whose metadata can be read is changed by [change]; what
    exists, the kinds, the enumeration and the canonical paths are as in
    [w]. *)
Definition with_metadata (w : World) (change : Path -> Stat -> Stat) : World :=
  mkWorld (fs_exists w) (fs_is_dir w) (fs_is_file w) (fs_glob w)
          (fun p => option_map (change p) (fs_stat w p))
          (fs_resolve w) (vectorsage_data_importable w).

End Vocabulary.

Module UnzipVocabulary.
Import Unzip.

(** A node keeps its kind: a directory stays a directory and a file a
    file. *)
Definition same_kind (a b : option Node) : Prop :=
  match a with
  | Some Dir => b = Some Dir
  | Some (File _) => exists d, b = Some (File d)
  | None => True
  end.

Definition is_file_in (w : World) (p : Path) : bool :=
  match nodes w p with Some (File _) => true | _ => false end.

(** [open(p, "wb")] will succeed: [p] is a file the process may open,
    or is absent from a directory the process may write to. *)
Definition writable (w : World) (p : Path) : bool :=
  match nodes w p with
  | Some Dir => false
  | Some (File _) => negb (denied w p)
  | None => is_dir_in w (parent p) && negb (denied w (parent p))
  end.

(** A component as [pathlib] keeps it: not empty, not a single dot, and
    without a slash. *)
Definition wf_component (x : str) : Prop :=
  x <> [] /\ x <> [dot] /\ ~ In slash x.

(** A path as [pathlib] holds it. *)
Definition wf_path (p : Path) : Prop := Forall wf_component (parts p).

End UnzipVocabulary.

(* ================================================================= *)
(** * Properties *)

(** ** Strings and names *)

Lemma ascii_eqb_refl (a : ascii) : ascii_eqb a a = true.
Proof. apply Ascii.eqb_refl. Qed.

Lemma ascii_eqb_true (a b : ascii) : ascii_eqb a b = true -> a = b.
Proof. apply Ascii.eqb_eq. Qed.

Lemma str_eqb_refl (s : str) : str_eqb s s = true.
Proof.
  induction s as [|c s IH]; simpl; [reflexivity|].
  now rewrite ascii_eqb_refl, IH.
Qed.

Lemma str_eqb_true (a b : str) : str_eqb a b = true -> a = b.
Proof.
  revert b; induction a as [|x a IH]; intros [|y b]; simpl; try discriminate.
  - reflexivity.
  - intros H. apply andb_true_iff in H as [Hx Hab].
    apply ascii_eqb_true in Hx. apply IH in Hab. now subst.
Qed.

Lemma str_eqb_spec (a b : str) : str_eqb a b = true <-> a = b.
Proof.
  split; [apply str_eqb_true|]. intros ->. apply str_eqb_refl.
Qed.

Lemma suffix_index_lt (nm : str) (i : nat) :
  suffix_index nm = Some i -> (0 < i /\ i < length nm - 1)%nat.
Proof.
  unfold suffix_index. destruct (rfind dot nm) as [j|]; [|discriminate].
  destruct (0 <? j)%nat eqn:H0; destruct (j <? length nm - 1)%nat eqn:H1;
    simpl; try discriminate.
  intros [= <-]. apply Nat.ltb_lt in H0, H1. split; assumption.
Qed.

(** Taking the final extension off a name leaves its stem: the
    [base_no_ext] of [_prefix_suffix_ok] is the stem. *)
Lemma removesuffix_name_suffix (nm : str) :
  removesuffix nm (name_suffix nm) = name_stem nm.
Proof.
  unfold name_suffix, name_stem.
  destruct (suffix_index nm) as [i|] eqn:Hi; [|reflexivity].
  apply suffix_index_lt in Hi as [H0 H1].
  assert (Hlen : length (skipn i nm) = (length nm - i)%nat)
    by apply length_skipn.
  unfold removesuffix.
  destruct (skipn i nm) as [|c r] eqn:Hs.
  - simpl in Hlen. lia.
  - unfold endswith. rewrite Hlen.
    replace (length nm - (length nm - i))%nat with i by lia.
    rewrite Hs, str_eqb_refl.
    replace (length nm - i <=? length nm)%nat with true
      by (symmetry; apply Nat.leb_le; lia).
    reflexivity.
Qed.

Lemma base_no_ext_is_stem (p : Path) :
  removesuffix (name p) (suffix p) = stem p.
Proof. apply removesuffix_name_suffix. Qed.

(** ** The year extractor *)

Lemma search_step (r : regex) (s : ustr) :
  search r s =
  match match_here r s with
  | a :: _ => Some a
  | [] => match s with
          | [] => None
          | _ :: s' => search r s'
          end
  end.
Proof. destruct s; reflexivity. Qed.

(** The two token patterns match at a position exactly when the literal
    is there with four digits behind it, in one way only. *)
Lemma match_here_token (lit s : ustr) :
  match_here (RSeq (RLit lit) (RGroup (RRep 4 RDigit))) s =
  match digits4_after lit s with
  | Some d => [mkAttempt (lit ++ d) (Some d) (skipn 4 (skipn (length lit) s))]
  | None => []
  end.
Proof.
  unfold digits4_after. cbn [match_here].
  destruct (ustartswith s lit); [|reflexivity].
  cbn [flat_map rest app].
  destruct (skipn (length lit) s) as [|d1 [|d2 [|d3 [|d4 t]]]]; cbn;
    repeat match goal with
           | |- context [is_digit ?c] => destruct (is_digit c); cbn
           end; reflexivity.
Qed.

Lemma captured_token (lit name : ustr) :
  captured (RSeq (RLit lit) (RGroup (RRep 4 RDigit))) name
  = token_year lit name.
Proof.
  unfold captured.
  induction name as [|c name IH].
  - rewrite search_step, match_here_token. cbn [token_year].
    destruct (digits4_after lit []); reflexivity.
  - rewrite search_step, match_here_token. cbn [token_year].
    destruct (digits4_after lit (c :: name)); [reflexivity|exact IH].
Qed.

(** The bare pattern matches at a position exactly when a [19xx] or a
    [20xx] starts there; the first way of matching captures those four
    characters. *)
Lemma match_here_bare (s : ustr) :
  hd_error (match_here pat_bare s)
  = option_map (fun d => mkAttempt d (Some d) (skipn 4 s)) (bare4_here s).
Proof.
  unfold pat_bare, bare4_here.
  change (upystr "19") with [49; 57]%N. change (upystr "20") with [50; 48]%N.
  destruct s as [|d1 [|d2 [|d3 [|d4 t]]]];
    cbn [match_here ustartswith flat_map map app rep_match rest consumed
         group seq_attempt ustr_eqb skipn length hd_error option_map andb orb];
    repeat match goal with
           | |- context [N.eqb ?a ?b] =>
               destruct (N.eqb_spec a b); [subst|];
               cbn [match_here ustartswith flat_map map app rep_match rest
                    consumed group seq_attempt ustr_eqb skipn length hd_error
                    option_map andb orb]
           end;
    try reflexivity; try discriminate;
    repeat match goal with
           | |- context [is_digit ?c] =>
               destruct (is_digit c);
               cbn [match_here ustartswith flat_map map app rep_match rest
                    consumed group seq_attempt ustr_eqb skipn length hd_error
                    option_map andb orb]
           end; try reflexivity; try discriminate.
Qed.

Lemma captured_bare (name : ustr) : captured pat_bare name = bare_year name.
Proof.
  unfold captured.
  induction name as [|c name IH].
  - reflexivity.
  - rewrite search_step. cbn [bare_year].
    pose proof (match_here_bare (c :: name)) as H.
    destruct (match_here pat_bare (c :: name)) as [|a l];
      destruct (bare4_here (c :: name)) as [d|]; cbn in H; try discriminate.
    + exact IH.
    + injection H as ->. reflexivity.
Qed.

(** One turn of the loop: the number of the pattern if it is valid, else
    the rest of the loop. *)
Lemma extract_loop_step (pat : regex) (pats : list regex) (name : ustr) :
  extract_loop (pat :: pats) name
  = first_some (valid_year (captured pat name)) (extract_loop pats name).
Proof.
  cbn [extract_loop]. unfold captured, int_of_year_group, valid_year.
  destruct (search pat name) as [m|]; [|reflexivity].
  destruct (group m) as [g|]; [|reflexivity].
  destruct (int g) as [y|]; [|reflexivity].
  destruct (year_in_range y); reflexivity.
Qed.

Lemma extract_year_refines (name : ustr) :
  _extract_year_from_filename name = extractYear name.
Proof.
  unfold _extract_year_from_filename, patterns, extractYear.
  rewrite !extract_loop_step. cbn [extract_loop].
  unfold pat_pubmed_sorted, pat_pubmed.
  rewrite !captured_token, captured_bare.
  destruct (valid_year (bare_year name)); reflexivity.
Qed.

Lemma valid_year_range (c : option ustr) (y : Z) :
  valid_year c = Some y -> 1900 <= y <= 2099.
Proof.
  unfold valid_year, year_in_range.
  destruct c as [d|]; [|discriminate].
  destruct (int d) as [z|]; [|discriminate].
  destruct ((1900 <=? z) && (z <=? 2099)) eqn:E; [|discriminate].
  intros [= <-]. apply andb_true_iff in E as [E1 E2]. lia.
Qed.

Lemma extractYear_range (name : ustr) (y : Z) :
  extractYear name = Some y -> 1900 <= y <= 2099.
Proof.
  unfold extractYear, first_some.
  destruct (valid_year (token_year _ name)) eqn:E1.
  - intros [= <-]. eapply valid_year_range; eauto.
  - destruct (valid_year (token_year (upystr "pubmed_") name)) eqn:E2.
    + intros [= <-]. eapply valid_year_range; eauto.
    + apply valid_year_range.
Qed.

Lemma decimal_among_range (zeros : list N) (c : N) (v : Z) :
  decimal_among zeros c = Some v -> 0 <= v <= 9.
Proof.
  induction zeros as [|z zeros IH]; cbn [decimal_among]; [discriminate|].
  destruct ((z <=? c) && (c <? z + 10))%N eqn:E; [|exact IH].
  intros [= <-]. apply andb_true_iff in E as [E1 E2].
  apply N.leb_le in E1. apply N.ltb_lt in E2. lia.
Qed.

Lemma is_digit_value (c : N) :
  is_digit c = true -> 0 <= digit_value c <= 9.
Proof.
  unfold is_digit, digit_value. intros _.
  destruct (decimal c) as [v|] eqn:E; [|lia].
  now apply decimal_among_range in E.
Qed.

Lemma ustr_eqb_true (a b : ustr) : ustr_eqb a b = true -> a = b.
Proof.
  revert b. induction a as [|x a IH]; intros [|y b]; cbn; try discriminate;
    [reflexivity|].
  intros H. apply andb_true_iff in H as [Hx Hr].
  apply N.eqb_eq in Hx. subst. f_equal. now apply IH.
Qed.

Lemma int_four_digits (a b c d : N) :
  is_digit a = true -> is_digit b = true ->
  is_digit c = true -> is_digit d = true ->
  int [a; b; c; d]
  = Some (1000 * digit_value a + 100 * digit_value b
          + 10 * digit_value c + digit_value d).
Proof.
  intros Ha Hb Hc Hd. unfold int. cbn [int_digits].
  rewrite Ha, Hb, Hc, Hd. f_equal. lia.
Qed.

(** Whatever the bare pattern captures is a year of the range: rule 3
    never falls through. *)
Lemma bare4_here_valid (s d : ustr) :
  bare4_here s = Some d -> exists y, valid_year (Some d) = Some y.
Proof.
  unfold bare4_here.
  destruct s as [|d1 [|d2 [|d3 [|d4 t]]]]; try discriminate.
  destruct (_ && is_digit d3 && is_digit d4) eqn:E; [|discriminate].
  intros [= <-].
  apply andb_true_iff in E as [E E4]. apply andb_true_iff in E as [E E3].
  pose proof (is_digit_value _ E3) as B3.
  pose proof (is_digit_value _ E4) as B4.
  unfold valid_year, year_in_range.
  apply orb_true_iff in E as [E|E]; apply ustr_eqb_true in E;
    injection E as -> ->;
    (rewrite int_four_digits by (assumption || reflexivity));
    eexists;
    match goal with
    | |- (if ?c then _ else _) = _ => replace c with true; [reflexivity|]
    end;
    symmetry; apply andb_true_iff; change (digit_value 49) with 1;
    change (digit_value 57) with 9; change (digit_value 50) with 2;
    change (digit_value 48) with 0;
    split; apply Z.leb_le; lia.
Qed.

(** ** Computations of the discovery engine *)

Import Discovery.
Local Open Scope py_scope.

Lemma outcome_bind {A B} (m : M A) (f : A -> M B) :
  outcome (bind m f)
  = match outcome m with
    | Ok a => outcome (f a)
    | Raise e => Raise e
    end.
Proof.
  destruct m as [[a|e] t]; cbn; [|reflexivity].
  destruct (f a); reflexivity.
Qed.

Lemma steps_bind {A B} (m : M A) (f : A -> M B) :
  steps (bind m f)
  = steps m ++ match outcome m with
               | Ok a => steps (f a)
               | Raise _ => []
               end.
Proof.
  destruct m as [[a|e] t]; cbn.
  - destruct (f a); reflexivity.
  - now rewrite app_nil_r.
Qed.

Lemma outcome_mapM {A B} (f : A -> M B) (g : A -> B) (l : list A) :
  (forall x, outcome (f x) = Ok (g x)) ->
  outcome (mapM f l) = Ok (map g l).
Proof.
  intros H. induction l as [|x l IH]; [reflexivity|].
  cbn [mapM map]. rewrite outcome_bind, H, outcome_bind, IH. reflexivity.
Qed.

Lemma outcome_filterM {A} (f : A -> M bool) (g : A -> bool) (l : list A) :
  (forall x, outcome (f x) = Ok (g x)) ->
  outcome (filterM f l) = Ok (filter g l).
Proof.
  intros H. induction l as [|x l IH]; [reflexivity|].
  cbn [filterM filter]. rewrite outcome_bind, H, outcome_bind, IH.
  destruct (g x); reflexivity.
Qed.

Lemma outcome_filter_mapM {A B} (f : A -> M bool) (g : A -> M B)
      (f' : A -> bool) (g' : A -> B) (l : list A) :
  (forall x, outcome (f x) = Ok (f' x)) ->
  (forall x, outcome (g x) = Ok (g' x)) ->
  outcome (filter_mapM f g l) = Ok (map g' (filter f' l)).
Proof.
  intros Hf Hg. induction l as [|x l IH]; [reflexivity|].
  cbn [filter_mapM filter]. rewrite outcome_bind, Hf.
  destruct (f' x); [|exact IH].
  rewrite outcome_bind, Hg, outcome_bind, IH. reflexivity.
Qed.

Lemma outcome_size_ok (w : World) (p : Path) (m : option Z) :
  outcome (_size_ok w p m) = Ok (size_ok_value w p m).
Proof.
  unfold _size_ok, size_ok_value, path_stat.
  destruct m as [m|]; [|reflexivity].
  destruct (fs_stat w p); reflexivity.
Qed.

Lemma outcome_file_passes fnmatch (w : World) (a : FindFilesArgs) (p : Path) :
  outcome (_file_passes fnmatch w p a) = Ok (passes fnmatch w a p).
Proof.
  unfold _file_passes, passes.
  destruct (_ext_ok p (file_format a)); [|reflexivity].
  destruct (_prefix_suffix_ok p (prefix a) (suffix_arg a)); [|reflexivity].
  destruct (_patterns_ok fnmatch (name p) _ _); [|reflexivity].
  apply outcome_size_ok.
Qed.

Lemma outcome_build_sort_key (w : World) (sort_by : str) (p : Path) :
  outcome (_build_sort_key w sort_by p) = Ok (key_value w sort_by p).
Proof.
  unfold _build_sort_key, key_value, path_stat.
  destruct (str_eqb sort_by (pystr "name")); [reflexivity|].
  destruct (str_eqb sort_by (pystr "mtime")); destruct (fs_stat w p);
    reflexivity.
Qed.

Lemma combine_map_self {A B} (f : A -> B) (l : list A) :
  combine (map f l) l = map (fun x => (f x, x)) l.
Proof. induction l; cbn; congruence. Qed.

Lemma outcome_list_sort (w : World) (sort_by : str) (reverse : bool)
      (l : list Path) :
  outcome (list_sort (_build_sort_key w sort_by) reverse l)
  = Ok (sort_keyed key_lt reverse
          (map (fun p => (key_value w sort_by p, p)) l)).
Proof.
  unfold list_sort.
  rewrite outcome_bind,
    (outcome_mapM _ (key_value w sort_by) l (outcome_build_sort_key w sort_by)).
  cbn. now rewrite combine_map_self.
Qed.

(** ** The stable sort and the infinite keys *)

Section StableSortFacts.
Context {K V : Type}.
Variable lt : K -> K -> bool.

Lemma insert_perm (x : K * V) (l : list (K * V)) :
  Permutation (insert lt x l) (x :: l).
Proof.
  induction l as [|y l IH]; cbn; [reflexivity|].
  destruct (lt (fst y) (fst x)); [|reflexivity].
  rewrite IH. apply perm_swap.
Qed.

Lemma stable_sort_perm (l : list (K * V)) : Permutation (stable_sort lt l) l.
Proof.
  induction l as [|x l IH]; cbn; [reflexivity|].
  rewrite insert_perm. now constructor.
Qed.

Lemma insert_Forall (P : K * V -> Prop) (x : K * V) (l : list (K * V)) :
  P x -> Forall P l -> Forall P (insert lt x l).
Proof.
  intros Hx Hl. eapply Permutation_Forall.
  - symmetry. apply insert_perm.
  - now constructor.
Qed.

Lemma stable_sort_Forall (P : K * V -> Prop) (l : list (K * V)) :
  Forall P l -> Forall P (stable_sort lt l).
Proof.
  intros H. eapply Permutation_Forall; [|exact H].
  symmetry. apply stable_sort_perm.
Qed.
End StableSortFacts.

Section InfiniteKeys.
Context {V : Type}.

(** An infinite key is below no key, and every number is below it. *)
Lemma insert_before_infs (x : Key * V) (U : list (Key * V)) :
  forallb is_inf U = true -> insert key_lt x U = x :: U.
Proof.
  destruct U as [|[k v] U]; cbn; [reflexivity|].
  unfold is_inf; cbn. destruct k; cbn; try discriminate. reflexivity.
Qed.

Lemma insert_app_infs (x : Key * V) (A U : list (Key * V)) :
  forallb is_inf U = true ->
  insert key_lt x (A ++ U) = insert key_lt x A ++ U.
Proof.
  intros HU. induction A as [|y A IH]; cbn.
  - now apply insert_before_infs.
  - destruct (key_lt (fst y) (fst x)); [|reflexivity].
    now rewrite IH.
Qed.

Lemma insert_inf_after_nums (x : Key * V) (A : list (Key * V)) :
  is_inf x = true -> forallb is_num A = true ->
  insert key_lt x A = A ++ [x].
Proof.
  intros Hx. induction A as [|[k v] A IH]; cbn; [reflexivity|].
  intros H. apply andb_true_iff in H as [Hk HA].
  destruct x as [kx vx]. unfold is_inf in Hx. unfold is_num in Hk.
  cbn in Hx, Hk |- *.
  destruct k; try discriminate. destruct kx; try discriminate.
  cbn. f_equal. now apply IH.
Qed.

Lemma forallb_stable_sort (P : Key * V -> bool) (l : list (Key * V)) :
  forallb P l = true -> forallb P (stable_sort key_lt l) = true.
Proof.
  rewrite !forallb_forall. intros H x Hx. apply H.
  eapply Permutation_in; [apply stable_sort_perm|exact Hx].
Qed.

(** On keys that are numbers or infinite, the stable sort is the stable
    sort of the numbers followed by the infinite entries in their
    original order. *)
Lemma stable_sort_infs_last (l : list (Key * V)) :
  forallb (fun x => is_num x || is_inf x) l = true ->
  stable_sort key_lt l
  = stable_sort key_lt (filter is_num l) ++ filter is_inf l.
Proof.
  induction l as [|x l IH]; [reflexivity|].
  cbn [forallb]. intros H. apply andb_true_iff in H as [Hx Hl].
  specialize (IH Hl). cbn [stable_sort fold_right] in *.
  change (fold_right (insert key_lt) [] l) with (stable_sort key_lt l) in *.
  rewrite IH.
  assert (Hinf : forallb is_inf (filter is_inf l) = true).
  { apply forallb_forall. intros y Hy. now apply filter_In in Hy. }
  rewrite insert_app_infs by exact Hinf.
  cbn [filter].
  destruct (is_num x) eqn:Nx.
  - assert (Ix : is_inf x = false).
    { unfold is_num, is_inf in *. destruct (fst x); congruence. }
    rewrite Ix. reflexivity.
  - cbn in Hx. rewrite Hx.
    rewrite insert_inf_after_nums; [now rewrite <- app_assoc|exact Hx|].
    apply forallb_stable_sort. apply forallb_forall.
    intros y Hy. now apply filter_In in Hy.
Qed.
End InfiniteKeys.

Lemma key_value_by_stat (w : World) (sort_by : str) (p : Path) :
  sort_by = pystr "mtime" \/ sort_by = pystr "size" ->
  key_value w sort_by p
  = match fs_stat w p with
    | None => KInf
    | Some s => if str_eqb sort_by (pystr "mtime") then KNum (st_mtime s)
                else KNum (inject_Z (st_size s))
    end.
Proof. intros [-> | ->]; reflexivity. Qed.

Lemma filter_keyed {A B} (g : A -> B) (P : B -> bool) (Q : A -> bool)
      (l : list A) :
  (forall x, P (g x) = Q x) -> filter P (map g l) = map g (filter Q l).
Proof.
  intros H. induction l as [|x l IH]; cbn; [reflexivity|].
  rewrite H, IH. destruct (Q x); reflexivity.
Qed.

Lemma map_snd_keyed {A B} (k : A -> B) (l : list A) :
  map snd (map (fun x => (k x, x)) l) = l.
Proof. rewrite map_map. cbn. apply map_id. Qed.

(** The ascending sort by time or size: the readable entries, sorted,
    then the unreadable ones as they were. *)
Lemma sort_unreadable_split (w : World) (sort_by : str) (l : list Path) :
  sort_by = pystr "mtime" \/ sort_by = pystr "size" ->
  let keyed := fun p => (key_value w sort_by p, p) in
  map snd (stable_sort key_lt (map keyed l))
  = map snd (stable_sort key_lt (map keyed (filter (readable w) l)))
    ++ filter (unreadable w) l.
Proof.
  intros Hmode keyed.
  assert (Hinf : forall p, is_inf (keyed p) = unreadable w p).
  { intros p. unfold is_inf, keyed, unreadable. cbn.
    rewrite key_value_by_stat by exact Hmode.
    destruct (fs_stat w p); [|reflexivity].
    destruct (str_eqb sort_by (pystr "mtime")); reflexivity. }
  assert (Hnum : forall p, is_num (keyed p) = readable w p).
  { intros p. unfold is_num, keyed, readable, unreadable. cbn.
    rewrite key_value_by_stat by exact Hmode.
    destruct (fs_stat w p); [|reflexivity].
    destruct (str_eqb sort_by (pystr "mtime")); reflexivity. }
  rewrite stable_sort_infs_last.
  - rewrite map_app.
    rewrite (filter_keyed keyed is_num (readable w) l Hnum).
    rewrite (filter_keyed keyed is_inf (unreadable w) l Hinf).
    f_equal. apply (map_snd_keyed (key_value w sort_by)).
  - apply forallb_forall. intros x Hx. apply in_map_iff in Hx as (p & <- & _).
    rewrite Hinf, Hnum. unfold readable. now destruct (unreadable w p).
Qed.

Lemma unreadable_last_app (w : World) (rd ur : list Path) :
  (forall x, In x rd -> unreadable w x = false) ->
  (forall x, In x ur -> unreadable w x = true) ->
  unreadable_last w (rd ++ ur) = true.
Proof.
  intros Hrd Hur. induction rd as [|x rd IH]; cbn.
  - destruct ur as [|y ur]; [reflexivity|]. cbn.
    rewrite (Hur y) by now left.
    apply forallb_forall. intros z Hz. apply Hur. now right.
  - rewrite (Hrd x) by now left. apply IH. intros y Hy. apply Hrd. now right.
Qed.

Lemma sorted_readable_perm (w : World) (sort_by : str) (l : list Path) :
  Permutation
    (map snd (stable_sort key_lt
                (map (fun p => (key_value w sort_by p, p))
                     (filter (readable w) l))))
    (filter (readable w) l).
Proof.
  rewrite stable_sort_perm. now rewrite map_snd_keyed.
Qed.

(** ** [find_files], step by step *)

Section FindFilesFacts.
Variable fnmatch : str -> str -> bool.
Variable w : World.

Lemma outcome_candidates (a : FindFilesArgs) :
  outcome (filterM (path_is_file w) (fs_glob w (base_of a) (glob_pattern a)))
  = Ok (candidates_of w a).
Proof. apply outcome_filterM. reflexivity. Qed.

Lemma outcome_filtered (a : FindFilesArgs) (l : list Path) :
  outcome (filter_mapM (fun p => _file_passes fnmatch w p a)
                       (path_resolve w) l)
  = Ok (map (fs_resolve w) (filter (passes fnmatch w a) l)).
Proof.
  apply outcome_filter_mapM.
  - intros p. apply outcome_file_passes.
  - reflexivity.
Qed.

(** The outcome of a call up to the construction of the two records. *)
Lemma find_files_outcome (a : FindFilesArgs) :
  outcome (find_files fnmatch w a)
  = if negb (fs_exists w (base_of a)) then Raise FileNotFoundError
    else if negb (fs_is_dir w (base_of a)) then Raise NotADirectoryError
    else if negb (is_sort_mode (sort_by a)) then Raise ValueError
    else
      outcome
        (args_obj <- FindFilesArgs_post_init
                       (mkArgs (DPath (base_of a)) (prefix a) (suffix_arg a)
                               (file_format a) (recursive a)
                               (include_patterns a) (exclude_patterns a)
                               (min_size_bytes a) (max_files a)
                               (sort_by a) (reverse a)) ;;
         FindFilesResult_post_init w
           (mkResult (base_of a) args_obj (final_files fnmatch w a)
                     (length (final_files fnmatch w a)) (recursive a)
                     None None)).
Proof.
  unfold find_files. fold (base_of a). fold (glob_pattern a).
  rewrite outcome_bind.
  change (outcome (path_exists w (base_of a))) with (Ok (fs_exists w (base_of a))).
  cbn match.
  destruct (fs_exists w (base_of a)); cbn [negb]; [|reflexivity].
  rewrite outcome_bind.
  change (outcome (path_is_dir w (base_of a))) with (Ok (fs_is_dir w (base_of a))).
  cbn match.
  destruct (fs_is_dir w (base_of a)); cbn [negb]; [|reflexivity].
  rewrite outcome_bind.
  change (outcome (path_glob w (base_of a) (glob_pattern a)))
    with (Ok (fs_glob w (base_of a) (glob_pattern a))).
  cbn match.
  rewrite outcome_bind, outcome_candidates.
  rewrite outcome_bind, outcome_filtered.
  rewrite outcome_bind. unfold _validate_sort_by.
  destruct (is_sort_mode (sort_by a)); cbn [negb]; [|reflexivity].
  change (outcome (ret tt)) with (Ok tt). cbn match.
  rewrite outcome_bind, outcome_list_sort.
  fold (final_files fnmatch w a).
  rewrite outcome_bind.
  change (outcome (tell ?e)) with (Ok tt).
  reflexivity.
Qed.
End FindFilesFacts.

Section ResultFacts.
Variable w : World.

(** With a valid mode the grouping never raises. *)
Lemma sort_files_by_year_total (fl : list Path) (sort_by : str) :
  is_sort_mode sort_by = true ->
  exists g, outcome (sort_files_by_year w fl sort_by) = Ok g.
Proof.
  intros Hm. unfold sort_files_by_year. rewrite Hm. cbn [negb].
  rewrite outcome_bind.
  rewrite (outcome_mapM _
             (fun yl => (fst yl,
                         sort_keyed key_lt false
                           (map (fun p => (key_value w sort_by p, p)) (snd yl))))).
  - eexists. reflexivity.
  - intros yl. rewrite outcome_bind, outcome_list_sort. reflexivity.
Qed.

Lemma sort_files_by_year_invalid (fl : list Path) (sort_by : str) :
  is_sort_mode sort_by = false ->
  outcome (sort_files_by_year w fl sort_by) = Raise ValueError.
Proof. intros Hm. unfold sort_files_by_year. now rewrite Hm. Qed.

Lemma result_post_init_outcome (self : FindFilesResult) :
  outcome (FindFilesResult_post_init w self)
  = if vectorsage_data_importable w then
      match outcome (sort_files_by_year w (files self) (pystr "name")) with
      | Ok g => Ok (set_db_file_paths self (Some g))
      | Raise e => Raise e
      end
    else Raise ModuleNotFoundError.
Proof.
  unfold FindFilesResult_post_init, group_by_year, import_sort_files_by_year.
  rewrite outcome_bind, outcome_bind.
  destruct (vectorsage_data_importable w); [|reflexivity].
  change (outcome (ret ?f)) with (Ok f). cbn match.
  rewrite outcome_bind.
  destruct (outcome (sort_files_by_year w (files self) (pystr "name")));
    reflexivity.
Qed.

Lemma args_post_init_outcome (x : FindFilesArgs) :
  is_sort_mode (sort_by x) = true ->
  exists ff,
    outcome (FindFilesArgs_post_init x)
    = Ok (mkArgs (DPath (Path_of_dir (dir x))) (prefix x) (suffix_arg x) ff
                 (recursive x)
                 (ensure_list (include_patterns x))
                 (ensure_list (exclude_patterns x))
                 (min_size_bytes x) (max_files x) (sort_by x) (reverse x)).
Proof.
  intros Hm. unfold FindFilesArgs_post_init. rewrite Hm. cbn [negb].
  eexists. reflexivity.
Qed.
End ResultFacts.

Section FindFilesResults.
Variable fnmatch : str -> str -> bool.
Variable w : World.

(** What a successful call has checked and what its result holds. *)
Lemma find_files_Ok (a : FindFilesArgs) (r : FindFilesResult) :
  outcome (find_files fnmatch w a) = Ok r ->
  fs_exists w (base_of a) = true
  /\ fs_is_dir w (base_of a) = true
  /\ is_sort_mode (sort_by a) = true
  /\ vectorsage_data_importable w = true
  /\ searched_dir r = base_of a
  /\ files r = final_files fnmatch w a
  /\ total_matched r = length (files r)
  /\ include_patterns (args r) = ensure_list (include_patterns a)
  /\ exclude_patterns (args r) = ensure_list (exclude_patterns a)
  /\ exists g, db_file_paths r = Some g
               /\ outcome (sort_files_by_year w (files r) (pystr "name")) = Ok g.
Proof.
  rewrite find_files_outcome.
  destruct (fs_exists w (base_of a)); cbn [negb]; [|discriminate].
  destruct (fs_is_dir w (base_of a)); cbn [negb]; [|discriminate].
  destruct (is_sort_mode (sort_by a)) eqn:Hm; cbn [negb]; [|discriminate].
  rewrite outcome_bind.
  destruct (args_post_init_outcome
              (mkArgs (DPath (base_of a)) (prefix a) (suffix_arg a)
                      (file_format a) (recursive a)
                      (include_patterns a) (exclude_patterns a)
                      (min_size_bytes a) (max_files a)
                      (sort_by a) (reverse a)) Hm) as [ff ->].
  rewrite result_post_init_outcome.
  destruct (vectorsage_data_importable w); [|discriminate].
  cbn [files].
  destruct (outcome (sort_files_by_year w (final_files fnmatch w a) (pystr "name")))
    as [g|e] eqn:Hg; [|discriminate].
  intros [= <-]. cbn.
  repeat split; try reflexivity.
  exists g. split; [reflexivity|exact Hg].
Qed.

(** A call succeeds as soon as the root is a directory, the mode is
    valid and the grouping utility can be imported. *)
Lemma find_files_succeeds (a : FindFilesArgs) :
  fs_exists w (base_of a) = true ->
  fs_is_dir w (base_of a) = true ->
  is_sort_mode (sort_by a) = true ->
  vectorsage_data_importable w = true ->
  exists r, outcome (find_files fnmatch w a) = Ok r.
Proof.
  intros He Hd Hm Hv. rewrite find_files_outcome, He, Hd, Hm. cbn [negb].
  rewrite outcome_bind.
  destruct (args_post_init_outcome
              (mkArgs (DPath (base_of a)) (prefix a) (suffix_arg a)
                      (file_format a) (recursive a)
                      (include_patterns a) (exclude_patterns a)
                      (min_size_bytes a) (max_files a)
                      (sort_by a) (reverse a)) Hm) as [ff ->].
  rewrite result_post_init_outcome, Hv. cbn [files].
  destruct (sort_files_by_year_total w (final_files fnmatch w a) (pystr "name")
              eq_refl) as [g ->].
  eexists. reflexivity.
Qed.
End FindFilesResults.

(** ** The discovery engine: results, order and errors *)

(** C1.  Every successful call of [find_files] returns a result whose
    year grouping is there already (computed while the result was
    constructed), and it is the grouping of the result's own, final file
    list under sort mode ["name"]: what [sort_files_by_year] gives on
    [files]. *)
Theorem C1_grouping_computed_at_construction
        (fnmatch : str -> str -> bool) (w : World)
        (a : FindFilesArgs) (r : FindFilesResult) :
  outcome (find_files fnmatch w a) = Ok r ->
  files r = final_files fnmatch w a
  /\ exists g,
      db_file_paths r = Some g
      /\ outcome (sort_files_by_year w (files r) (pystr "name")) = Ok g.
Proof.
  intros H. apply find_files_Ok in H.
  destruct H as (_ & _ & _ & _ & _ & Hf & _ & _ & _ & Hg).
  split; assumption.
Qed.

Lemma C1_witness :
  exists r,
    outcome (find_files fnmatch_plain w_pubmed (default_args pubmed_dir)) = Ok r
    /\ files r = final_files fnmatch_plain w_pubmed (default_args pubmed_dir)
    /\ exists g,
        db_file_paths r = Some g
        /\ outcome (sort_files_by_year w_pubmed (files r) (pystr "name")) = Ok g.
Proof.
  eexists. split; [vm_compute; reflexivity|].
  apply (C1_grouping_computed_at_construction fnmatch_plain w_pubmed
           (default_args pubmed_dir)).
  vm_compute; reflexivity.
Defined.

Example pubmed_grouping :
  exists r,
    outcome (find_files fnmatch_plain w_pubmed (default_args pubmed_dir)) = Ok r
    /\ files r = [notes_txt; pubmed_2021; pubmed_1998; report_2021]
    /\ db_file_paths r
       = Some [(1998, [pubmed_1998]); (2021, [pubmed_2021; report_2021])].
Proof. eexists. split; [vm_compute; reflexivity|]. split; reflexivity. Qed.

(** C2, as the code has it.  With the key of mode ["mtime"] or ["size"],
    a path whose metadata cannot be read gets the key [float("inf")]; in
    the sorted list the unreadable paths stand together, in their
    original order: at the end when [reverse] is false, and at the front
    when [reverse] is true. *)
Theorem C2_unreadable_entries_by_direction
        (w : World) (sort_by : str) (reverse : bool) (l : list Path) :
  sort_by = pystr "mtime" \/ sort_by = pystr "size" ->
  (forall p, unreadable w p = true ->
             outcome (_build_sort_key w sort_by p) = Ok KInf)
  /\ exists rd,
      Permutation rd (filter (readable w) l)
      /\ outcome (list_sort (_build_sort_key w sort_by) reverse l)
         = Ok (if reverse then filter (unreadable w) l ++ rd
               else rd ++ filter (unreadable w) l)
      /\ unreadable_last w (rd ++ filter (unreadable w) l) = true.
Proof.
  intros Hmode.
  assert (Hlast : forall rd, Permutation rd (filter (readable w) l) ->
            unreadable_last w (rd ++ filter (unreadable w) l) = true).
  { intros rd Hp. apply unreadable_last_app.
    - intros x Hx. eapply Permutation_in in Hx; [|exact Hp].
      apply filter_In in Hx as [_ Hx]. unfold readable in Hx.
      now destruct (unreadable w x).
    - intros x Hx. now apply filter_In in Hx. }
  split.
  - intros p Hp. rewrite outcome_build_sort_key, key_value_by_stat by exact Hmode.
    unfold unreadable in Hp. destruct (fs_stat w p); [discriminate|reflexivity].
  - rewrite outcome_list_sort. unfold sort_keyed. destruct reverse.
    + exists (rev (map snd (stable_sort key_lt
                              (map (fun p => (key_value w sort_by p, p))
                                   (filter (readable w) (rev l)))))).
      split.
      * rewrite <- Permutation_rev, sorted_readable_perm.
        rewrite filter_rev. symmetry. apply Permutation_rev.
      * split; [|apply Hlast].
        -- rewrite <- (map_rev (fun p => (key_value w sort_by p, p)) l).
           rewrite (map_rev snd).
           rewrite (sort_unreadable_split w sort_by (rev l) Hmode).
           rewrite rev_app_distr, (filter_rev (unreadable w) l), rev_involutive.
           reflexivity.
        -- rewrite <- Permutation_rev, sorted_readable_perm.
           rewrite filter_rev. symmetry. apply Permutation_rev.
    + eexists. split; [apply sorted_readable_perm|].
      split; [|apply Hlast, sorted_readable_perm].
      now rewrite (sort_unreadable_split w sort_by l Hmode).
Qed.

Lemma C2_witness :
  (pystr "size" = pystr "mtime" \/ pystr "size" = pystr "size")
  /\ exists rd,
      Permutation rd (filter (readable w_unreadable) [a_txt; b_txt; c_csv])
      /\ outcome (list_sort (_build_sort_key w_unreadable (pystr "size")) true
                            [a_txt; b_txt; c_csv])
         = Ok (filter (unreadable w_unreadable) [a_txt; b_txt; c_csv] ++ rd)
      /\ unreadable_last w_unreadable
           (rd ++ filter (unreadable w_unreadable) [a_txt; b_txt; c_csv])
         = true.
Proof.
  split; [right; reflexivity|].
  apply (C2_unreadable_entries_by_direction w_unreadable (pystr "size") true
           [a_txt; b_txt; c_csv]).
  right; reflexivity.
Defined.

(** C2 as stated fails for [reverse=True]: sorting [a.txt], [b.txt],
    [c.csv] by size in reverse, with the metadata of [b.txt] unreadable,
    puts [b.txt] first, not last. *)
Lemma C2_counterexample :
  unreadable w_unreadable b_txt = true
  /\ outcome (list_sort (_build_sort_key w_unreadable (pystr "size")) true
                        [a_txt; b_txt; c_csv])
     = Ok [b_txt; c_csv; a_txt]
  /\ unreadable_last w_unreadable [b_txt; c_csv; a_txt] = false.
Proof. repeat split; vm_compute; reflexivity. Qed.

(** The steps of a call that reaches the validation of [sort_by] with an
    invalid mode: the root is checked and enumerated and the candidates
    are filtered and resolved; the validation then raises. *)
Lemma find_files_steps_invalid
      (fnmatch : str -> str -> bool) (w : World) (a : FindFilesArgs) :
  fs_exists w (base_of a) = true ->
  fs_is_dir w (base_of a) = true ->
  is_sort_mode (sort_by a) = false ->
  steps (find_files fnmatch w a)
  = [EvExists (base_of a); EvIsDir (base_of a);
     EvGlob (base_of a) (glob_pattern a)]
    ++ steps (filterM (path_is_file w)
                      (fs_glob w (base_of a) (glob_pattern a)))
    ++ steps (filter_mapM (fun p => _file_passes fnmatch w p a)
                          (path_resolve w) (candidates_of w a)).
Proof.
  intros He Hd Hm.
  unfold find_files. fold (base_of a). fold (glob_pattern a).
  rewrite steps_bind.
  change (outcome (path_exists w (base_of a))) with (Ok (fs_exists w (base_of a))).
  change (steps (path_exists w (base_of a))) with [EvExists (base_of a)].
  rewrite He. cbn [negb]. cbn match.
  rewrite steps_bind.
  change (outcome (path_is_dir w (base_of a))) with (Ok (fs_is_dir w (base_of a))).
  change (steps (path_is_dir w (base_of a))) with [EvIsDir (base_of a)].
  rewrite Hd. cbn [negb]. cbn match.
  rewrite steps_bind.
  change (outcome (path_glob w (base_of a) (glob_pattern a)))
    with (Ok (fs_glob w (base_of a) (glob_pattern a))).
  change (steps (path_glob w (base_of a) (glob_pattern a)))
    with [EvGlob (base_of a) (glob_pattern a)].
  cbn match.
  rewrite steps_bind, outcome_candidates.
  rewrite steps_bind, outcome_filtered.
  rewrite steps_bind. unfold _validate_sort_by. rewrite Hm. cbn [negb].
  change (steps (raise ValueError)) with (@nil Event).
  change (outcome (@raise unit ValueError)) with (@Raise unit ValueError).
  cbn match. cbn [app]. now rewrite !app_nil_r.
Qed.

(** C3, as the code has it.  A call with an invalid [sort_by] returns no
    result.  The root is checked first: a missing root raises
    [FileNotFoundError] and a root that is not a directory raises
    [NotADirectoryError].  Otherwise [ValueError] is raised, and by then
    the root has been enumerated and the candidates filtered. *)
Theorem C3_invalid_sort_by_raises_after_enumeration
        (fnmatch : str -> str -> bool) (w : World) (a : FindFilesArgs) :
  is_sort_mode (sort_by a) = false ->
  outcome (find_files fnmatch w a)
  = (if negb (fs_exists w (base_of a)) then Raise FileNotFoundError
     else if negb (fs_is_dir w (base_of a)) then Raise NotADirectoryError
     else Raise ValueError)
  /\ (fs_exists w (base_of a) = true -> fs_is_dir w (base_of a) = true ->
      steps (find_files fnmatch w a)
      = [EvExists (base_of a); EvIsDir (base_of a);
         EvGlob (base_of a) (glob_pattern a)]
        ++ steps (filterM (path_is_file w)
                          (fs_glob w (base_of a) (glob_pattern a)))
        ++ steps (filter_mapM (fun p => _file_passes fnmatch w p a)
                              (path_resolve w) (candidates_of w a))).
Proof.
  intros Hm. split.
  - rewrite find_files_outcome, Hm. reflexivity.
  - intros He Hd. now apply find_files_steps_invalid.
Qed.

Lemma C3_witness :
  is_sort_mode (sort_by (with_sort_by (default_args data_dir) (pystr "bogus")))
  = false
  /\ outcome (find_files fnmatch_plain w_data
                (with_sort_by (default_args data_dir) (pystr "bogus")))
     = Raise ValueError.
Proof.
  split; [reflexivity|].
  exact (proj1 (C3_invalid_sort_by_raises_after_enumeration fnmatch_plain w_data
                  (with_sort_by (default_args data_dir) (pystr "bogus"))
                  eq_refl)).
Defined.

(** C3 as stated fails: with an existing root and [sort_by="bogus"] the
    [ValueError] comes after the enumeration of the root, and with a
    missing root it does not come at all. *)
Lemma C3_counterexample :
  (outcome (find_files fnmatch_plain w_data
              (with_sort_by (default_args data_dir) (pystr "bogus")))
   = Raise ValueError
   /\ existsb is_enumeration
        (steps (find_files fnmatch_plain w_data
                  (with_sort_by (default_args data_dir) (pystr "bogus"))))
      = true)
  /\ outcome (find_files fnmatch_plain w_data
                (with_sort_by (default_args stored_csv) (pystr "bogus")))
     = Raise FileNotFoundError.
Proof. repeat split; vm_compute; reflexivity. Qed.

(** ** Filtering and the canonical paths *)

Lemma sort_keyed_perm {K V} (lt : K -> K -> bool) (reverse : bool)
      (l : list (K * V)) :
  Permutation (sort_keyed lt reverse l) (map snd l).
Proof.
  unfold sort_keyed. apply Permutation_map. destruct reverse.
  - rewrite <- Permutation_rev, stable_sort_perm. symmetry.
    apply Permutation_rev.
  - apply stable_sort_perm.
Qed.

Lemma truncate_incl (m : option Z) (l : list Path) (f : Path) :
  In f (truncate m l) -> In f l.
Proof.
  unfold truncate. destruct m as [m|]; [|tauto].
  destruct (0 <=? m); [|tauto].
  rewrite <- (firstn_skipn (Z.to_nat m) l) at 2.
  intros H. apply in_or_app. now left.
Qed.

(** Every file of the final list is the canonical path of a candidate
    that passes. *)
Lemma final_files_origin (fnmatch : str -> str -> bool) (w : World)
      (a : FindFilesArgs) (f : Path) :
  In f (final_files fnmatch w a) ->
  exists p, In p (candidates_of w a)
            /\ passes fnmatch w a p = true
            /\ f = fs_resolve w p.
Proof.
  unfold final_files. intros H. apply truncate_incl in H.
  eapply Permutation_in in H; [|apply sort_keyed_perm].
  rewrite map_snd_keyed in H.
  apply in_map_iff in H as (p & <- & Hp).
  apply filter_In in Hp as [Hc Hp].
  exists p. repeat split; assumption.
Qed.

(** The predicates read a path through its name and its metadata only. *)
Lemma passes_same_name_stat (fnmatch : str -> str -> bool) (w : World)
      (a : FindFilesArgs) (p q : Path) :
  name q = name p -> fs_stat w q = fs_stat w p ->
  passes fnmatch w a q = passes fnmatch w a p.
Proof.
  intros Hn Hs.
  unfold passes, _ext_ok, _prefix_suffix_ok, size_ok_value, suffix, stem.
  now rewrite Hn, Hs.
Qed.

Lemma filter_all {A} (f : A -> bool) (l : list A) :
  (forall x, In x l -> f x = true) -> filter f l = l.
Proof.
  induction l as [|x l IH]; cbn; intros H; [reflexivity|].
  rewrite (H x) by now left. f_equal. apply IH. intros y Hy. apply H. now right.
Qed.

(** C7, as the code has it.  Every file of a successful result is the
    canonical path ([resolve]) of a regular file of the enumeration that
    satisfies every filter predicate.  When resolving keeps the name and
    the metadata of the matched files that are returned (none of them is
    a symbolic link to a file of another name; the files that did not
    match, or were cut off, do not matter), every file of the result
    satisfies the predicates itself, and filtering the result's list
    again with the same arguments gives the same list. *)
Theorem C7_result_files_come_from_passing_candidates
        (fnmatch : str -> str -> bool) (w : World)
        (a : FindFilesArgs) (r : FindFilesResult) :
  outcome (find_files fnmatch w a) = Ok r ->
  (forall f, In f (files r) ->
     exists p, In p (fs_glob w (base_of a) (glob_pattern a))
               /\ fs_is_file w p = true
               /\ outcome (_file_passes fnmatch w p a) = Ok true
               /\ f = fs_resolve w p)
  /\ ((forall p, In p (fs_glob w (base_of a) (glob_pattern a)) ->
         fs_is_file w p = true ->
         outcome (_file_passes fnmatch w p a) = Ok true ->
         In (fs_resolve w p) (files r) ->
         name (fs_resolve w p) = name p
         /\ fs_stat w (fs_resolve w p) = fs_stat w p) ->
      (forall f, In f (files r) ->
         outcome (_file_passes fnmatch w f a) = Ok true)
      /\ outcome (filterM (fun p => _file_passes fnmatch w p a) (files r))
         = Ok (files r)).
Proof.
  intros H. apply find_files_Ok in H.
  destruct H as (_ & _ & _ & _ & _ & Hf & _). rewrite Hf.
  split.
  - intros f Hin. apply final_files_origin in Hin as (p & Hc & Hp & ->).
    apply filter_In in Hc as [Hg Hfile].
    exists p. rewrite outcome_file_passes, Hp. repeat split; assumption.
  - intros Hres.
    assert (Hall : forall f, In f (final_files fnmatch w a) ->
                             passes fnmatch w a f = true).
    { intros f Hin.
      destruct (final_files_origin _ _ _ _ Hin) as (p & Hc & Hp & ->).
      apply filter_In in Hc as [Hg Hfile].
      destruct (Hres p Hg Hfile) as [Hn Hs].
      - now rewrite outcome_file_passes, Hp.
      - exact Hin.
      - now rewrite (passes_same_name_stat fnmatch w a p _ Hn Hs). }
    split.
    + intros f Hin. rewrite outcome_file_passes. f_equal. now apply Hall.
    + rewrite (outcome_filterM _ (passes fnmatch w a)).
      * f_equal. now apply filter_all.
      * intros p. apply outcome_file_passes.
Qed.

Lemma C7_witness :
  exists r,
    outcome (find_files fnmatch_plain w_link_aside (txt_100_args data_dir))
    = Ok r
    /\ files r = [b_txt]
    /\ name (fs_resolve w_link_aside c_csv) <> name c_csv
    /\ (forall f, In f (files r) ->
          outcome (_file_passes fnmatch_plain w_link_aside f
                                (txt_100_args data_dir))
          = Ok true)
    /\ outcome (filterM (fun p => _file_passes fnmatch_plain w_link_aside p
                                               (txt_100_args data_dir))
                        (files r))
       = Ok (files r).
Proof.
  eexists. split; [vm_compute; reflexivity|]. split; [reflexivity|].
  split; [vm_compute; discriminate|].
  apply (proj2 (C7_result_files_come_from_passing_candidates
                  fnmatch_plain w_link_aside (txt_100_args data_dir) _
                  ltac:(vm_compute; reflexivity))).
  intros p Hg _ Hp _.
  change (In p [a_txt; b_txt; c_csv]) in Hg.
  destruct Hg as [<-|[<-|[<-|[]]]]; vm_compute in Hp; try discriminate Hp.
  split; reflexivity.
Defined.

(** C7 as stated fails when a matching file is a symbolic link: [a.txt]
    links to [/store/b.csv], the call for the extension ["txt"] returns
    the canonical path [/store/b.csv], which does not have that
    extension, and filtering the result again leaves nothing. *)
Lemma C7_counterexample :
  exists r,
    outcome (find_files fnmatch_plain w_link (txt_args data_dir)) = Ok r
    /\ files r = [stored_csv]
    /\ outcome (_file_passes fnmatch_plain w_link stored_csv
                             (txt_args data_dir))
       = Ok false
    /\ outcome (filterM (fun p => _file_passes fnmatch_plain w_link p
                                               (txt_args data_dir))
                        (files r))
       = Ok [].
Proof.
  eexists. split; [vm_compute; reflexivity|].
  repeat split; vm_compute; reflexivity.
Qed.

(** ** Single pattern values *)

Lemma patterns_ok_single_include (fnmatch : str -> str -> bool)
      (nm s : str) (ex : PyPatterns) :
  _patterns_ok fnmatch nm (PStr s) ex
  = _patterns_ok fnmatch nm (PList (map (fun c => [c]) s)) ex.
Proof. unfold _patterns_ok, truthy, iterate. now rewrite length_map. Qed.

Lemma patterns_ok_single_exclude (fnmatch : str -> str -> bool)
      (nm s : str) (inc : PyPatterns) :
  _patterns_ok fnmatch nm inc (PStr s)
  = _patterns_ok fnmatch nm inc (PList (map (fun c => [c]) s)).
Proof. unfold _patterns_ok, truthy, iterate. now rewrite length_map. Qed.

(** C9, as the code has it.  A pattern argument that is a single string
    is stored as the one-element list of that string in the arguments
    record the result carries.  The filters of the call itself read the
    argument as it was passed: a string is iterated, so its characters
    are the patterns. *)
Theorem C9_single_pattern_normalised_in_args_record
        (fnmatch : str -> str -> bool) (w : World)
        (a : FindFilesArgs) (r : FindFilesResult) :
  outcome (find_files fnmatch w a) = Ok r ->
  include_patterns (args r) = ensure_list (include_patterns a)
  /\ exclude_patterns (args r) = ensure_list (exclude_patterns a)
  /\ (forall s, include_patterns a = PStr s ->
        include_patterns (args r) = PList [s]
        /\ forall p, passes fnmatch w a p
                     = passes fnmatch w
                         (with_include a (PList (map (fun c => [c]) s))) p)
  /\ (forall s, exclude_patterns a = PStr s ->
        exclude_patterns (args r) = PList [s]
        /\ forall p, passes fnmatch w a p
                     = passes fnmatch w
                         (with_exclude a (PList (map (fun c => [c]) s))) p).
Proof.
  intros H. apply find_files_Ok in H.
  destruct H as (_ & _ & _ & _ & _ & _ & _ & Hi & He & _).
  repeat split; try assumption.
  - rewrite Hi, H. reflexivity.
  - intros p. unfold passes. cbn. rewrite H.
    now rewrite patterns_ok_single_include.
  - rewrite He, H. reflexivity.
  - intros p. unfold passes. cbn. rewrite H.
    now rewrite patterns_ok_single_exclude.
Qed.

Lemma C9_witness :
  exists r,
    outcome (find_files fnmatch_plain w_data
               (with_include (default_args data_dir) (PStr (pystr "*.txt"))))
    = Ok r
    /\ include_patterns (args r) = PList [pystr "*.txt"].
Proof.
  eexists. split; [vm_compute; reflexivity|].
  exact (proj1 (C9_single_pattern_normalised_in_args_record
                  fnmatch_plain w_data
                  (with_include (default_args data_dir) (PStr (pystr "*.txt")))
                  _ ltac:(vm_compute; reflexivity))).
Defined.

(** C9 as stated fails: over [a.txt], [b.txt] and [c.csv], the single
    string ["*.txt"] selects all three files (its first character, [*],
    matches every name), the one-element list only the two text files. *)
Lemma C9_counterexample :
  exists r1 r2,
    outcome (find_files fnmatch_plain w_data
               (with_include (default_args data_dir) (PStr (pystr "*.txt"))))
    = Ok r1
    /\ outcome (find_files fnmatch_plain w_data
                  (with_include (default_args data_dir)
                                (PList [pystr "*.txt"])))
       = Ok r2
    /\ files r1 = [a_txt; b_txt; c_csv]
    /\ files r2 = [a_txt; b_txt]
    /\ files r1 <> files r2.
Proof.
  eexists. eexists.
  split; [vm_compute; reflexivity|].
  split; [vm_compute; reflexivity|].
  repeat split. discriminate.
Qed.

(** ** The suffix predicate *)

(** C8, as the code has it.  The two checks of the suffix predicate never
    disagree: the name without its final extension is the stem, for
    every name, so the predicate is the stem check alone.  On
    [archive.tar.gz] both see [archive.tar]. *)
Theorem C8_suffix_checks_agree (p : Path) (suf : str) :
  stem_check p suf = base_no_ext_check p suf
  /\ (forall pre, _prefix_suffix_ok p pre (Some suf)
                  = match pre with
                    | Some x => startswith (name p) x && stem_check p suf
                    | None => stem_check p suf
                    end)
  /\ removesuffix (name archive_tar_gz) (suffix archive_tar_gz)
     = stem archive_tar_gz.
Proof.
  unfold stem_check, base_no_ext_check. rewrite base_no_ext_is_stem.
  repeat split.
  intros pre. unfold _prefix_suffix_ok. rewrite base_no_ext_is_stem.
  destruct pre as [x|]; [destruct (startswith (name p) x)|]; cbn;
    now rewrite ?orb_diag.
Qed.

(** C8 as stated fails: no file name and no suffix make the two checks
    differ. *)
Lemma C8_counterexample :
  ~ exists (p : Path) (suf : str), stem_check p suf <> base_no_ext_check p suf.
Proof.
  intros (p & suf & H). apply H.
  unfold stem_check, base_no_ext_check. now rewrite base_no_ext_is_stem.
Qed.

(** ** The year extractor: priority of the rules *)

(** C4, as the code has it.  [_extract_year_from_filename] is the
    extractor of the specification read token by token: rule 1
    ([pubmed_sorted_] and four digits), else rule 2 ([pubmed_] and four
    digits), else rule 3 (a [19xx] or [20xx]), each rule giving the number
    of its leftmost token in the name and only when it lies in
    1900..2099, a rule without such a number leaving the turn to the
    next, and none when no rule gives one.  A result is always in the
    range.  A name whose leftmost [pubmed_sorted_] token reads 1998
    resolves to 1998 whatever else it holds, as does
    [pubmed_sorted_1998_and_2020.xml]; [pubmed_sorted_1800_2005.txt]
    falls through to 2005.  The digits are the decimal digits of any
    script. *)
Theorem C4_extract_year_priority :
  (forall name, _extract_year_from_filename name = extractYear name)
  /\ (forall name y, _extract_year_from_filename name = Some y ->
                     1900 <= y <= 2099)
  /\ (forall name d,
        token_year (upystr "pubmed_sorted_") name = Some d ->
        int d = Some 1998 ->
        _extract_year_from_filename name = Some 1998)
  /\ _extract_year_from_filename (upystr "pubmed_sorted_1998_and_2020.xml")
     = Some 1998
  /\ _extract_year_from_filename (upystr "pubmed_sorted_1800_2005.txt")
     = Some 2005
  /\ _extract_year_from_filename (upystr "report_2021.csv") = Some 2021
  /\ _extract_year_from_filename (upystr "notes.txt") = None.
Proof.
  split; [exact extract_year_refines|].
  split.
  { intros name y. rewrite extract_year_refines. apply extractYear_range. }
  split.
  { intros name d H Hd. rewrite extract_year_refines. unfold extractYear.
    rewrite H. unfold valid_year. rewrite Hd. reflexivity. }
  repeat split; vm_compute; reflexivity.
Qed.

Lemma C4_witness :
  token_year (upystr "pubmed_sorted_") (upystr "2020_pubmed_sorted_1998.xml")
  = Some (upystr "1998")
  /\ _extract_year_from_filename (upystr "2020_pubmed_sorted_1998.xml")
     = Some 1998.
Proof.
  split; [reflexivity|].
  apply (proj1 (proj2 (proj2 C4_extract_year_priority))
               (upystr "2020_pubmed_sorted_1998.xml") (upystr "1998"));
    reflexivity.
Defined.

(** C4 as stated fails: only the leftmost token of a rule is read.  The
    name below holds a [pubmed_sorted_1998] token and a stray [2020], but
    its leftmost [pubmed_sorted_] token is the out-of-range
    [pubmed_sorted_1800]; rule 1 gives nothing, the later
    [pubmed_sorted_1998] is not looked at, and rule 3 finds [2020]. *)
Lemma C4_counterexample :
  (exists pre post,
      upystr "pubmed_sorted_1800_2020_pubmed_sorted_1998.xml"
      = pre ++ upystr "pubmed_sorted_1998" ++ post)
  /\ token_year (upystr "pubmed_sorted_")
                (upystr "pubmed_sorted_1800_2020_pubmed_sorted_1998.xml")
     = Some (upystr "1800")
  /\ _extract_year_from_filename
       (upystr "pubmed_sorted_1800_2020_pubmed_sorted_1998.xml")
     = Some 2020.
Proof.
  split; [|split; vm_compute; reflexivity].
  exists (upystr "pubmed_sorted_1800_2020_"), (upystr ".xml"). reflexivity.
Qed.

(** ** The decompression pipeline: single items *)

Import Unzip.
Local Open Scope unzip_scope.

Section UnzipItemFacts.
Variable gunzip : bytes -> bytes * bool.

(** What [unzip_file] does, case by case. *)
Lemma unzip_file_cases (src dst : str) (ow : bool) (w : Unzip.World) :
  unzip_file gunzip (src, dst, ow) w
  = if match nodes w (Path_of_str dst) with Some _ => true | None => false end
       && negb ow
    then (Ok None, add_log w (InfoSkipping (Path_of_str dst)))
    else
      match decompress_copy gunzip (Path_of_str src) (Path_of_str dst) w with
      | (Ok _, w1) => (Ok (Some (str_of_Path (Path_of_str dst))),
                       add_log w1 (InfoExtracted (Path_of_str dst)))
      | (Raise e, w1) => (Ok None, add_log w1 (ErrorExtracting src e))
      end.
Proof.
  unfold unzip_file, try_except_Exception, Unzip.bind, path_exists.
  destruct (match nodes w (Path_of_str dst) with Some _ => true | None => false end
            && negb ow); [reflexivity|].
  destruct (decompress_copy gunzip (Path_of_str src) (Path_of_str dst) w)
    as [[u|e] w1]; reflexivity.
Qed.

Lemma unzip_file_total (item : WorkItem) (w : Unzip.World) :
  exists res w', unzip_file gunzip item w = (Ok res, w').
Proof.
  destruct item as [[src dst] ow]. rewrite unzip_file_cases.
  destruct (_ && negb ow); [eauto|].
  destruct (decompress_copy gunzip _ _ w) as [[u|e] w1]; eauto.
Qed.


Lemma mapM_unzip_total (l : list WorkItem) (w : Unzip.World) :
  exists rs w', Unzip.mapM (unzip_file gunzip) l w = (Ok rs, w')
                /\ length rs = length l.
Proof.
  revert w. induction l as [|x l IH]; intros w.
  - exists [], w. split; reflexivity.
  - destruct (unzip_file_total x w) as (r & w1 & Hx).
    destruct (IH w1) as (rs & w2 & Hl & Hlen).
    exists (r :: rs), w2. split.
    + cbn [Unzip.mapM]. unfold Unzip.bind at 1. rewrite Hx.
      unfold Unzip.bind at 1. rewrite Hl. reflexivity.
    + cbn. now rewrite Hlen.
Qed.

End UnzipItemFacts.

Lemma forallb_tuple3_items (l : list WorkItem) :
  forallb is_tuple3 (map item_of l) = true.
Proof.
  induction l as [|[[s d] o] l IH]; [reflexivity|exact IH].
Qed.

Lemma as_tuples_items (l : list WorkItem) : as_tuples (map item_of l) = l.
Proof.
  induction l as [|[[s d] o] l IH]; [reflexivity|]. cbn. now rewrite IH.
Qed.

(** ** The decompression pipeline: batches *)

Section UnzipBatchFacts.
Variable gunzip : bytes -> bytes * bool.
Variable completion_order : list WorkItem -> list WorkItem.

(** A non-empty batch of triples is used as it is, every item is
    processed, and the call returns the parent of the first destination
    with the items that were written. *)
Lemma unzip_batch_of_triples (i0 : WorkItem) (rest : list WorkItem)
      (dd : option str) (ow : bool) (w : Unzip.World) :
  exists results w',
    Unzip.mapM (unzip_file gunzip) (completion_order (i0 :: rest)) w
    = (Ok results, w')
    /\ unzip_xml_gz_files gunzip completion_order
         (SrcList (map item_of (i0 :: rest))) dd ow w
       = (Ok (str_of_Path (parent (Path_of_str (item_dest i0))),
              filter_None results), w').
Proof.
  destruct (mapM_unzip_total gunzip (completion_order (i0 :: rest)) w)
    as (rs & w' & Hrs & _).
  exists rs, w'. split; [exact Hrs|].
  unfold unzip_xml_gz_files, build_file_paths.
  rewrite forallb_tuple3_items, as_tuples_items.
  destruct i0 as [[s d] o].
  unfold Unzip.bind, Unzip.ret, imap_unordered. rewrite Hrs. reflexivity.
Qed.
End UnzipBatchFacts.



(** The scenario of the specification: one sound archive and one missing
    source, in either completion order. *)
Example batch_with_missing_source :
  fst (unzip_xml_gz_files gunzip_magic (fun l => l)
         (SrcList [item_of good_item; item_of missing_item]) None false
         w_archive)
  = Ok (pystr "/out", [pystr "/out/a.xml"])
  /\ fst (unzip_xml_gz_files gunzip_magic (@rev WorkItem)
            (SrcList [item_of good_item; item_of missing_item]) None false
            w_archive)
     = Ok (pystr "/out", [pystr "/out/a.xml"]).
Proof. split; vm_compute; reflexivity. Qed.

(** C10.  On the empty list the call raises [IndexError], whatever the
    other arguments: the list counts as a list of triples, no work item
    results, and the first one is asked for.  Nothing is created and no
    item is processed; the outcome is neither a result nor the
    [ValueError] or [TypeError] of an invalid input. *)
Theorem C10_empty_list_raises_index_error
        (gunzip : bytes -> bytes * bool)
        (completion_order : list WorkItem -> list WorkItem)
        (destination_directory : option str) (overwrite : bool)
        (w : Unzip.World) :
  build_file_paths [] destination_directory overwrite w = (Ok [], w)
  /\ unzip_xml_gz_files gunzip completion_order (SrcList [])
       destination_directory overwrite w
     = (Raise IndexError, w).
Proof. split; reflexivity. Qed.

(** ** Creating the destination directory *)

Lemma parts_eqb_refl (l : list str) : parts_eqb l l = true.
Proof.
  induction l as [|x l IH]; cbn; [reflexivity|].
  now rewrite str_eqb_refl, IH.
Qed.

Lemma path_eqb_refl (p : Path) : path_eqb p p = true.
Proof.
  unfold path_eqb. rewrite parts_eqb_refl. now destruct (root p).
Qed.

Lemma mkdir_rec_eq (n : nat) (p : Path) (parents exist_ok : bool)
      (w : Unzip.World) :
  mkdir_rec n p parents exist_ok w
  = match os_mkdir p w with
    | (Raise e, w1) =>
        if exn_eqb e FileNotFoundError then
          if negb parents || path_eqb (parent p) p then (Raise e, w1)
          else
            match n with
            | O => (Raise e, w1)
            | S k =>
                (mkdir_rec k (parent p) true true ;;;
                 mkdir_rec k p false exist_ok) w1
            end
        else if is_OSError e then
          match path_is_dir p w1 with
          | (Ok true, w2) => if exist_ok then (Ok tt, w2) else (Raise e, w2)
          | (_, w2) => (Raise e, w2)
          end
        else (Raise e, w1)
    | ok => ok
    end.
Proof. destruct n; reflexivity. Qed.

(** The five ways [os.mkdir] ends. *)
Lemma os_mkdir_cases (p : Path) (w : Unzip.World) :
  (os_mkdir p w = (Ok tt, set_node w p Dir)
   /\ nodes w p = None /\ nodes w (parent p) = Some Dir
   /\ denied w (parent p) = false)
  \/ (os_mkdir p w = (Raise FileNotFoundError, w)
      /\ nodes w p = None /\ nodes w (parent p) = None)
  \/ (exists e, os_mkdir p w = (Raise e, w)
                /\ exn_eqb e FileNotFoundError = false
                /\ is_OSError e = true
                /\ (nodes w p = None \/ e = FileExistsError)).
Proof.
  unfold os_mkdir.
  destruct (nodes w p) as [n|] eqn:Np.
  - right. right. exists FileExistsError. auto.
  - destruct (nodes w (parent p)) as [[|d]|] eqn:Npp.
    + destruct (denied w (parent p)) eqn:Hd.
      * right. right. exists PermissionError. auto.
      * left. auto.
    + right. right. exists NotADirectoryError. auto.
    + right. left. auto.
Qed.

Lemma nodes_set_node_same (w : Unzip.World) (p : Path) (n : Node) :
  nodes (set_node w p n) p = Some n.
Proof. cbn. now rewrite path_eqb_refl. Qed.

(** A [mkdir] that returns leaves a directory at the path, and never
    touches the rest of the world's description. *)
Lemma mkdir_rec_Ok (n : nat) :
  forall (p : Path) (parents exist_ok : bool) (w w1 : Unzip.World),
    mkdir_rec n p parents exist_ok w = (Ok tt, w1) ->
    nodes w1 p = Some Dir.
Proof.
  induction n as [|k IH]; intros p parents exist_ok w w1;
    rewrite mkdir_rec_eq;
    destruct (os_mkdir_cases p w)
      as [(-> & _) | [(-> & _) | (e & -> & Hne & Hos & Hwhy)]].
  - intros [= <-]. apply nodes_set_node_same.
  - cbn [exn_eqb]. destruct (negb parents || path_eqb (parent p) p);
      discriminate.
  - rewrite Hne, Hos. unfold path_is_dir.
    destruct (nodes w p) as [[|d]|] eqn:Np; try discriminate.
    destruct exist_ok; [|discriminate]. now intros [= <-].
  - intros [= <-]. apply nodes_set_node_same.
  - cbn [exn_eqb]. destruct (negb parents || path_eqb (parent p) p);
      [discriminate|].
    unfold Unzip.bind at 1.
    destruct (mkdir_rec k (parent p) true true w) as [[u|e] w2];
      [|discriminate].
    destruct u. apply IH.
  - rewrite Hne, Hos. unfold path_is_dir.
    destruct (nodes w p) as [[|d]|] eqn:Np; try discriminate.
    destruct exist_ok; [|discriminate]. now intros [= <-].
Qed.

Lemma mkdir_rec_resolve (n : nat) :
  forall (p : Path) (parents exist_ok : bool) (w : Unzip.World),
    resolve (snd (mkdir_rec n p parents exist_ok w)) = resolve w.
Proof.
  induction n as [|k IH]; intros p parents exist_ok w;
    rewrite mkdir_rec_eq;
    destruct (os_mkdir_cases p w)
      as [(-> & _) | [(-> & _) | (e & -> & Hne & Hos & Hwhy)]];
    try reflexivity.
  - cbn [exn_eqb]. now destruct (negb parents || path_eqb (parent p) p).
  - rewrite Hne, Hos. unfold path_is_dir.
    destruct (nodes w p) as [[|d]|]; try reflexivity.
    now destruct exist_ok.
  - cbn [exn_eqb]. destruct (negb parents || path_eqb (parent p) p);
      [reflexivity|].
    unfold Unzip.bind at 1.
    pose proof (IH (parent p) true true w) as H1.
    destruct (mkdir_rec k (parent p) true true w) as [[u|e] w2]; cbn in H1.
    + rewrite IH. exact H1.
    + exact H1.
  - rewrite Hne, Hos. unfold path_is_dir.
    destruct (nodes w p) as [[|d]|]; try reflexivity.
    now destruct exist_ok.
Qed.

(** The bound of [path_mkdir] is never reached: any bound that is at
    least the number of components gives the same run. *)
Lemma mkdir_rec_no_parents (n m : nat) (p : Path) (exist_ok : bool)
      (w : Unzip.World) :
  mkdir_rec n p false exist_ok w = mkdir_rec m p false exist_ok w.
Proof.
  rewrite !mkdir_rec_eq. destruct (os_mkdir p w) as [[u|e] w1]; [reflexivity|].
  destruct (exn_eqb e FileNotFoundError); reflexivity.
Qed.

Lemma parent_of_rootlike (p : Path) :
  parts p = [] -> path_eqb (parent p) p = true.
Proof.
  intros H. unfold parent, path_eqb. rewrite H. cbn.
  now destruct (root p).
Qed.

Lemma mkdir_rec_fuel (n : nat) :
  forall (m : nat) (p : Path) (parents exist_ok : bool) (w : Unzip.World),
    (length (parts p) <= n)%nat -> (length (parts p) <= m)%nat ->
    mkdir_rec n p parents exist_ok w = mkdir_rec m p parents exist_ok w.
Proof.
  induction n as [|k IH]; intros m p parents exist_ok w Hn Hm;
    rewrite !mkdir_rec_eq;
    destruct (os_mkdir p w) as [[u|e] w1]; try reflexivity;
    destruct (exn_eqb e FileNotFoundError); try reflexivity.
  - assert (Hp : parts p = []) by (destruct (parts p); [reflexivity|cbn in Hn; lia]).
    rewrite (parent_of_rootlike p Hp), orb_true_r. reflexivity.
  - destruct (negb parents || path_eqb (parent p) p) eqn:Hstop; [reflexivity|].
    apply orb_false_iff in Hstop as [_ Hneq].
    assert (Hlen : (length (parts (parent p)) = length (parts p) - 1)%nat).
    { unfold parent. cbn. destruct (parts p) as [|x l] eqn:E using rev_ind.
      - reflexivity.
      - rewrite removelast_last, length_app. cbn. lia. }
    assert (Hpos : (0 < length (parts p))%nat).
    { destruct (parts p) eqn:E; [|cbn; lia].
      now rewrite (parent_of_rootlike p E) in Hneq. }
    destruct m as [|m']; [lia|].
    unfold Unzip.bind.
    rewrite (IH m' (parent p) true true w1) by lia.
    destruct (mkdir_rec m' (parent p) true true w1) as [[u|e'] w2];
      [|reflexivity].
    apply mkdir_rec_no_parents.
Qed.



(** ** The normalisation of a batch of bare paths *)

Lemma forallb_str_items (l : list str) : forallb is_str (map ItemStr l) = true.
Proof. induction l as [|x l IH]; [reflexivity|exact IH]. Qed.

Lemma as_strs_items (l : list str) : as_strs (map ItemStr l) = l.
Proof. induction l as [|x l IH]; [reflexivity|]. cbn. now rewrite IH. Qed.

Lemma mapM_derived (d : Path) (ow : bool) (l : list str) (w : Unzip.World) :
  Unzip.mapM
    (fun file =>
       src <- path_resolve (Path_of_str file) ;;
       Unzip.ret (str_of_Path src,
                  str_of_Path (joinpath d (stem (Path_of_str file))), ow))
    l w
  = (Ok (map (derived_item w d ow) l), w).
Proof.
  induction l as [|x l IH]; [reflexivity|].
  cbn [Unzip.mapM map]. unfold Unzip.bind at 1. cbn.
  unfold Unzip.bind at 1. rewrite IH. reflexivity.
Qed.







(* ================================================================= *)
(** * Further properties of the code *)

(** ** The order of a sorted list *)

Section SortedOutput.
Context {K V : Type}.
Variable lt : K -> K -> bool.
(** The keys that occur, on which [lt] is a strict order whose
    complement is transitive. *)
Variable dom : K -> Prop.
Hypothesis lt_asym : forall a b, dom a -> dom b -> lt a b = true -> lt b a = false.
Hypothesis ge_trans :
  forall a b c, dom a -> dom b -> dom c ->
                lt b a = false -> lt c b = false -> lt c a = false.

(** An entry may stand before another when the key of the other is not
    smaller. *)
Lemma insert_sorted (x : K * V) (l : list (K * V)) :
  dom (fst x) -> Forall (fun y => dom (fst y)) l ->
  StronglySorted (fun u v => lt (fst v) (fst u) = false) l ->
  StronglySorted (fun u v => lt (fst v) (fst u) = false) (insert lt x l).
Proof.
  intros Hx Hl Hs. induction Hs as [|y l Hs IH Hy]; cbn.
  - repeat constructor.
  - inversion Hl as [|? ? Hdy Hl']; subst.
    destruct (lt (fst y) (fst x)) eqn:E.
    + constructor; [now apply IH|].
      eapply Permutation_Forall; [symmetry; apply insert_perm|].
      constructor; [|exact Hy]. now apply lt_asym.
    + constructor; [now constructor|].
      constructor; [exact E|].
      rewrite Forall_forall in *. intros z Hz.
      apply (ge_trans (fst x) (fst y) (fst z)); auto.
Qed.

Lemma stable_sort_sorted (l : list (K * V)) :
  Forall (fun y => dom (fst y)) l ->
  StronglySorted (fun u v => lt (fst v) (fst u) = false) (stable_sort lt l).
Proof.
  induction l as [|x l IH]; intros H; cbn; [constructor|].
  inversion H; subst. apply insert_sorted; auto.
  eapply Permutation_Forall; [symmetry; apply stable_sort_perm|assumption].
Qed.
End SortedOutput.

Lemma StronglySorted_rev {A} (R : A -> A -> Prop) (l : list A) :
  StronglySorted R l -> StronglySorted (fun a b => R b a) (rev l).
Proof.
  induction 1 as [|x l Hs IH Hx]; cbn; [constructor|].
  assert (Happ : forall l1 l2,
             StronglySorted (fun a b => R b a) l1 ->
             StronglySorted (fun a b => R b a) l2 ->
             (forall a b, In a l1 -> In b l2 -> R b a) ->
             StronglySorted (fun a b => R b a) (l1 ++ l2)).
  { intros l1 l2 H1 H2 H12. induction H1 as [|a l1 H1 IH1 Ha]; cbn; [exact H2|].
    constructor.
    - apply IH1. intros; apply H12; [now right|assumption].
    - apply Forall_app. split; [exact Ha|].
      apply Forall_forall. intros b Hb. apply H12; [now left|assumption]. }
  apply Happ; [exact IH|repeat constructor|].
  intros a b Ha [<-|[]]. rewrite Forall_forall in Hx. apply Hx.
  now apply in_rev.
Qed.

Lemma StronglySorted_map {A B} (f : A -> B) (R : B -> B -> Prop) (l : list A) :
  StronglySorted (fun a b => R (f a) (f b)) l -> StronglySorted R (map f l).
Proof.
  induction 1 as [|x l Hs IH Hx]; cbn; constructor; [exact IH|].
  rewrite Forall_forall in *. intros y Hy.
  apply in_map_iff in Hy as (z & <- & Hz). now apply Hx.
Qed.

(** ** The order on keys *)

Lemma str_ltb_asym (a b : str) : str_ltb a b = true -> str_ltb b a = false.
Proof.
  revert b. induction a as [|x a IH]; intros [|y b]; cbn [str_ltb];
    try congruence.
  destruct (nat_of_ascii x <? nat_of_ascii y)%nat eqn:E1;
    destruct (nat_of_ascii y <? nat_of_ascii x)%nat eqn:E2;
    try congruence; try (now apply IH).
  apply Nat.ltb_lt in E1, E2. lia.
Qed.

Lemma str_geb_trans (a b c : str) :
  str_ltb b a = false -> str_ltb c b = false -> str_ltb c a = false.
Proof.
  revert b c. induction a as [|x a IH]; intros [|y b] [|z c]; cbn [str_ltb];
    try congruence.
  destruct (nat_of_ascii y <? nat_of_ascii x)%nat eqn:E1; [congruence|].
  destruct (nat_of_ascii x <? nat_of_ascii y)%nat eqn:E2;
    destruct (nat_of_ascii z <? nat_of_ascii y)%nat eqn:E3; try congruence;
    destruct (nat_of_ascii y <? nat_of_ascii z)%nat eqn:E4;
    destruct (nat_of_ascii z <? nat_of_ascii x)%nat eqn:E5;
    destruct (nat_of_ascii x <? nat_of_ascii z)%nat eqn:E6;
    try congruence;
    repeat match goal with
           | H : (_ <? _)%nat = true |- _ => apply Nat.ltb_lt in H
           | H : (_ <? _)%nat = false |- _ => apply Nat.ltb_ge in H
           end; try lia.
  intros. eapply IH; eassumption.
Qed.

Lemma Qltb_asym (x y : Q) : Qltb x y = true -> Qltb y x = false.
Proof.
  unfold Qltb. intros H. apply negb_true_iff in H. apply negb_false_iff.
  apply Qle_bool_iff.
  destruct (Qlt_le_dec y x) as [Hlt|Hle]; [|exact Hle].
  apply Qlt_le_weak. 
  destruct (Qle_bool y x) eqn:E; [discriminate|].
  destruct (Qlt_le_dec x y) as [H1|H1]; [exact H1|].
  apply Qle_bool_iff in H1. congruence.
Qed.

Lemma Qgeb_trans (x y z : Q) :
  Qltb y x = false -> Qltb z y = false -> Qltb z x = false.
Proof.
  unfold Qltb. rewrite !negb_false_iff, !Qle_bool_iff. apply Qle_trans.
Qed.


Import Vocabulary.

Lemma key_lt_asym_names (a b : Key) :
  name_key a -> name_key b -> key_lt a b = true -> key_lt b a = false.
Proof. intros [s ->] [t ->]. apply str_ltb_asym. Qed.

Lemma key_ge_trans_names (a b c : Key) :
  name_key a -> name_key b -> name_key c ->
  key_lt b a = false -> key_lt c b = false -> key_lt c a = false.
Proof. intros [s ->] [t ->] [u ->]. apply str_geb_trans. Qed.

Lemma key_lt_asym_numbers (a b : Key) :
  number_key a -> number_key b -> key_lt a b = true -> key_lt b a = false.
Proof.
  intros [-> | [x ->]] [-> | [y ->]]; cbn; try congruence. apply Qltb_asym.
Qed.

Lemma key_ge_trans_numbers (a b c : Key) :
  number_key a -> number_key b -> number_key c ->
  key_lt b a = false -> key_lt c b = false -> key_lt c a = false.
Proof.
  intros [-> | [x ->]] [-> | [y ->]] [-> | [z ->]]; cbn; try congruence.
  apply Qgeb_trans.
Qed.

Lemma key_value_class (w : Discovery.World) (sort_by : str) (p : Path) :
  if str_eqb sort_by (pystr "name") then name_key (key_value w sort_by p)
  else number_key (key_value w sort_by p).
Proof.
  unfold key_value. destruct (str_eqb sort_by (pystr "name")).
  - now eexists.
  - destruct (fs_stat w p); [|now left].
    destruct (str_eqb sort_by (pystr "mtime")); right; now eexists.
Qed.

Lemma StronglySorted_weaken {A} (R R' : A -> A -> Prop) (l : list A) :
  (forall a b, In a l -> In b l -> R a b -> R' a b) ->
  StronglySorted R l -> StronglySorted R' l.
Proof.
  intros H Hs. induction Hs as [|x l Hs IH Hx]; constructor.
  - apply IH. intros a b Ha Hb. apply H; now right.
  - rewrite Forall_forall in *. intros y Hy.
    apply H; [now left|now right|now apply Hx].
Qed.

(** The pairs of a keyed list stay pairs of a path with its own key. *)
Lemma stable_sort_keyed_sorted (w : Discovery.World) (sort_by : str)
      (l : list Path) :
  StronglySorted
    (fun u v => key_lt (key_value w sort_by (snd v))
                       (key_value w sort_by (snd u)) = false)
    (stable_sort key_lt (map (fun p => (key_value w sort_by p, p)) l)).
Proof.
  set (L := map (fun p => (key_value w sort_by p, p)) l).
  assert (Hpair : forall x, In x (stable_sort key_lt L) ->
                            fst x = key_value w sort_by (snd x)).
  { intros x Hx. eapply Permutation_in in Hx; [|apply stable_sort_perm].
    apply in_map_iff in Hx as (p & <- & _). reflexivity. }
  apply (StronglySorted_weaken
           (fun u v : Key * Path => key_lt (fst v) (fst u) = false)).
  { intros a b Ha Hb. now rewrite (Hpair a Ha), (Hpair b Hb). }
  pose proof (key_value_class w sort_by) as Hc.
  destruct (str_eqb sort_by (pystr "name")).
  - apply (stable_sort_sorted key_lt name_key key_lt_asym_names
             key_ge_trans_names).
    apply Forall_forall. intros x Hx.
    apply in_map_iff in Hx as (p & <- & _). apply Hc.
  - apply (stable_sort_sorted key_lt number_key key_lt_asym_numbers
             key_ge_trans_numbers).
    apply Forall_forall. intros x Hx.
    apply in_map_iff in Hx as (p & <- & _). apply Hc.
Qed.

(** X1.  [l.sort(key=_build_sort_key(sort_by), reverse=reverse)] returns
    a rearrangement of the list that is ordered by the key: without
    [reverse] no entry has a smaller key than an entry before it, with
    [reverse] none has a greater one.  Every mode other than ["name"]
    and ["mtime"] sorts by size. *)
Theorem X1_list_sort_orders_by_key
        (w : Discovery.World) (sort_by : str) (reverse : bool) (l : list Path) :
  (forall p, outcome (_build_sort_key w sort_by p)
             = Ok (key_value w sort_by p))
  /\ exists out,
      outcome (list_sort (_build_sort_key w sort_by) reverse l) = Ok out
      /\ Permutation out l
      /\ StronglySorted
           (fun p q =>
              (if reverse
               then key_lt (key_value w sort_by p) (key_value w sort_by q)
               else key_lt (key_value w sort_by q) (key_value w sort_by p))
              = false)
           out.
Proof.
  split; [apply outcome_build_sort_key|].
  rewrite outcome_list_sort. eexists. split; [reflexivity|]. split.
  - rewrite sort_keyed_perm. now rewrite map_snd_keyed.
  - unfold sort_keyed. destruct reverse.
    + apply StronglySorted_map.
      rewrite <- (map_rev (fun p => (key_value w sort_by p, p)) l).
      apply (StronglySorted_rev
               (fun u v : Key * Path =>
                  key_lt (key_value w sort_by (snd v))
                         (key_value w sort_by (snd u)) = false)).
      apply stable_sort_keyed_sorted.
    + apply StronglySorted_map. apply stable_sort_keyed_sorted.
Qed.

(** ** Stability *)

(** Inserting an entry does not move it past an entry of its class, when
    no entry of the class is smaller than another. *)
Lemma insert_keeps_class {K V} (lt : K -> K -> bool) (f : K * V -> bool)
      (x : K * V) (l : list (K * V)) :
  (forall y, In y l -> f y = true -> f x = true -> lt (fst y) (fst x) = false) ->
  filter f (insert lt x l) = filter f (x :: l).
Proof.
  induction l as [|y l IH]; intros H; [reflexivity|].
  cbn [insert]. destruct (lt (fst y) (fst x)) eqn:E; [|reflexivity].
  cbn [filter]. rewrite IH by (intros z Hz; apply H; now right).
  cbn [filter].
  destruct (f y) eqn:Fy; destruct (f x) eqn:Fx; try reflexivity.
  rewrite (H y (or_introl eq_refl) Fy eq_refl) in E. discriminate.
Qed.

Lemma stable_sort_keeps_class {K V} (lt : K -> K -> bool) (f : K * V -> bool)
      (l : list (K * V)) :
  (forall x y, In x l -> In y l -> f y = true -> f x = true ->
               lt (fst y) (fst x) = false) ->
  filter f (stable_sort lt l) = filter f l.
Proof.
  induction l as [|x l IH]; intros H; [reflexivity|].
  cbn [stable_sort fold_right].
  change (fold_right (insert lt) [] l) with (stable_sort lt l).
  rewrite insert_keeps_class.
  - cbn [filter]. rewrite IH; [reflexivity|].
    intros a b Ha Hb. apply H; now right.
  - intros y Hy. eapply Permutation_in in Hy; [|apply stable_sort_perm].
    apply H; [now left|now right].
Qed.

Lemma key_same_not_lt (w : Discovery.World) (sort_by : str) (p0 p q : Path) :
  same_key_as w sort_by p0 p = true -> same_key_as w sort_by p0 q = true ->
  key_lt (key_value w sort_by p) (key_value w sort_by q) = false.
Proof.
  unfold same_key_as, key_same. intros Hp Hq.
  apply andb_true_iff in Hp as [Hp1 Hp2]. apply andb_true_iff in Hq as [Hq1 Hq2].
  apply negb_true_iff in Hp1, Hp2, Hq1, Hq2.
  pose proof (key_value_class w sort_by) as Hc.
  destruct (str_eqb sort_by (pystr "name")).
  - apply (key_ge_trans_names _ (key_value w sort_by p0) _); auto.
  - apply (key_ge_trans_numbers _ (key_value w sort_by p0) _); auto.
Qed.

(** X2.  The sort is stable in both directions: the entries whose key
    equals the key of a given path come out in the order they went in,
    with [reverse] as without. *)
Theorem X2_list_sort_is_stable
        (w : Discovery.World) (sort_by : str) (reverse : bool)
        (l : list Path) (p0 : Path) :
  exists out,
    outcome (list_sort (_build_sort_key w sort_by) reverse l) = Ok out
    /\ filter (same_key_as w sort_by p0) out
       = filter (same_key_as w sort_by p0) l.
Proof.
  rewrite outcome_list_sort. eexists. split; [reflexivity|].
  set (kp := fun p => (key_value w sort_by p, p)).
  set (f := fun x : Key * Path => same_key_as w sort_by p0 (snd x)).
  assert (Hmap : forall L : list (Key * Path),
             filter (same_key_as w sort_by p0) (map snd L)
             = map snd (filter f L)).
  { intros L. induction L as [|x L IH]; cbn [map filter]; [reflexivity|].
    rewrite IH. subst f. cbn beta.
    destruct (same_key_as w sort_by p0 (snd x)); reflexivity. }
  assert (Hclass : forall l', filter f (stable_sort key_lt (map kp l'))
                              = filter f (map kp l')).
  { intros l'. apply stable_sort_keeps_class.
    intros x y Hx Hy Fy Fx.
    apply in_map_iff in Hx as (p & <- & _).
    apply in_map_iff in Hy as (q & <- & _).
    unfold f in Fx, Fy. cbn in *.
    now apply (key_same_not_lt w sort_by p0). }
  unfold sort_keyed. rewrite Hmap.
  transitivity (map snd (filter f (map kp l))).
  - f_equal. destruct reverse.
    + rewrite filter_rev, <- (map_rev kp l), Hclass, (map_rev kp l).
      now rewrite <- filter_rev, rev_involutive.
    + apply Hclass.
  - rewrite <- Hmap. unfold kp. now rewrite map_snd_keyed.
Qed.

(** ** When the extractor finds a year *)

Lemma digit_char (c : N) (v : Z) :
  ascii_digit c = true -> digit_value c = v -> c = Z.to_N (v + 48).
Proof.
  unfold ascii_digit, digit_value, decimal, decimal_zeros. intros Ha.
  cbn [decimal_among].
  apply andb_true_iff in Ha as [H1 H2].
  assert (Hin : ((48 <=? c) && (c <? 48 + 10))%N = true).
  { apply N.leb_le in H1, H2. apply andb_true_iff.
    split; [apply N.leb_le | apply N.ltb_lt]; lia. }
  rewrite Hin. apply N.leb_le in H1, H2. lia.
Qed.

(** Four digits of [0-9] that read as a year of the range start with
    [19] or [20]. *)
Lemma valid_digits_are_bare (d1 d2 d3 d4 : N) (t : ustr) (y : Z) :
  is_digit d1 = true -> is_digit d2 = true ->
  is_digit d3 = true -> is_digit d4 = true ->
  ascii_digit d1 = true -> ascii_digit d2 = true ->
  valid_year (Some [d1; d2; d3; d4]) = Some y ->
  bare4_here (d1 :: d2 :: d3 :: d4 :: t) = Some [d1; d2; d3; d4].
Proof.
  intros H1 H2 H3 H4 A1 A2. unfold valid_year.
  rewrite int_four_digits by assumption.
  unfold year_in_range.
  destruct (_ && _) eqn:E; [|discriminate]. intros _.
  apply andb_true_iff in E as [Ea Eb]. apply Z.leb_le in Ea, Eb.
  pose proof (is_digit_value _ H1). pose proof (is_digit_value _ H2).
  pose proof (is_digit_value _ H3). pose proof (is_digit_value _ H4).
  assert (Hcase : (digit_value d1 = 1 /\ digit_value d2 = 9)
                  \/ (digit_value d1 = 2 /\ digit_value d2 = 0)) by lia.
  unfold bare4_here. rewrite H3, H4.
  destruct Hcase as [[Ha Hb]|[Ha Hb]].
  - rewrite (digit_char d1 1 A1 Ha), (digit_char d2 9 A2 Hb). reflexivity.
  - rewrite (digit_char d1 2 A1 Ha), (digit_char d2 0 A2 Hb). reflexivity.
Qed.

Lemma token_year_position (lit name d : ustr) :
  token_year lit name = Some d ->
  exists k, digits4_after lit (skipn k name) = Some d.
Proof.
  induction name as [|c name IH]; cbn [token_year].
  - destruct (digits4_after lit []) eqn:E; [|discriminate].
    intros [= <-]. now exists O.
  - destruct (digits4_after lit (c :: name)) eqn:E.
    + intros [= <-]. now exists O.
    + intros H. destruct (IH H) as [k Hk]. now exists (S k).
Qed.

Lemma bare_year_from_position (name : ustr) (k : nat) (d : ustr) :
  bare4_here (skipn k name) = Some d -> bare_year name <> None.
Proof.
  revert k. induction name as [|c name IH]; intros k H.
  - rewrite skipn_nil in H. discriminate.
  - cbn [bare_year]. destruct (bare4_here (c :: name)) eqn:E; [discriminate|].
    destruct k as [|k]; [rewrite skipn_O in H; congruence|].
    now apply (IH k).
Qed.

Lemma bare_year_position (name d : ustr) :
  bare_year name = Some d -> exists k, bare4_here (skipn k name) = Some d.
Proof.
  induction name as [|c name IH]; cbn [bare_year].
  - discriminate.
  - destruct (bare4_here (c :: name)) eqn:E.
    + intros [= <-]. now exists O.
    + intros H. destruct (IH H) as [k Hk]. now exists (S k).
Qed.

Lemma forallb_skipn {A} (f : A -> bool) (k : nat) (l : list A) :
  forallb f l = true -> forallb f (skipn k l) = true.
Proof.
  revert l. induction k as [|k IH]; intros l H; [exact H|].
  destruct l as [|x l]; [exact H|]. cbn in H |- *.
  apply andb_true_iff in H as [_ H]. now apply IH.
Qed.

(** In a name whose digits are all of [0-9], a valid token year is also
    a bare year of the name. *)
Lemma valid_token_gives_bare (lit name : ustr) (y : Z) :
  only_ascii_digits name = true ->
  valid_year (token_year lit name) = Some y -> bare_year name <> None.
Proof.
  intros Hascii.
  destruct (token_year lit name) as [d|] eqn:Ht; [|discriminate].
  intros Hv. apply token_year_position in Ht as [k Hk].
  unfold digits4_after in Hk.
  destruct (ustartswith (skipn k name) lit); [|discriminate].
  rewrite skipn_skipn in Hk.
  pose proof (forallb_skipn _ (length lit + k) name Hascii) as Hsk.
  destruct (skipn (length lit + k) name) as [|d1 [|d2 [|d3 [|d4 t]]]] eqn:Es;
    try discriminate.
  destruct (is_digit d1) eqn:H1; [|discriminate].
  destruct (is_digit d2) eqn:H2; [|discriminate].
  destruct (is_digit d3) eqn:H3; [|discriminate].
  destruct (is_digit d4) eqn:H4; [|discriminate].
  cbn in Hk. injection Hk as <-.
  cbn [forallb] in Hsk. rewrite H1, H2 in Hsk. cbn [implb] in Hsk.
  apply andb_true_iff in Hsk as [A1 Hsk].
  apply andb_true_iff in Hsk as [A2 _].
  apply (bare_year_from_position name (length lit + k) [d1; d2; d3; d4]).
  rewrite Es. now apply (valid_digits_are_bare d1 d2 d3 d4 t y).
Qed.

Lemma search_bare_none (name : ustr) :
  search pat_bare name = None <-> bare_year name = None.
Proof.
  rewrite <- captured_bare. unfold captured.
  destruct (search pat_bare name) as [m|] eqn:Hs; [|tauto].
  split; [discriminate|]. intros Hg. exfalso.
  pose proof (captured_bare name) as Hc. unfold captured in Hc.
  rewrite Hs, Hg in Hc. symmetry in Hc.
  revert Hs. clear -Hc. revert m.
  induction name as [|c name IH]; intros m Hs.
  - discriminate.
  - rewrite search_step in Hs. cbn [bare_year] in Hc.
    pose proof (match_here_bare (c :: name)) as Hm.
    destruct (bare4_here (c :: name)) eqn:E; [discriminate|].
    destruct (match_here pat_bare (c :: name)); [|discriminate].
    now apply (IH Hc m).
Qed.

(** X3.  Whenever the name holds a [19xx] or a [20xx] (the third pattern
    matches), the extractor returns a year.  For a name whose decimal
    digits are all of [0-9] the converse holds as well: a year is
    returned only when the third pattern matches, and the two [pubmed]
    patterns merely decide which year it is.  With the digits of another
    script the converse can fail, see [digits_of_another_script]. *)
Theorem X3_year_found_when_bare_pattern_matches (name : ustr) :
  (_extract_year_from_filename name = None -> search pat_bare name = None)
  /\ (only_ascii_digits name = true ->
      search pat_bare name = None ->
      _extract_year_from_filename name = None).
Proof.
  rewrite search_bare_none, extract_year_refines.
  unfold extractYear, first_some.
  split.
  - destruct (valid_year (token_year (upystr "pubmed_sorted_") name));
      [discriminate|].
    destruct (valid_year (token_year (upystr "pubmed_") name)); [discriminate|].
    destruct (bare_year name) as [d|] eqn:Hb; [|reflexivity].
    apply bare_year_position in Hb as [k Hk].
    destruct (bare4_here_valid _ _ Hk) as [y ->]. discriminate.
  - intros Hascii Hb.
    destruct (valid_year (token_year (upystr "pubmed_sorted_") name)) eqn:E1.
    { now apply (valid_token_gives_bare _ _ _ Hascii) in E1. }
    destruct (valid_year (token_year (upystr "pubmed_") name)) eqn:E2.
    { now apply (valid_token_gives_bare _ _ _ Hascii) in E2. }
    now rewrite Hb.
Qed.

Lemma X3_witness :
  only_ascii_digits (upystr "pubmed_sorted_0042.xml") = true
  /\ search pat_bare (upystr "pubmed_sorted_0042.xml") = None
  /\ _extract_year_from_filename (upystr "pubmed_sorted_0042.xml") = None.
Proof.
  split; [reflexivity|]. split; [reflexivity|].
  apply (proj2 (X3_year_found_when_bare_pattern_matches
                  (upystr "pubmed_sorted_0042.xml")));
    reflexivity.
Defined.

(** The token [pubmed_sorted_] followed by 1998 in Arabic-Indic digits
    (U+0661 U+0669 U+0669 U+0668): [\d] matches them and [int] reads
    1998, while the third pattern, which wants a literal [19] or [20],
    matches nowhere. *)
Example digits_of_another_script :
  _extract_year_from_filename
    (upystr "pubmed_sorted_" ++ [1633; 1641; 1641; 1640]%N ++ upystr ".xml")
  = Some 1998
  /\ search pat_bare
       (upystr "pubmed_sorted_" ++ [1633; 1641; 1641; 1640]%N ++ upystr ".xml")
     = None.
Proof. split; vm_compute; reflexivity. Qed.

(** ** The year buckets *)

Lemma bucket_append_keys (y : Z) (p : Path) (b : YearBuckets) :
  map fst (bucket_append y p b)
  = map fst b ++ (if existsb (fun y' => Z.eqb y' y) (map fst b) then [] else [y]).
Proof.
  induction b as [|[y' l] b IH]; cbn; [reflexivity|].
  destruct (Z.eqb y' y) eqn:E; cbn.
  - now rewrite app_nil_r.
  - now rewrite IH.
Qed.

Lemma bucket_append_size (y : Z) (p : Path) (b : YearBuckets) :
  length (concat (map snd (bucket_append y p b)))
  = S (length (concat (map snd b))).
Proof.
  induction b as [|[y' l] b IH]; cbn; [reflexivity|].
  destruct (Z.eqb y' y); cbn.
  - rewrite !length_app. cbn. lia.
  - rewrite !length_app, IH. lia.
Qed.

(** Where an entry of the new buckets comes from. *)
Lemma bucket_append_entry (y : Z) (p : Path) (b : YearBuckets)
      (y' : Z) (l' : list Path) :
  NoDup (map fst b) ->
  In (y', l') (bucket_append y p b) ->
  (y' <> y /\ In (y', l') b)
  \/ (y' = y /\ exists l, In (y, l) b /\ l' = l ++ [p])
  \/ (y' = y /\ ~ In y (map fst b) /\ l' = [p]).
Proof.
  induction b as [|[y0 l0] b IH]; cbn; intros Hnd Hin.
  - destruct Hin as [[= <- <-]|[]]. right. right. auto.
  - inversion Hnd as [|? ? Hnot Hnd']; subst.
    destruct (Z.eqb y0 y) eqn:E.
    + apply Z.eqb_eq in E. subst y0.
      destruct Hin as [[= <- <-]|Hin].
      * right. left. split; [reflexivity|]. exists l0. auto.
      * left. split; [|now right].
        intros ->. apply Hnot. apply in_map_iff. now exists (y, l').
    + apply Z.eqb_neq in E.
      destruct Hin as [[= <- <-]|Hin].
      * left. split; [exact E|now left].
      * destruct (IH Hnd' Hin) as [[Hne Hb]|[[-> (l & Hl & ->)]|[-> [Hno ->]]]].
        -- left. split; [exact Hne|now right].
        -- right. left. split; [reflexivity|]. exists l. split; [now right|reflexivity].
        -- right. right. split; [reflexivity|]. split; [|reflexivity].
           intros [H|H]; [congruence|contradiction].
Qed.

Lemma year_is_spec (y : Z) (p : Path) :
  year_is y p = true <-> year_of p = Some y.
Proof.
  unfold year_is. destruct (year_of p) as [y'|]; [|split; discriminate].
  rewrite Z.eqb_eq. split; congruence.
Qed.

Lemma filter_snoc {A} (f : A -> bool) (l : list A) (x : A) :
  filter f (l ++ [x]) = filter f l ++ (if f x then [x] else []).
Proof. rewrite filter_app. cbn. now destruct (f x). Qed.

Lemma buckets_invariant_step (b : YearBuckets) (fs : list Path) (x : Path) :
  buckets_invariant b fs -> buckets_invariant (bucket_step b x) (fs ++ [x]).
Proof.
  intros (Hnd & Hent & Hkey & Hsize). unfold bucket_step.
  fold (year_of x).
  destruct (year_of x) as [y|] eqn:Hy.
  - assert (Hx : year_is y x = true) by now apply year_is_spec.
    assert (Hother : forall y', y' <> y -> year_is y' x = false).
    { intros y' Hne. destruct (year_is y' x) eqn:E; [|reflexivity].
      apply year_is_spec in E. congruence. }
    repeat split.
    + rewrite bucket_append_keys.
      destruct (existsb (fun y' => Z.eqb y' y) (map fst b)) eqn:E.
      * now rewrite app_nil_r.
      * apply NoDup_app; [exact Hnd|repeat constructor; tauto|].
        intros z Hz [Hyz|[]]. subst z.
        assert (existsb (fun y' => y' =? y) (map fst b) = true).
        { apply existsb_exists. exists y. split; [exact Hz|apply Z.eqb_refl]. }
        congruence.
    + destruct (bucket_append_entry y x b y0 l Hnd H)
        as [[Hne Hb]|[[-> (l0 & Hl & ->)]|[-> [Hno ->]]]].
      * rewrite filter_snoc, (Hother y0 Hne), app_nil_r. now apply Hent.
      * rewrite filter_snoc, Hx. f_equal. now apply Hent.
      * rewrite filter_snoc, Hx.
        assert (Hnone : filter (year_is y) fs = []).
        { destruct (filter (year_is y) fs) as [|q qs] eqn:E; [reflexivity|].
          exfalso. apply Hno.
          assert (Hq : In q (filter (year_is y) fs)) by (rewrite E; now left).
          apply filter_In in Hq as [Hq1 Hq2].
          apply (Hkey q y Hq1). now apply year_is_spec. }
        now rewrite Hnone.
    + destruct (bucket_append_entry y x b y0 l Hnd H)
        as [[Hne Hb]|[[-> (l0 & Hl & ->)]|[-> [Hno ->]]]].
      * now apply Hent in Hb.
      * now destruct l0.
      * discriminate.
    + intros p y' Hp Hy'. rewrite bucket_append_keys. apply in_or_app.
      apply in_app_or in Hp as [Hp|[<-|[]]].
      * left. now apply (Hkey p y').
      * assert (y' = y) by congruence. subst y'.
        destruct (existsb (fun y' => y' =? y) (map fst b)) eqn:E.
        -- left. apply existsb_exists in E as (z & Hz & Ez).
           apply Z.eqb_eq in Ez. now subst.
        -- right. now left.
    + rewrite bucket_append_size, Hsize, filter_snoc.
      assert (has_year x = true) as -> by (unfold has_year; now rewrite Hy).
      rewrite length_app. cbn. lia.
  - repeat split.
    + exact Hnd.
    + rewrite filter_snoc.
      assert (year_is y x = false) as ->
          by (unfold year_is; now rewrite Hy).
      rewrite app_nil_r. now apply Hent.
    + now apply Hent in H.
    + intros p y' Hp Hy'. apply in_app_or in Hp as [Hp|[<-|[]]].
      * now apply (Hkey p y').
      * congruence.
    + rewrite Hsize, filter_snoc.
      assert (has_year x = false) as -> by (unfold has_year; now rewrite Hy).
      now rewrite app_nil_r.
Qed.

Lemma buckets_invariant_loop (fs : list Path) :
  buckets_invariant (fold_left bucket_step fs []) fs.
Proof.
  induction fs as [|x fs IH] using rev_ind.
  - split; [constructor|]. split; [intros y l []|].
    split; [intros p y []|reflexivity].
  - rewrite fold_left_app. cbn [fold_left]. now apply buckets_invariant_step.
Qed.

Lemma concat_length_perm {A} (l1 l2 : list (list A)) :
  Permutation l1 l2 -> length (concat l1) = length (concat l2).
Proof.
  induction 1; cbn; rewrite ?length_app in *; cbn; try lia.
Qed.

Lemma sorted_le_nodup_lt (l : list Z) :
  StronglySorted (fun a b => Z.ltb b a = false) l -> NoDup l ->
  StronglySorted Z.lt l.
Proof.
  induction 1 as [|x l Hs IH Hx]; intros Hnd; constructor;
    inversion Hnd as [|? ? Hnot Hnd']; subst.
  - now apply IH.
  - rewrite Forall_forall in *. intros y Hy.
    specialize (Hx y Hy). apply Z.ltb_ge in Hx.
    assert (x <> y) by (intros ->; contradiction). lia.
Qed.

(** The buckets as the function returns them: each bucket sorted, the
    entries ordered by year. *)
Lemma sort_files_by_year_value (w : Discovery.World) (fl : list Path)
      (sort_by : str) :
  is_sort_mode sort_by = true ->
  outcome (sort_files_by_year w fl sort_by)
  = Ok (sort_keyed Z.ltb false
          (map (fun kv => (fst kv, kv))
               (map (fun yl =>
                       (fst yl,
                        sort_keyed key_lt false
                          (map (fun p => (key_value w sort_by p, p)) (snd yl))))
                    (fold_left bucket_step fl [])))).
Proof.
  intros Hm. unfold sort_files_by_year. rewrite Hm. cbn [negb].
  rewrite outcome_bind.
  rewrite (outcome_mapM _
             (fun yl => (fst yl,
                         sort_keyed key_lt false
                           (map (fun p => (key_value w sort_by p, p)) (snd yl))))).
  - reflexivity.
  - intros yl. rewrite outcome_bind, outcome_list_sort. reflexivity.
Qed.

(** X4.  With a valid mode [sort_files_by_year] returns buckets whose
    years are strictly ascending and lie in 1900..2099; no bucket is
    empty; the bucket of a year holds exactly the files whose name yields
    that year (each once, reordered by the sort); every file with a year
    is in the bucket of its year, and the files without one are in no
    bucket, so that the buckets hold as many files as have a year. *)
Theorem X4_year_buckets
        (w : Discovery.World) (fl : list Path) (sort_by : str) :
  is_sort_mode sort_by = true ->
  exists g,
    outcome (sort_files_by_year w fl sort_by) = Ok g
    /\ StronglySorted Z.lt (map fst g)
    /\ (forall y l, In (y, l) g ->
          1900 <= y <= 2099 /\ l <> []
          /\ Permutation l (filter (year_is y) fl))
    /\ (forall p y, In p fl -> year_of p = Some y ->
          exists l, In (y, l) g /\ In p l)
    /\ length (concat (map snd g)) = length (filter has_year fl)
    /\ (length (concat (map snd g)) <= length fl)%nat.
Proof.
  intros Hm. rewrite (sort_files_by_year_value w fl sort_by Hm).
  set (raw := fold_left bucket_step fl []).
  set (sortb := fun yl : Z * list Path =>
                  (fst yl,
                   sort_keyed key_lt false
                     (map (fun p => (key_value w sort_by p, p)) (snd yl)))).
  set (g1 := map sortb raw).
  set (g := sort_keyed Z.ltb false (map (fun kv => (fst kv, kv)) g1)).
  destruct (buckets_invariant_loop fl) as (Hnd & Hent & Hkey & Hsize).
  fold raw in Hnd, Hent, Hkey, Hsize.
  assert (Hperm : Permutation g g1).
  { unfold g. rewrite sort_keyed_perm. now rewrite map_snd_keyed. }
  assert (Hkeys1 : map fst g1 = map fst raw).
  { unfold g1. rewrite map_map. reflexivity. }
  assert (Hbucket : forall l, Permutation (snd (sortb (0, l))) l).
  { intros l. unfold sortb. cbn [snd]. rewrite sort_keyed_perm.
    now rewrite map_snd_keyed. }
  assert (Hg1 : forall y l, In (y, l) g1 ->
                  exists l0, In (y, l0) raw /\ Permutation l l0).
  { intros y l Hin. apply in_map_iff in Hin as ([y0 l0] & Heq & Hin).
    injection Heq as <- <-. exists l0. split; [exact Hin|apply (Hbucket l0)]. }
  exists g. split; [reflexivity|].
  split; [|split; [|split; [|split]]].
  - apply sorted_le_nodup_lt.
    + unfold g, sort_keyed.
      apply StronglySorted_map, StronglySorted_map.
      apply (StronglySorted_weaken
               (fun u v : Z * (Z * list Path) => Z.ltb (fst v) (fst u) = false)).
      * intros a b Ha Hb.
        eapply Permutation_in in Ha; [|apply stable_sort_perm].
        eapply Permutation_in in Hb; [|apply stable_sort_perm].
        apply in_map_iff in Ha as (a' & <- & _).
        apply in_map_iff in Hb as (b' & <- & _). auto.
      * apply (stable_sort_sorted Z.ltb (fun _ => True)).
        -- intros a b _ _ H. apply Z.ltb_lt in H. apply Z.ltb_ge. lia.
        -- intros a b c _ _ _ H1 H2. apply Z.ltb_ge in H1, H2.
           apply Z.ltb_ge. lia.
        -- apply Forall_forall. auto.
    + eapply Permutation_NoDup; [|exact Hnd].
      rewrite <- Hkeys1. symmetry. now apply Permutation_map.
  - intros y l Hin. eapply Permutation_in in Hin; [|exact Hperm].
    destruct (Hg1 y l Hin) as (l0 & Hraw & Hp).
    destruct (Hent y l0 Hraw) as [Heq Hne].
    assert (Hl : l <> []).
    { intros ->. apply Permutation_nil in Hp. congruence. }
    split; [|split; [exact Hl|now rewrite Hp, <- Heq]].
    destruct l0 as [|q l0]; [congruence|].
    assert (Hq : In q (filter (year_is y) fl)) by (rewrite <- Heq; now left).
    apply filter_In in Hq as [_ Hq]. apply year_is_spec in Hq.
    unfold year_of in Hq. rewrite extract_year_refines in Hq.
    now apply extractYear_range in Hq.
  - intros p y Hp Hy. specialize (Hkey p y Hp Hy).
    apply in_map_iff in Hkey as ([y0 l0] & Hfst & Hraw). cbn in Hfst. subst y0.
    exists (snd (sortb (y, l0))). split.
    + eapply Permutation_in; [symmetry; exact Hperm|].
      apply in_map_iff. exists (y, l0). split; [reflexivity|exact Hraw].
    + eapply Permutation_in; [symmetry; apply (Hbucket l0)|].
      destruct (Hent y l0 Hraw) as [-> _].
      apply filter_In. split; [exact Hp|now apply year_is_spec].
  - rewrite (concat_length_perm (map snd g) (map snd g1))
      by now apply Permutation_map.
    rewrite <- Hsize. unfold g1. clear -Hbucket.
    induction raw as [|[y l] raw IH]; cbn [map concat]; [reflexivity|].
    rewrite !length_app, IH. f_equal.
    apply Permutation_length. apply (Hbucket l).
  - rewrite (concat_length_perm (map snd g) (map snd g1))
      by now apply Permutation_map.
    assert (Hlen : length (concat (map snd g1)) = length (concat (map snd raw))).
    { unfold g1. clear -Hbucket.
      induction raw as [|[y l] raw IH]; cbn [map concat]; [reflexivity|].
      rewrite !length_app, IH. f_equal.
      apply Permutation_length. apply (Hbucket l). }
    rewrite Hlen, Hsize. apply filter_length_le.
Qed.

Lemma X4_witness :
  is_sort_mode (pystr "mtime") = true
  /\ exists g,
      outcome (sort_files_by_year w_pubmed
                 [report_2021; pubmed_1998; notes_txt; pubmed_2021]
                 (pystr "mtime")) = Ok g
      /\ StronglySorted Z.lt (map fst g).
Proof.
  split; [reflexivity|].
  destruct (X4_year_buckets w_pubmed
              [report_2021; pubmed_1998; notes_txt; pubmed_2021]
              (pystr "mtime") eq_refl) as (g & Hg & Hs & _).
  exists g. split; assumption.
Defined.

(** X5.  With a mode outside ["name"], ["mtime"], ["size"] the grouping
    raises [ValueError] before it looks at any file: no step is made.
    The same holds for [group_by_year] of a result, once the utility is
    imported. *)
Theorem X5_grouping_rejects_invalid_mode
        (w : Discovery.World) (fl : list Path) (sort_by : str)
        (self : FindFilesResult) :
  is_sort_mode sort_by = false ->
  sort_files_by_year w fl sort_by = (Raise ValueError, [])
  /\ (vectorsage_data_importable w = true ->
      group_by_year w self sort_by = (Raise ValueError, [])).
Proof.
  intros Hm.
  assert (H : forall l, sort_files_by_year w l sort_by = (Raise ValueError, [])).
  { intros l. unfold sort_files_by_year. now rewrite Hm. }
  split; [apply H|].
  intros Hv. unfold group_by_year, import_sort_files_by_year.
  rewrite Hv. cbn. now rewrite H.
Qed.

Lemma X5_witness :
  is_sort_mode (pystr "year") = false
  /\ sort_files_by_year w_pubmed [report_2021] (pystr "year")
     = (Raise ValueError, []).
Proof.
  split; [reflexivity|].
  exact (proj1 (X5_grouping_rejects_invalid_mode w_pubmed [report_2021]
                  (pystr "year")
                  (mkResult pubmed_dir (default_args pubmed_dir) [] 0 false
                            None None)
                  eq_refl)).
Defined.

(** ** [find_files]: path errors, counts and the cap *)

(** X6.  A root that does not exist raises [FileNotFoundError] after the
    existence check alone, and a root that is not a directory raises
    [NotADirectoryError] after the two checks: nothing is enumerated, and
    the other arguments (an invalid [sort_by] included) play no part. *)
Theorem X6_path_errors_come_first
        (fnmatch : str -> str -> bool) (w : Discovery.World)
        (a : FindFilesArgs) :
  (fs_exists w (base_of a) = false ->
   find_files fnmatch w a
   = (Raise FileNotFoundError, [EvExists (base_of a)]))
  /\ (fs_exists w (base_of a) = true -> fs_is_dir w (base_of a) = false ->
      find_files fnmatch w a
      = (Raise NotADirectoryError, [EvExists (base_of a); EvIsDir (base_of a)])).
Proof.
  split.
  - intros He.
    rewrite (surjective_pairing (find_files fnmatch w a)).
    change (fst (find_files fnmatch w a)) with (outcome (find_files fnmatch w a)).
    change (snd (find_files fnmatch w a)) with (steps (find_files fnmatch w a)).
    rewrite find_files_outcome, He. cbn [negb]. f_equal.
    unfold find_files. fold (base_of a). rewrite steps_bind.
    change (outcome (Discovery.path_exists w (base_of a)))
      with (Ok (fs_exists w (base_of a))).
    rewrite He. reflexivity.
  - intros He Hd.
    rewrite (surjective_pairing (find_files fnmatch w a)).
    change (fst (find_files fnmatch w a)) with (outcome (find_files fnmatch w a)).
    change (snd (find_files fnmatch w a)) with (steps (find_files fnmatch w a)).
    rewrite find_files_outcome, He, Hd. cbn [negb]. f_equal.
    unfold find_files. fold (base_of a). rewrite steps_bind.
    change (outcome (Discovery.path_exists w (base_of a)))
      with (Ok (fs_exists w (base_of a))).
    rewrite He. cbn [negb]. cbn match. rewrite steps_bind.
    change (outcome (Discovery.path_is_dir w (base_of a)))
      with (Ok (fs_is_dir w (base_of a))).
    rewrite Hd. reflexivity.
Qed.

Lemma X6_witness :
  fs_exists w_data (base_of (default_args stored_csv)) = false
  /\ find_files fnmatch_plain w_data (default_args stored_csv)
     = (Raise FileNotFoundError, [EvExists stored_csv]).
Proof.
  split; [reflexivity|].
  exact (proj1 (X6_path_errors_come_first fnmatch_plain w_data
                  (default_args stored_csv)) eq_refl).
Defined.

Lemma truncate_length (m : option Z) (l : list Path) :
  length (truncate m l)
  = match m with
    | Some k => if 0 <=? k then Nat.min (Z.to_nat k) (length l) else length l
    | None => length l
    end.
Proof.
  unfold truncate. destruct m as [k|]; [|reflexivity].
  destruct (0 <=? k); [apply length_firstn|reflexivity].
Qed.

(** X7.  The files of a successful result are the canonical paths of
    the passing candidates, reordered by the sort and then cut to the
    first [max_files] when [max_files] is zero or more; a negative
    [max_files] cuts nothing.  [total_matched] is the length of that
    final list, the count after the cut. *)
Theorem X7_files_count_and_cap
        (fnmatch : str -> str -> bool) (w : Discovery.World)
        (a : FindFilesArgs) (r : FindFilesResult) :
  outcome (find_files fnmatch w a) = Ok r ->
  exists sorted,
    Permutation sorted
      (map (fs_resolve w) (filter (passes fnmatch w a) (candidates_of w a)))
    /\ files r
       = match max_files a with
         | Some m => if 0 <=? m then firstn (Z.to_nat m) sorted else sorted
         | None => sorted
         end
    /\ total_matched r = length (files r)
    /\ length (files r)
       = match max_files a with
         | Some m => if 0 <=? m then Nat.min (Z.to_nat m) (length sorted)
                     else length sorted
         | None => length sorted
         end.
Proof.
  intros H. apply find_files_Ok in H.
  destruct H as (_ & _ & _ & _ & _ & Hf & Ht & _).
  exists (sort_keyed key_lt (reverse a)
            (map (fun p => (key_value w (sort_by a) p, p))
                 (map (fs_resolve w)
                      (filter (passes fnmatch w a) (candidates_of w a))))).
  split; [rewrite sort_keyed_perm; now rewrite map_snd_keyed|].
  split; [exact Hf|]. split; [exact Ht|].
  rewrite Hf. unfold final_files. apply truncate_length.
Qed.

Lemma X7_witness :
  exists r,
    outcome (find_files fnmatch_plain w_data
               (mkArgs (DPath data_dir) None None None false PNone PNone
                       None (Some 2) (pystr "size") true)) = Ok r
    /\ files r = [c_csv; b_txt]
    /\ total_matched r = 2%nat.
Proof.
  eexists. split; [vm_compute; reflexivity|].
  destruct (X7_files_count_and_cap fnmatch_plain w_data
              (mkArgs (DPath data_dir) None None None false PNone PNone
                      None (Some 2) (pystr "size") true)
              _ ltac:(vm_compute; reflexivity)) as (sorted & _ & _ & Ht & _).
  split; [reflexivity|exact Ht].
Defined.

(** ** The extension predicate and a dotted [file_format] *)

Lemma lower_char_dot (c : ascii) : lower_char c = dot -> c = dot.
Proof.
  destruct c as [[] [] [] [] [] [] [] []]; vm_compute; intros H;
    first [reflexivity | discriminate H].
Qed.

Lemma rfind_None_head (c x : ascii) (s : str) :
  rfind c (x :: s) = None -> ascii_eqb x c = false.
Proof.
  cbn. destruct (rfind c s); [discriminate|].
  now destruct (ascii_eqb x c).
Qed.

Lemma rfind_Some_split (c : ascii) (s : str) (i : nat) :
  rfind c s = Some i ->
  skipn i s = c :: skipn (S i) s /\ rfind c (skipn (S i) s) = None.
Proof.
  revert i. induction s as [|x s IH]; intros i; cbn [rfind]; [discriminate|].
  destruct (rfind c s) as [j|] eqn:E.
  - intros [= <-]. apply (IH j eq_refl).
  - destruct (ascii_eqb x c) eqn:Ex; [|discriminate].
    intros [= <-]. apply ascii_eqb_true in Ex. subst x. now split.
Qed.

(** A final extension is a dot followed by at least one character that
    is not a dot. *)
Lemma name_suffix_shape (nm : str) :
  name_suffix nm = []
  \/ exists c rest, name_suffix nm = dot :: c :: rest /\ c <> dot.
Proof.
  unfold name_suffix.
  destruct (suffix_index nm) as [i|] eqn:Hi; [|now left].
  right. pose proof (suffix_index_lt nm i Hi) as [_ Hlt].
  unfold suffix_index in Hi.
  destruct (rfind dot nm) as [j|] eqn:Hr; [|discriminate].
  destruct ((0 <? j)%nat && (j <? length nm - 1)%nat); [|discriminate].
  injection Hi as ->.
  destruct (rfind_Some_split dot nm i Hr) as [Hs Hn].
  rewrite Hs.
  assert (Hlen : length (skipn (S i) nm) = (length nm - S i)%nat)
    by apply length_skipn.
  destruct (skipn (S i) nm) as [|c rest] eqn:E; [cbn in Hlen; lia|].
  exists c, rest. split; [reflexivity|].
  apply rfind_None_head in Hn. intros ->. now rewrite ascii_eqb_refl in Hn.
Qed.

Lemma ext_ok_dotted (p : Path) (ff : str) :
  _ext_ok p (Some (dot :: ff)) = false.
Proof.
  unfold _ext_ok, suffix.
  destruct (name_suffix_shape (name p)) as [->|(c & rest & -> & Hc)];
    [reflexivity|].
  cbn [lower map str_eqb].
  destruct (ascii_eqb (lower_char c) (lower_char dot)) eqn:E.
  - apply ascii_eqb_true in E. change (lower_char dot) with dot in E.
    now apply lower_char_dot in E.
  - now rewrite andb_false_r.
Qed.

(** The arguments record of a successful result is
    [FindFilesArgs.__post_init__] of the call's arguments. *)
Lemma find_files_args (fnmatch : str -> str -> bool) (w : Discovery.World)
      (a : FindFilesArgs) (r : FindFilesResult) :
  outcome (find_files fnmatch w a) = Ok r ->
  outcome (FindFilesArgs_post_init
             (mkArgs (DPath (base_of a)) (prefix a) (suffix_arg a)
                     (file_format a) (recursive a)
                     (include_patterns a) (exclude_patterns a)
                     (min_size_bytes a) (max_files a)
                     (sort_by a) (reverse a)))
  = Ok (args r).
Proof.
  rewrite find_files_outcome.
  destruct (fs_exists w (base_of a)); cbn [negb]; [|discriminate].
  destruct (fs_is_dir w (base_of a)); cbn [negb]; [|discriminate].
  destruct (is_sort_mode (sort_by a)) eqn:Hm; cbn [negb]; [|discriminate].
  rewrite outcome_bind.
  destruct (outcome (FindFilesArgs_post_init _)) as [x|e]; [|discriminate].
  rewrite result_post_init_outcome.
  destruct (vectorsage_data_importable w); [|discriminate].
  destruct (outcome (sort_files_by_year w _ (pystr "name"))); [|discriminate].
  intros [= <-]. reflexivity.
Qed.

(** X8.  The extension predicate compares the file's final extension
    with a dot followed by [file_format] as given.  So a file without an
    extension never passes a [file_format], and a [file_format] written
    with a leading dot matches no file at all: [find_files] then returns
    an empty result, although the arguments record of that result holds
    the format with the dots stripped. *)
Theorem X8_dotted_file_format_matches_nothing
        (fnmatch : str -> str -> bool) (w : Discovery.World)
        (a : FindFilesArgs) (r : FindFilesResult) (ff : str) :
  file_format a = Some (dot :: ff) ->
  outcome (find_files fnmatch w a) = Ok r ->
  (forall p, _ext_ok p (file_format a) = false)
  /\ files r = []
  /\ total_matched r = 0%nat
  /\ file_format (args r) = Some (lstrip dot ff).
Proof.
  intros Hff Hr.
  assert (Hext : forall p, _ext_ok p (file_format a) = false)
    by (intros p; rewrite Hff; apply ext_ok_dotted).
  pose proof (find_files_args fnmatch w a r Hr) as Hargs.
  apply find_files_Ok in Hr.
  destruct Hr as (_ & _ & Hm & _ & _ & Hf & Ht & _).
  assert (Hnone : files r = []).
  { rewrite Hf. unfold final_files.
    replace (filter (passes fnmatch w a) (candidates_of w a)) with (@nil Path).
    - cbn [map].
      assert (Hs : sort_keyed key_lt (reverse a) (@nil (Key * Path)) = [])
        by (destruct (reverse a); reflexivity).
      rewrite Hs. unfold truncate. destruct (max_files a) as [m|]; [|reflexivity].
      destruct (0 <=? m); [apply firstn_nil|reflexivity].
    - symmetry. induction (candidates_of w a) as [|p l IH]; [reflexivity|].
      cbn. unfold passes at 1. now rewrite Hext. }
  split; [exact Hext|]. split; [exact Hnone|].
  split; [now rewrite Ht, Hnone|].
  unfold FindFilesArgs_post_init in Hargs. cbn [sort_by file_format] in Hargs.
  rewrite Hm, Hff in Hargs. cbn [negb] in Hargs.
  injection Hargs as <-. reflexivity.
Qed.

Lemma X8_witness :
  exists r,
    outcome (find_files fnmatch_plain w_data
               (mkArgs (DPath data_dir) None None (Some (pystr ".txt")) false
                       PNone PNone None None (pystr "name") false)) = Ok r
    /\ files r = []
    /\ file_format (args r) = Some (pystr "txt").
Proof.
  eexists. split; [vm_compute; reflexivity|].
  destruct (X8_dotted_file_format_matches_nothing fnmatch_plain w_data
              (mkArgs (DPath data_dir) None None (Some (pystr ".txt")) false
                      PNone PNone None None (pystr "name") false)
              _ (pystr "txt") eq_refl ltac:(vm_compute; reflexivity))
    as (_ & Hf & _ & Ha).
  split; [exact Hf|exact Ha].
Defined.

(** A file whose name has no final extension passes no [file_format]. *)
Lemma ext_ok_without_extension (p : Path) (ff : str) :
  suffix p = [] -> _ext_ok p (Some ff) = false.
Proof. intros H. unfold _ext_ok. now rewrite H. Qed.

(** ** Sizes and time stamps in a search by name *)

Lemma bind_cong {A B} (m m' : Discovery.M A) (f g : A -> Discovery.M B) :
  m = m' -> (forall x, f x = g x) -> Discovery.bind m f = Discovery.bind m' g.
Proof.
  intros <- H. unfold Discovery.bind. destruct m as [[x|e] t]; [|reflexivity].
  now rewrite H.
Qed.

Lemma mapM_ext {A B} (f g : A -> Discovery.M B) (l : list A) :
  (forall x, f x = g x) -> Discovery.mapM f l = Discovery.mapM g l.
Proof.
  intros H. induction l as [|x l IH]; [reflexivity|].
  cbn [Discovery.mapM]. apply bind_cong; [apply H|]. intros y.
  apply bind_cong; [exact IH|reflexivity].
Qed.

Lemma filter_mapM_ext {A B} (f f' : A -> Discovery.M bool)
      (g g' : A -> Discovery.M B) (l : list A) :
  (forall x, f x = f' x) -> (forall x, g x = g' x) ->
  filter_mapM f g l = filter_mapM f' g' l.
Proof.
  intros Hf Hg. induction l as [|x l IH]; [reflexivity|].
  cbn [filter_mapM]. apply bind_cong; [apply Hf|]. intros [|]; [|exact IH].
  apply bind_cong; [apply Hg|]. intros y.
  apply bind_cong; [exact IH|reflexivity].
Qed.

Section MetadataFacts.
Variable fnmatch : str -> str -> bool.
Variable w : Discovery.World.
Variable change : Path -> Stat -> Stat.

(** The key of a sort by name is the name. *)
Lemma name_key_ignores_metadata (p : Path) :
  _build_sort_key (with_metadata w change) (pystr "name") p
  = _build_sort_key w (pystr "name") p.
Proof. reflexivity. Qed.

Lemma sort_by_name_ignores_metadata (reverse : bool) (l : list Path) :
  list_sort (_build_sort_key (with_metadata w change) (pystr "name")) reverse l
  = list_sort (_build_sort_key w (pystr "name")) reverse l.
Proof.
  unfold list_sort. apply bind_cong; [|reflexivity].
  apply mapM_ext. exact name_key_ignores_metadata.
Qed.

Lemma grouping_by_name_ignores_metadata (l : list Path) :
  sort_files_by_year (with_metadata w change) l (pystr "name")
  = sort_files_by_year w l (pystr "name").
Proof.
  unfold sort_files_by_year.
  destruct (negb (is_sort_mode (pystr "name"))); [reflexivity|].
  apply bind_cong; [|reflexivity].
  apply mapM_ext. intros yl.
  apply bind_cong; [apply sort_by_name_ignores_metadata|reflexivity].
Qed.

(** Without a size filter the predicates read names only. *)
Lemma file_passes_ignores_metadata (p : Path) (a : FindFilesArgs) :
  min_size_bytes a = None ->
  _file_passes fnmatch (with_metadata w change) p a
  = _file_passes fnmatch w p a.
Proof. intros H. unfold _file_passes. now rewrite H. Qed.

Lemma result_post_init_ignores_metadata (r : FindFilesResult) :
  FindFilesResult_post_init (with_metadata w change) r
  = FindFilesResult_post_init w r.
Proof.
  unfold FindFilesResult_post_init, group_by_year, import_sort_files_by_year.
  apply bind_cong; [|reflexivity].
  change (vectorsage_data_importable (with_metadata w change))
    with (vectorsage_data_importable w).
  destruct (vectorsage_data_importable w); [|reflexivity].
  unfold Discovery.ret. cbn [Discovery.bind].
  now rewrite grouping_by_name_ignores_metadata.
Qed.

End MetadataFacts.

(** X9.  A call without [min_size_bytes] that sorts by name does not
    depend on the sizes and the time stamps of the files: in a world
    that differs in them only, it makes the same steps and ends in the
    same way, with the same result or the same exception.  Sizes and time
    stamps are read only for the size filter and for the two other sort
    modes. *)
Theorem X9_name_sort_without_size_filter_ignores_metadata
        (fnmatch : str -> str -> bool) (w : Discovery.World)
        (change : Path -> Stat -> Stat) (a : FindFilesArgs) :
  min_size_bytes a = None -> sort_by a = pystr "name" ->
  find_files fnmatch (with_metadata w change) a = find_files fnmatch w a.
Proof.
  intros Hmin Hsort. unfold find_files. rewrite Hsort.
  apply bind_cong; [reflexivity|]. intros e.
  destruct (negb e); [reflexivity|].
  apply bind_cong; [reflexivity|]. intros d.
  destruct (negb d); [reflexivity|].
  apply bind_cong; [reflexivity|]. intros globbed.
  apply bind_cong; [reflexivity|]. intros candidates.
  apply bind_cong.
  { apply filter_mapM_ext; [|reflexivity].
    intros p. now apply file_passes_ignores_metadata. }
  intros filtered.
  apply bind_cong; [reflexivity|]. intros _.
  apply bind_cong; [apply sort_by_name_ignores_metadata|]. intros sorted.
  apply bind_cong; [reflexivity|]. intros _.
  apply bind_cong; [reflexivity|]. intros args_obj.
  apply result_post_init_ignores_metadata.
Qed.

Lemma X9_witness :
  find_files fnmatch_plain (with_metadata w_data (fun _ _ => mkStat 0 (0 # 1)))
             (default_args data_dir)
  = find_files fnmatch_plain w_data (default_args data_dir)
  /\ outcome (find_files fnmatch_plain
                (with_metadata w_data (fun _ _ => mkStat 0 (0 # 1)))
                (txt_100_args data_dir))
     <> outcome (find_files fnmatch_plain w_data (txt_100_args data_dir)).
Proof.
  split.
  - apply X9_name_sort_without_size_filter_ignores_metadata; reflexivity.
  - vm_compute. discriminate.
Defined.


(** ** The arguments record *)

Lemma lstrip_no_leading (c : ascii) (s : str) :
  match lstrip c s with
  | x :: _ => ascii_eqb x c = false
  | [] => True
  end.
Proof.
  induction s as [|x s IH]; cbn; [exact I|].
  destruct (ascii_eqb x c) eqn:E; [exact IH|exact E].
Qed.

Lemma lstrip_fixed (c : ascii) (s : str) :
  match s with
  | x :: _ => ascii_eqb x c = false
  | [] => True
  end ->
  lstrip c s = s.
Proof. destruct s as [|x s]; cbn; [reflexivity|]. now intros ->. Qed.

Lemma ensure_list_idempotent (v : PyPatterns) :
  ensure_list (ensure_list v) = ensure_list v.
Proof. now destruct v. Qed.

(** X10.  [FindFilesArgs.__post_init__] raises [ValueError] exactly for
    a [sort_by] outside the three modes.  Otherwise it yields a record in
    normal form: [dir] is a [Path], [file_format] has no leading dot, and
    a pattern field is [None] or a list.  Normalising is idempotent: a
    record built again from the fields of a normalised one is the same
    record. *)
Theorem X10_args_normal_form (x : FindFilesArgs) :
  (is_sort_mode (sort_by x) = false ->
   FindFilesArgs_post_init x = (Raise ValueError, []))
  /\ (is_sort_mode (sort_by x) = true ->
      exists x',
        FindFilesArgs_post_init x = (Ok x', [])
        /\ dir x' = DPath (Path_of_dir (dir x))
        /\ match file_format x' with
           | Some (c :: _) => c <> dot
           | _ => True
           end
        /\ (forall s, include_patterns x' <> PStr s)
        /\ (forall s, exclude_patterns x' <> PStr s)
        /\ FindFilesArgs_post_init x' = (Ok x', [])).
Proof.
  split.
  - intros Hm. unfold FindFilesArgs_post_init. now rewrite Hm.
  - intros Hm. unfold FindFilesArgs_post_init at 1. rewrite Hm. cbn [negb].
    eexists. split; [reflexivity|]. cbn [dir file_format include_patterns
                                           exclude_patterns].
    split; [reflexivity|].
    assert (Hff : match match file_format x with
                        | Some (c :: f) => Some (lstrip dot (c :: f))
                        | other => other
                        end with
                  | Some (c :: _) => ascii_eqb c dot = false
                  | _ => True
                  end).
    { destruct (file_format x) as [[|c f]|]; try exact I.
      apply (lstrip_no_leading dot (c :: f)). }
    split.
    { destruct (match file_format x with
                | Some (c :: f) => Some (lstrip dot (c :: f))
                | other => other
                end) as [[|c f]|]; try exact I.
      intros ->. now rewrite ascii_eqb_refl in Hff. }
    split; [destruct (include_patterns x); discriminate|].
    split; [destruct (exclude_patterns x); discriminate|].
    unfold FindFilesArgs_post_init.
    cbn [dir prefix suffix_arg file_format recursive include_patterns
             exclude_patterns min_size_bytes max_files sort_by reverse
             Path_of_dir].
    rewrite Hm. cbn [negb]. rewrite !ensure_list_idempotent.
    unfold Discovery.ret. do 3 f_equal.
    destruct (match file_format x with
              | Some (c :: f) => Some (lstrip dot (c :: f))
              | other => other
              end) as [[|c f]|]; try reflexivity.
    f_equal. now apply lstrip_fixed.
Qed.

Lemma X10_witness :
  is_sort_mode (pystr "size") = true
  /\ exists x',
      FindFilesArgs_post_init
        (mkArgs (DStr (pystr "/data/./")) None None (Some (pystr "..TXT"))
                false (PStr (pystr "*.txt")) PNone None None (pystr "size")
                true)
      = (Ok x', [])
      /\ dir x' = DPath data_dir
      /\ FindFilesArgs_post_init x' = (Ok x', []).
Proof.
  split; [reflexivity|].
  destruct (proj2 (X10_args_normal_form
                     (mkArgs (DStr (pystr "/data/./")) None None
                             (Some (pystr "..TXT")) false
                             (PStr (pystr "*.txt")) PNone None None
                             (pystr "size") true)) eq_refl)
    as (x' & H1 & H2 & _ & _ & _ & H6).
  exists x'. split; [exact H1|]. split; [exact H2|exact H6].
Defined.

(** ** The decompression pipeline: what is written and what is not *)

Lemma parts_eqb_true (a b : list str) : parts_eqb a b = true -> a = b.
Proof.
  revert b. induction a as [|x a IH]; intros [|y b]; cbn; try discriminate.
  - reflexivity.
  - intros H. apply andb_true_iff in H as [Hx Hab].
    apply str_eqb_true in Hx. apply IH in Hab. now subst.
Qed.

Lemma path_eqb_true (p q : Path) : path_eqb p q = true -> p = q.
Proof.
  unfold path_eqb. intros H. apply andb_true_iff in H as [Hr Hp].
  apply parts_eqb_true in Hp. destruct p as [rp pp], q as [rq pq]. cbn in *.
  subst. destruct rp, rq; try discriminate; reflexivity.
Qed.

Lemma nodes_set_node_other (w : Unzip.World) (p q : Path) (n : Node) :
  path_eqb q p = false -> nodes (set_node w p n) q = nodes w q.
Proof. intros H. cbn. now rewrite H. Qed.

Import UnzipVocabulary.

Section UnzipEffects.
Variable gunzip : bytes -> bytes * bool.

Lemma gzip_open_rb_world (p : Path) (w w1 : Unzip.World) (r : Result unit) :
  gzip_open_rb p w = (r, w1) -> w1 = w.
Proof.
  unfold gzip_open_rb. destruct (nodes w p) as [[|d]|];
    [| destruct (denied w p) |]; now intros [= _ <-].
Qed.

Lemma open_wb_world (p : Path) (w w1 : Unzip.World) (r : Result unit) :
  open_wb p w = (r, w1) ->
  (w1 = w /\ r <> Ok tt)
  \/ (r = Ok tt /\ w1 = set_node w p (File []) /\ nodes w p <> Some Dir).
Proof.
  unfold open_wb. destruct (nodes w p) as [[|d]|] eqn:Np.
  - intros [= <- <-]. left. split; [reflexivity|discriminate].
  - destruct (denied w p); intros [= <- <-].
    + left. split; [reflexivity|discriminate].
    + right. repeat split. discriminate.
  - destruct (nodes w (parent p)) as [[|d]|];
      [destruct (denied w (parent p))| |]; intros [= <- <-];
      try (left; split; [reflexivity|discriminate]).
    right. repeat split. discriminate.
Qed.

Lemma copyfileobj_world (sp dp : Path) (w w1 : Unzip.World) (r : Result unit) :
  copyfileobj gunzip sp dp w = (r, w1) ->
  (w1 = w /\ r <> Ok tt) \/ (exists out, w1 = set_node w dp (File out)).
Proof.
  unfold copyfileobj. destruct (nodes w sp) as [[|raw]|];
    try (intros [= <- <-]; left; split; [reflexivity|discriminate]).
  destruct (gunzip raw) as [out sound].
  destruct sound; intros [= <- <-]; right; now exists out.
Qed.

(** The copy writes the destination and nothing else. *)
Lemma decompress_copy_effects (sp dp : Path) (w w1 : Unzip.World)
      (r : Result unit) :
  decompress_copy gunzip sp dp w = (r, w1) ->
  (forall q, path_eqb q dp = false -> nodes w1 q = nodes w q)
  /\ same_kind (nodes w dp) (nodes w1 dp)
  /\ log w1 = log w
  /\ (r = Ok tt -> exists d, nodes w1 dp = Some (File d)).
Proof.
  assert (Hrefl : forall w0 : Unzip.World, same_kind (nodes w0 dp) (nodes w0 dp)).
  { intros w0. unfold same_kind. destruct (nodes w0 dp) as [[|d]|]; eauto. }
  assert (Hset : forall (w0 : Unzip.World) out,
             nodes w0 dp <> Some Dir ->
             same_kind (nodes w0 dp) (nodes (set_node w0 dp (File out)) dp)).
  { intros w0 out Hn. rewrite nodes_set_node_same. unfold same_kind.
    destruct (nodes w0 dp) as [[|d]|]; eauto. congruence. }
  unfold decompress_copy, Unzip.bind.
  destruct (gzip_open_rb sp w) as [[u|e] wa] eqn:Ha;
    apply gzip_open_rb_world in Ha; subst wa.
  - destruct (open_wb dp w) as [[u1|e1] wb] eqn:Hb;
      apply open_wb_world in Hb.
    + destruct Hb as [[-> Hr]|(Hr & -> & Hn)].
      * destruct u1. congruence.
      * intros Hc. apply copyfileobj_world in Hc.
        destruct Hc as [[-> Hr']|[out ->]].
        -- split; [intros q Hq; now apply nodes_set_node_other|].
           split; [now apply Hset|]. split; [reflexivity|].
           intros ->. congruence.
        -- split; [intros q Hq; cbn; now rewrite Hq|].
           split.
           { rewrite nodes_set_node_same. unfold same_kind.
             destruct (nodes w dp) as [[|d]|]; eauto. congruence. }
           split; [reflexivity|].
           intros _. exists out. apply nodes_set_node_same.
    + destruct Hb as [[-> Hr]|(Hr & _)]; [|discriminate Hr].
      intros H. injection H as <- <-.
      split; [reflexivity|]. split; [apply Hrefl|].
      split; [reflexivity|discriminate].
  - intros H. injection H as <- <-.
    split; [reflexivity|]. split; [apply Hrefl|].
    split; [reflexivity|discriminate].
Qed.

(** [unzip_file] writes its destination and its log record and nothing
    else. *)
Lemma unzip_file_effects (src dst : str) (ow : bool) (w w1 : Unzip.World)
      (res : option str) :
  unzip_file gunzip (src, dst, ow) w = (Ok res, w1) ->
  (forall q, path_eqb q (Path_of_str dst) = false -> nodes w1 q = nodes w q)
  /\ same_kind (nodes w (Path_of_str dst)) (nodes w1 (Path_of_str dst))
  /\ (forall s, res = Some s ->
        s = str_of_Path (Path_of_str dst)
        /\ is_file_in w1 (Path_of_str dst) = true).
Proof.
  rewrite unzip_file_cases.
  destruct (_ && negb ow).
  - intros H. injection H as <- <-.
    split; [reflexivity|]. split; [|discriminate].
    unfold same_kind. cbn. destruct (nodes w (Path_of_str dst)) as [[|d]|]; eauto.
  - destruct (decompress_copy gunzip (Path_of_str src) (Path_of_str dst) w)
      as [[u|e] w2] eqn:Hc;
      apply decompress_copy_effects in Hc as (Hq & Hk & _ & Hd);
      intros H; injection H as <- <-;
      (split; [exact Hq|]); (split; [exact Hk|]).
    + intros s0 Hs. injection Hs as <-. split; [reflexivity|].
      destruct u. destruct (Hd eq_refl) as [d Hnd].
      unfold is_file_in. cbn. now rewrite Hnd.
    + discriminate.
Qed.
End UnzipEffects.

Lemma same_kind_refl (n : option Node) : same_kind n n.
Proof. unfold same_kind. destruct n as [[|d]|]; eauto. Qed.

Lemma same_kind_trans (a b c : option Node) :
  same_kind a b -> same_kind b c -> same_kind a c.
Proof.
  unfold same_kind. destruct a as [[|d]|]; auto.
  - now intros ->.
  - intros [d' ->]. auto.
Qed.

Section UnzipBatchEffects.
Variable gunzip : bytes -> bytes * bool.

Lemma unzip_file_kinds (item : WorkItem) (w w1 : Unzip.World)
      (res : option str) (q : Path) :
  unzip_file gunzip item w = (Ok res, w1) ->
  same_kind (nodes w q) (nodes w1 q).
Proof.
  destruct item as [[src dst] ow]. intros H.
  apply unzip_file_effects in H as (Hq & Hk & _).
  destruct (path_eqb q (Path_of_str dst)) eqn:E.
  - apply path_eqb_true in E. now subst q.
  - rewrite (Hq q E). apply same_kind_refl.
Qed.

(** Processing a list of items one after another. *)
Lemma mapM_unzip_effects (l : list WorkItem) :
  forall (w w' : Unzip.World) (rs : list (option str)),
    Unzip.mapM (unzip_file gunzip) l w = (Ok rs, w') ->
    (forall q, (forall it, In it l ->
                           path_eqb q (Path_of_str (item_dest it)) = false) ->
               nodes w' q = nodes w q)
    /\ (forall q, same_kind (nodes w q) (nodes w' q))
    /\ (forall s, In (Some s) rs ->
          exists it, In it l
                     /\ s = str_of_Path (Path_of_str (item_dest it))
                     /\ is_file_in w' (Path_of_str (item_dest it)) = true).
Proof.
  induction l as [|x l IH]; intros w w' rs H.
  - cbn in H. injection H as <- <-.
    split; [reflexivity|]. split; [intros; apply same_kind_refl|].
    intros s [].
  - cbn [Unzip.mapM] in H. unfold Unzip.bind at 1 in H.
    destruct (unzip_file_total gunzip x w) as (r & w1 & Hx). rewrite Hx in H.
    unfold Unzip.bind at 1 in H.
    destruct (Unzip.mapM (unzip_file gunzip) l w1) as [[rs'|e] w2] eqn:Hl;
      [|discriminate].
    cbn in H. injection H as <- <-.
    destruct (IH w1 w2 rs' Hl) as (Hq & Hk & Hs).
    pose proof Hx as Hx'. destruct x as [[src dst] ow].
    apply unzip_file_effects in Hx' as (Hq1 & Hk1 & Hs1).
    split; [|split].
    + intros q Hall. rewrite Hq by (intros it Hit; apply Hall; now right).
      apply Hq1. apply (Hall (src, dst, ow)). now left.
    + intros q. eapply same_kind_trans; [|apply Hk].
      apply (unzip_file_kinds _ _ _ _ _ Hx).
    + intros s [Hin|Hin].
      * subst r. destruct (Hs1 s eq_refl) as [-> Hfile].
        exists (src, dst, ow). split; [now left|]. split; [reflexivity|].
        cbn [item_dest fst snd]. unfold is_file_in in *.
        pose proof (Hk (Path_of_str dst)) as Hkind. unfold same_kind in Hkind.
        destruct (nodes w1 (Path_of_str dst)) as [[|d]|]; try discriminate.
        destruct Hkind as [d' ->]. reflexivity.
      * destruct (Hs s Hin) as (it & Hit & Heq & Hf).
        exists it. split; [now right|]. split; assumption.
Qed.

Lemma filter_None_In (rs : list (option str)) (s : str) :
  In s (filter_None rs) -> In (Some s) rs.
Proof.
  induction rs as [|[[|c t]|] rs IH]; cbn; try tauto.
  intros [<-|H]; [now left|right; now apply IH].
Qed.
End UnzipBatchEffects.

(** X11.  A batch of triples writes nothing but the destinations of its
    items: every other path, the sources included, is as before.  Each
    path it reports as extracted is the destination of one of the items
    and names a regular file when the call returns. *)
Theorem X11_batch_writes_only_destinations
        (gunzip : bytes -> bytes * bool)
        (completion_order : list WorkItem -> list WorkItem)
        (items : list WorkItem) (dd : option str) (ow : bool)
        (w w' : Unzip.World) (d : str) (extracted : list str) :
  (forall l x, In x (completion_order l) -> In x l) ->
  unzip_xml_gz_files gunzip completion_order (SrcList (map item_of items))
                     dd ow w
  = (Ok (d, extracted), w') ->
  (forall q, (forall it, In it items ->
                         path_eqb q (Path_of_str (item_dest it)) = false) ->
             nodes w' q = nodes w q)
  /\ (forall s, In s extracted ->
        exists it, In it items
                   /\ s = str_of_Path (Path_of_str (item_dest it))
                   /\ is_file_in w' (Path_of_str (item_dest it)) = true).
Proof.
  intros Hord H.
  destruct items as [|i0 rest]; [cbn in H; discriminate|].
  destruct (unzip_batch_of_triples gunzip completion_order i0 rest dd ow w)
    as (rs & w2 & Hm & Hcall).
  rewrite Hcall in H. injection H as <- <- <-.
  destruct (mapM_unzip_effects gunzip _ _ _ _ Hm) as (Hq & _ & Hs).
  split.
  - intros q Hall. apply Hq. intros it Hit. apply Hall. now apply Hord.
  - intros s Hin. apply filter_None_In in Hin.
    destruct (Hs s Hin) as (it & Hit & Heq & Hf).
    exists it. split; [now apply Hord|]. split; assumption.
Qed.

Lemma X11_witness :
  exists w',
    unzip_xml_gz_files gunzip_magic (@rev WorkItem)
      (SrcList (map item_of [good_item; missing_item])) None false w_archive
    = (Ok (pystr "/out", [pystr "/out/a.xml"]), w')
    /\ nodes w' p_a_gz = nodes w_archive p_a_gz
    /\ is_file_in w' p_a_xml = true.
Proof.
  eexists. split; [reflexivity|].
  match goal with
  | |- nodes ?w' _ = _ /\ _ =>
      destruct (X11_batch_writes_only_destinations gunzip_magic (@rev WorkItem)
                  [good_item; missing_item] None false w_archive w'
                  (pystr "/out") [pystr "/out/a.xml"]) as [Hq Hs]
  end.
  - intros l x Hx. now apply in_rev.
  - reflexivity.
  - split.
    + apply Hq. intros it [<-|[<-|[]]]; reflexivity.
    + destruct (Hs (pystr "/out/a.xml") (or_introl eq_refl))
        as (it & Hit & Heq & Hf).
      destruct Hit as [<-|[<-|[]]]; [exact Hf|discriminate Heq].
Defined.

(** X12.  When the input is a list of triples, the batch-level
    [destination_directory] and [overwrite] arguments are not read: the
    call does the same whatever they are, each item following its own
    flag. *)
Theorem X12_triples_ignore_batch_arguments
        (gunzip : bytes -> bytes * bool)
        (completion_order : list WorkItem -> list WorkItem)
        (items : list WorkItem) (dd dd' : option str) (ow ow' : bool)
        (w : Unzip.World) :
  unzip_xml_gz_files gunzip completion_order (SrcList (map item_of items))
                     dd ow w
  = unzip_xml_gz_files gunzip completion_order (SrcList (map item_of items))
                       dd' ow' w.
Proof.
  unfold unzip_xml_gz_files, build_file_paths.
  now rewrite forallb_tuple3_items, as_tuples_items.
Qed.

(** X13.  An input that mixes shapes, or holds an element that is
    neither a path string nor a 3-tuple, raises [ValueError]; an input
    that is not a list raises [TypeError].  In both cases nothing has
    been created, written or logged. *)
Theorem X13_invalid_shapes_are_rejected_untouched
        (gunzip : bytes -> bytes * bool)
        (completion_order : list WorkItem -> list WorkItem)
        (l : list PyItem) (dd : option str) (ow : bool) (w : Unzip.World) :
  (forallb is_tuple3 l = false -> forallb is_str l = false ->
   unzip_xml_gz_files gunzip completion_order (SrcList l) dd ow w
   = (Raise ValueError, w))
  /\ unzip_xml_gz_files gunzip completion_order SrcOther dd ow w
     = (Raise TypeError, w).
Proof.
  split; [|reflexivity].
  intros Ht Hs. unfold unzip_xml_gz_files, build_file_paths.
  now rewrite Ht, Hs.
Qed.

Lemma X13_witness :
  forallb is_tuple3 [ItemStr (pystr "/in/a.xml.gz"); item_of good_item] = false
  /\ forallb is_str [ItemStr (pystr "/in/a.xml.gz"); item_of good_item] = false
  /\ unzip_xml_gz_files gunzip_magic (fun l => l)
       (SrcList [ItemStr (pystr "/in/a.xml.gz"); item_of good_item])
       None true w_archive
     = (Raise ValueError, w_archive).
Proof.
  split; [reflexivity|]. split; [reflexivity|].
  apply (proj1 (X13_invalid_shapes_are_rejected_untouched gunzip_magic
                  (fun l => l)
                  [ItemStr (pystr "/in/a.xml.gz"); item_of good_item]
                  None true w_archive)); reflexivity.
Defined.

(** ** One item with a readable source *)

Section UnzipOneItem.
Variable gunzip : bytes -> bytes * bool.

Lemma open_wb_writable (p : Path) (w : Unzip.World) :
  writable w p = true -> open_wb p w = (Ok tt, set_node w p (File [])).
Proof.
  unfold writable, open_wb, is_dir_in.
  destruct (nodes w p) as [[|d]|].
  - discriminate.
  - now destruct (denied w p).
  - destruct (nodes w (parent p)) as [[|d]|]; try discriminate.
    now destruct (denied w (parent p)).
Qed.

Lemma decompress_copy_readable (sp dp : Path) (w : Unzip.World) (raw : bytes) :
  nodes w sp = Some (File raw) -> denied w sp = false ->
  path_eqb sp dp = false -> writable w dp = true ->
  decompress_copy gunzip sp dp w
  = (if snd (gunzip raw) then Ok tt else Raise BadGzipFile,
     set_node (set_node w dp (File [])) dp (File (fst (gunzip raw)))).
Proof.
  intros Hs Hd Hne Hw.
  unfold decompress_copy, Unzip.bind, gzip_open_rb. rewrite Hs, Hd.
  rewrite (open_wb_writable dp w Hw).
  unfold copyfileobj. rewrite nodes_set_node_other by exact Hne.
  rewrite Hs. destruct (gunzip raw) as [out []]; reflexivity.
Qed.
End UnzipOneItem.

(** X14.  One item whose source is a readable file other than the
    destination, with a destination that can be opened for writing and
    is either absent or allowed to be overwritten.  The destination ends
    up holding what the decoder delivered and the source is unchanged.
    If the stream was sound the destination is returned and
    ["Extracted"] is logged; if not, [None] is returned, the error is
    logged, and the partial output stays in place.  Either way a later
    run for the same destination without [overwrite] is skipped: a
    failed extraction is not retried. *)
Theorem X14_one_item_with_readable_source
        (gunzip : bytes -> bytes * bool) (src dst : str) (ow : bool)
        (w : Unzip.World) (raw : bytes) :
  nodes w (Path_of_str src) = Some (File raw) ->
  denied w (Path_of_str src) = false ->
  path_eqb (Path_of_str src) (Path_of_str dst) = false ->
  writable w (Path_of_str dst) = true ->
  (nodes w (Path_of_str dst) = None \/ ow = true) ->
  exists w1,
    unzip_file gunzip (src, dst, ow) w
    = (Ok (if snd (gunzip raw) then Some (str_of_Path (Path_of_str dst))
           else None), w1)
    /\ nodes w1 (Path_of_str dst) = Some (File (fst (gunzip raw)))
    /\ nodes w1 (Path_of_str src) = Some (File raw)
    /\ log w1
       = log w ++ [if snd (gunzip raw) then InfoExtracted (Path_of_str dst)
                   else ErrorExtracting src BadGzipFile]
    /\ forall src',
        unzip_file gunzip (src', dst, false) w1
        = (Ok None, add_log w1 (InfoSkipping (Path_of_str dst))).
Proof.
  intros Hs Hd Hne Hw Hno.
  assert (Hskip : match nodes w (Path_of_str dst) with
                  | Some _ => true
                  | None => false
                  end && negb ow = false).
  { destruct Hno as [-> | ->]; [reflexivity|].
    now destruct (nodes w (Path_of_str dst)). }
  rewrite unzip_file_cases, Hskip.
  rewrite (decompress_copy_readable gunzip _ _ w raw Hs Hd Hne Hw).
  set (w2 := set_node (set_node w (Path_of_str dst) (File []))
                      (Path_of_str dst) (File (fst (gunzip raw)))).
  exists (add_log w2 (if snd (gunzip raw)
                      then InfoExtracted (Path_of_str dst)
                      else ErrorExtracting src BadGzipFile)).
  split; [now destruct (snd (gunzip raw))|].
  assert (Hdst : nodes w2 (Path_of_str dst) = Some (File (fst (gunzip raw))))
    by apply nodes_set_node_same.
  split; [exact Hdst|].
  split.
  { cbn. now rewrite Hne. }
  split; [reflexivity|].
  intros src'. rewrite unzip_file_cases. cbn [nodes add_log].
  now rewrite Hdst.
Qed.

Lemma X14_witness :
  exists w1,
    unzip_file gunzip_magic good_item w_archive
    = (Ok (Some (pystr "/out/a.xml")), w1)
    /\ nodes w1 p_a_xml
       = Some (File [Byte.x3c; Byte.x61; Byte.x2f; Byte.x3e])
    /\ unzip_file gunzip_magic good_item w1
       = (Ok None, add_log w1 (InfoSkipping p_a_xml)).
Proof.
  destruct (X14_one_item_with_readable_source gunzip_magic
              (pystr "/in/a.xml.gz") (pystr "/out/a.xml") false w_archive
              [Byte.x1f; Byte.x8b; Byte.x3c; Byte.x61; Byte.x2f; Byte.x3e]
              eq_refl eq_refl eq_refl eq_refl (or_introl eq_refl))
    as (w1 & H1 & H2 & _ & _ & H5).
  exists w1. split; [exact H1|]. split; [exact H2|].
  apply (H5 (pystr "/in/a.xml.gz")).
Defined.

(** ** Paths and their strings *)

Lemma ascii_eqb_false (a b : ascii) : a <> b -> ascii_eqb a b = false.
Proof. intros H. now apply Ascii.eqb_neq. Qed.

Lemma split_no_sep (c : ascii) (x : str) :
  ~ In c x -> split c x = [x].
Proof.
  induction x as [|a x IH]; intros H; [reflexivity|].
  cbn [split]. rewrite ascii_eqb_false by (intros ->; apply H; now left).
  rewrite IH; [reflexivity|]. intros Hin. apply H. now right.
Qed.

Lemma split_app_sep (c : ascii) (x t : str) :
  ~ In c x -> split c (x ++ c :: t) = x :: split c t.
Proof.
  induction x as [|a x IH]; intros H; cbn [split app].
  - now rewrite ascii_eqb_refl.
  - rewrite ascii_eqb_false by (intros ->; apply H; now left).
    rewrite IH; [reflexivity|]. intros Hin. apply H. now right.
Qed.

Lemma split_join (c : ascii) (ps : list str) :
  ps <> [] -> Forall (fun x => ~ In c x) ps -> split c (join [c] ps) = ps.
Proof.
  induction ps as [|x ps IH]; [congruence|]. intros _ H.
  inversion H as [|? ? Hx Hps]; subst.
  destruct ps as [|y ps].
  - cbn [join]. now apply split_no_sep.
  - change (join [c] (x :: y :: ps)) with (x ++ c :: join [c] (y :: ps)).
    rewrite split_app_sep by exact Hx. f_equal. apply IH; [discriminate|exact Hps].
Qed.

Lemma is_component_wf (x : str) : wf_component x -> is_component x = true.
Proof.
  intros (H1 & H2 & _). unfold is_component.
  destruct (str_eqb x []) eqn:E1; [apply str_eqb_true in E1; congruence|].
  destruct (str_eqb x [dot]) eqn:E2; [apply str_eqb_true in E2; congruence|].
  reflexivity.
Qed.

Lemma filter_components (ps : list str) :
  Forall wf_component ps -> filter is_component ps = ps.
Proof.
  induction 1 as [|x ps Hx Hps IH]; [reflexivity|].
  cbn. now rewrite (is_component_wf x Hx), IH.
Qed.

Lemma join_head (sep x : str) (ps : list str) :
  exists t, join sep (x :: ps) = x ++ t.
Proof.
  destruct ps as [|y ps].
  - exists []. cbn. now rewrite app_nil_r.
  - eexists. reflexivity.
Qed.

(** [Path(str(p))] is [p]. *)
Lemma path_of_str_of_path (p : Path) :
  wf_path p -> Path_of_str (str_of_Path p) = p.
Proof.
  destruct p as [r ps]. unfold wf_path. cbn [parts]. intros Hwf.
  destruct ps as [|x ps].
  - destruct r; reflexivity.
  - assert (Hsplit : split slash (join [slash] (x :: ps)) = x :: ps).
    { apply split_join; [discriminate|].
      eapply Forall_impl; [|exact Hwf]. intros a (_ & _ & Ha). exact Ha. }
    inversion Hwf as [|? ? Hx _]; subst.
    destruct Hx as (Hne & _ & Hns).
    destruct x as [|c0 x']; [congruence|].
    assert (Hc0 : ascii_eqb c0 slash = false).
    { apply ascii_eqb_false. intros ->. apply Hns. now left. }
    destruct (join_head [slash] (c0 :: x') ps) as [t Ht].
    unfold Path_of_str, str_of_Path. cbn [root parts].
    assert (Hroot : splitroot (root_str r ++ join [slash] ((c0 :: x') :: ps))
                    = (r, join [slash] ((c0 :: x') :: ps))).
    { unfold str in Ht |- *. rewrite Ht.
      destruct r; cbn; rewrite ?Hc0; reflexivity. }
    pose proof (filter_components _ Hwf) as Hfilter.
    unfold str in Hroot, Hsplit, Hfilter |- *.
    destruct r; rewrite Hroot, Hsplit, Hfilter; reflexivity.
Qed.

Lemma path_of_component (s : str) :
  wf_component s -> Path_of_str s = mkPath NoRoot [s].
Proof.
  intros Hwf. pose proof Hwf as (Hne & _ & Hns).
  destruct s as [|c0 s']; [congruence|].
  unfold Path_of_str.
  assert (Hc0 : ascii_eqb c0 slash = false).
  { apply ascii_eqb_false. intros ->. apply Hns. now left. }
  assert (Hroot : splitroot (c0 :: s') = (NoRoot, c0 :: s'))
    by (cbn; now rewrite Hc0).
  rewrite Hroot, (split_no_sep slash _ Hns). cbn [filter].
  now rewrite (is_component_wf _ Hwf).
Qed.

Lemma parent_joinpath_component (d : Path) (s : str) :
  wf_path d -> wf_component s ->
  parent (Path_of_str (str_of_Path (joinpath d s))) = d.
Proof.
  intros Hd Hs. unfold joinpath. rewrite (path_of_component s Hs). cbn [root parts].
  rewrite path_of_str_of_path.
  - unfold parent. cbn [root parts]. rewrite removelast_last. now destruct d.
  - unfold wf_path. cbn [parts]. apply Forall_app. split; [exact Hd|].
    constructor; [exact Hs|constructor].
Qed.

Lemma joinpath_nameless (d : Path) (s : str) :
  s = [] \/ s = [dot] -> joinpath d s = d.
Proof.
  intros [-> | ->]; unfold joinpath; cbn; rewrite app_nil_r; now destruct d.
Qed.

(** ** The directory a batch of bare paths reports *)

Lemma chosen_destination_value (first : str) (dd : option str)
      (w : Unzip.World) :
  chosen_destination first dd w = (Ok (destination_value w first dd), w).
Proof.
  unfold chosen_destination, Unzip.bind, path_resolve, destination_value.
  destruct dd as [[|c s]|]; reflexivity.
Qed.

Lemma build_file_paths_of_strs (first : str) (rest : list str)
      (dd : option str) (ow : bool) (w : Unzip.World) :
  build_file_paths (map ItemStr (first :: rest)) dd ow w
  = match path_mkdir (destination_value w first dd) true true w with
    | (Ok _, w1) =>
        (Ok (map (derived_item w (destination_value w first dd) ow)
                 (first :: rest)), w1)
    | (Raise e, w1) => (Raise e, w1)
    end.
Proof.
  unfold build_file_paths.
  rewrite forallb_str_items, as_strs_items.
  change (forallb is_tuple3 (map ItemStr (first :: rest))) with false.
  cbv iota.
  unfold Unzip.bind at 1. rewrite chosen_destination_value.
  unfold Unzip.bind at 1.
  pose proof (mkdir_rec_resolve (length (parts (destination_value w first dd)))
                (destination_value w first dd) true true w) as Hres.
  fold (path_mkdir (destination_value w first dd) true true) in Hres.
  destruct (path_mkdir (destination_value w first dd) true true w)
    as [[u|e] w1]; [|reflexivity].
  cbn in Hres. rewrite mapM_derived. unfold derived_item. now rewrite Hres.
Qed.

(** X15.  For a batch of bare paths the reported directory is computed
    back from the destination of the first item.  When the stem of the
    first source is a proper path component, a call that returns reports
    the directory it chose and created.  When the first source has no
    stem to speak of (its name is empty, as for ["."] or ["/"], or its
    stem is a single dot, as for ["..x"]), that item's destination is
    the directory itself and the call reports the directory's parent. *)
Theorem X15_reported_directory_of_bare_paths
        (gunzip : bytes -> bytes * bool)
        (completion_order : list WorkItem -> list WorkItem)
        (first : str) (rest : list str) (dd : option str) (ow : bool)
        (w w' : Unzip.World) (reported : str) (extracted : list str) :
  wf_path (destination_value w first dd) ->
  unzip_xml_gz_files gunzip completion_order
    (SrcList (map ItemStr (first :: rest))) dd ow w
  = (Ok (reported, extracted), w') ->
  (wf_component (stem (Path_of_str first)) ->
   reported = str_of_Path (destination_value w first dd)
   /\ is_dir_in w' (destination_value w first dd) = true)
  /\ (stem (Path_of_str first) = [] \/ stem (Path_of_str first) = [dot] ->
      reported = str_of_Path (parent (destination_value w first dd))).
Proof.
  intros Hwf H.
  set (d := destination_value w first dd) in *.
  unfold unzip_xml_gz_files in H. unfold Unzip.bind at 1 in H.
  rewrite build_file_paths_of_strs in H. fold d in H.
  pose proof (mkdir_rec_Ok (length (parts d)) d true true w) as Hdir.
  fold (path_mkdir d true true) in Hdir.
  destruct (path_mkdir d true true w) as [[u|e] w1]; [|discriminate].
  destruct u. specialize (Hdir w1 eq_refl).
  cbn [map] in H. unfold derived_item at 1 in H.
  unfold Unzip.bind at 1 in H. cbn [Unzip.ret] in H.
  unfold Unzip.bind at 1, imap_unordered in H.
  destruct (Unzip.mapM (unzip_file gunzip) _ w1) as [[rs|e] w2] eqn:Hm;
    [|discriminate].
  cbn [Unzip.ret] in H. injection H as <- <- <-.
  split.
  - intros Hstem. split.
    + now rewrite (parent_joinpath_component d _ Hwf Hstem).
    + apply mapM_unzip_effects in Hm as (_ & Hk & _).
      specialize (Hk d). unfold same_kind in Hk. rewrite Hdir in Hk.
      unfold is_dir_in. now rewrite Hk.
  - intros Hstem. rewrite (joinpath_nameless d _ Hstem).
    now rewrite (path_of_str_of_path d Hwf).
Qed.

Lemma X15_witness :
  wf_path (destination_value w_archive (pystr "/in/a.xml.gz") None)
  /\ wf_component (stem (Path_of_str (pystr "/in/a.xml.gz")))
  /\ exists w',
      unzip_xml_gz_files gunzip_magic (fun l => l)
        (SrcList (map ItemStr [pystr "/in/a.xml.gz"])) None false w_archive
      = (Ok (pystr "/in/unzipped", [pystr "/in/unzipped/a.xml"]), w')
      /\ pystr "/in/unzipped"
         = str_of_Path (destination_value w_archive (pystr "/in/a.xml.gz") None).
Proof.
  assert (Hno : forall s : str, existsb (ascii_eqb slash) s = false ->
                                ~ In slash s).
  { intros s Hs Hin.
    assert (existsb (ascii_eqb slash) s = true).
    { apply existsb_exists. exists slash. split; [exact Hin|apply ascii_eqb_refl]. }
    congruence. }
  assert (Hwf : wf_path (destination_value w_archive (pystr "/in/a.xml.gz") None)).
  { repeat constructor; try discriminate; now apply Hno. }
  assert (Hst : wf_component (stem (Path_of_str (pystr "/in/a.xml.gz")))).
  { repeat constructor; try discriminate; now apply Hno. }
  split; [exact Hwf|]. split; [exact Hst|].
  eexists. split; [reflexivity|].
  match goal with
  | |- _ = str_of_Path (destination_value ?w ?f ?dd) =>
      exact (proj1 (proj1 (X15_reported_directory_of_bare_paths gunzip_magic
                             (fun l => l) f [] dd false w _ _ _ Hwf eq_refl)
                          Hst))
  end.
Defined.

(* ================================================================= *)
(** ** [search_files] and [find_one] *)

Section SearchProperties.
Import Discovery Search.
Variable w : Discovery.World.
Variable re_compile : str -> bool -> option (str -> bool).

Lemma In_firstn {A : Type} (n : nat) (l : list A) (x : A) :
  In x (firstn n l) -> In x l.
Proof.
  intros H. rewrite <- (firstn_skipn n l). apply in_or_app. now left.
Qed.

Lemma fst_let_pair {A B C : Type} (x : A * B) (f : B -> C) :
  fst (let '(r, t) := x in (r, f t)) = fst x.
Proof. now destruct x. Qed.

Lemma snd_let_pair {A B C : Type} (x : A * B) (f : B -> C) :
  snd (let '(r, t) := x in (r, f t)) = f (snd x).
Proof. now destruct x. Qed.

Lemma cap_reached_limit (max_results : option Z) (out : list Path) (p : Path) :
  cap_reached max_results (out ++ [p]) =
  match limit max_results with
  | None => false
  | Some n => (n <=? length (out ++ [p]))%nat
  end.
Proof.
  unfold cap_reached, limit. destruct max_results as [m|]; [|reflexivity].
  destruct (Z.eqb_spec m 0) as [->|Hm0]; [reflexivity|]. cbn [negb andb].
  destruct (Z.ltb_spec m 0) as [Hneg|Hpos].
  - rewrite length_app. cbn [length].
    replace (1 <=? length out + 1)%nat with true
      by (symmetry; apply Nat.leb_le; lia).
    apply Z.leb_le. lia.
  - destruct (Z.leb_spec m (Z.of_nat (length (out ++ [p])))) as [H|H];
      symmetry; [apply Nat.leb_le | apply Nat.leb_gt]; lia.
Qed.

(** The candidates of a loop run, as the enumeration yields them. *)
Lemma search_loop_value (only_files : bool) (rx : option (str -> bool))
      (max_results : option Z) (yielded out : list Path) :
  (forall n, limit max_results = Some n -> (length out < n)%nat) ->
  fst (search_loop w only_files rx max_results yielded out) =
  let found := out ++ matches rx (if only_files
                                  then filter (fs_is_file w) yielded
                                  else yielded) in
  match limit max_results with
  | None => found
  | Some n => firstn n found
  end.
Proof.
  revert out. induction yielded as [|p rest IH]; intros out Hout.
  - cbn. destruct only_files; cbn; rewrite app_nil_r;
      destruct (limit max_results) as [n|] eqn:Hl; try reflexivity;
      symmetry; apply firstn_all2; specialize (Hout n eq_refl); lia.
  - cbn [search_loop].
    destruct (only_files && negb (fs_is_file w p)) eqn:Hskip.
    + rewrite fst_let_pair, (IH out Hout).
      apply andb_true_iff in Hskip as [-> Hf]. apply negb_true_iff in Hf.
      cbn [filter]. now rewrite Hf.
    + assert (Hkeep : (if only_files then filter (fs_is_file w) (p :: rest)
                       else p :: rest)
                      = p :: (if only_files then filter (fs_is_file w) rest
                              else rest)).
      { destruct only_files; [|reflexivity]. cbn in Hskip.
        apply negb_false_iff in Hskip. cbn [filter]. now rewrite Hskip. }
      cbv zeta. rewrite Hkeep.
      assert (Hm : forall l, matches rx (p :: l)
                   = if negb (rejected rx p) then p :: matches rx l
                     else matches rx l) by reflexivity.
      rewrite !Hm.
      destruct (rejected rx p) eqn:Hrej; cbn [negb].
      * rewrite fst_let_pair. apply (IH out Hout).
      * rewrite cap_reached_limit.
        destruct (limit max_results) as [n|] eqn:Hl.
        -- destruct (Nat.leb_spec n (length (out ++ [p]))) as [Hn|Hn].
           ++ cbn [fst]. specialize (Hout n eq_refl).
              rewrite length_app in Hn. cbn [length] in Hn.
              replace (out ++ p :: matches rx _)
                with ((out ++ [p]) ++ matches rx
                        (if only_files then filter (fs_is_file w) rest else rest))
                by now rewrite <- app_assoc.
              rewrite firstn_app.
              replace (n - length (out ++ [p]))%nat with 0%nat
                by (rewrite length_app; cbn [length]; lia).
              rewrite firstn_O, app_nil_r. symmetry. apply firstn_all2.
              rewrite length_app. cbn [length]. lia.
           ++ rewrite fst_let_pair, IH.
              ** cbv zeta. now rewrite <- app_assoc.
              ** intros n' Hn'. congruence.
        -- rewrite fst_let_pair, IH.
           ++ cbv zeta. now rewrite <- app_assoc.
           ++ discriminate.
Qed.

End SearchProperties.

Import Search.

(** X16.  A missing root ends the search at once with an empty list: only
    the existence of the root is asked for, and the regular expression is
    not compiled, so an invalid one goes unnoticed.  [re.error] is raised
    exactly when the root exists and a non-empty expression does not
    compile, and then before anything is enumerated. *)
Theorem X16_search_errors_and_missing_root
        (w : Discovery.World) (re_compile : str -> bool -> option (str -> bool))
        (root : PyDir) (pattern regex : option str) (ci : bool)
        (max_results : option Z) :
  let call := search_files w re_compile root pattern regex ci max_results in
  (fs_exists w (Path_of_dir root) = false ->
   call = (Returned [], [EvExists (Path_of_dir root)])
   /\ find_one w re_compile root pattern regex ci
      = (Returned None, [EvExists (Path_of_dir root)]))
  /\ (fst call = RaisedReError <->
      fs_exists w (Path_of_dir root) = true
      /\ exists c r, regex = Some (c :: r) /\ re_compile (c :: r) ci = None)
  /\ (fst call = RaisedReError -> snd call = [EvExists (Path_of_dir root)]).
Proof.
  cbv zeta. split; [|split].
  - intros Hex. unfold find_one, search_files. now rewrite Hex.
  - unfold search_files.
    destruct (fs_exists w (Path_of_dir root)) eqn:Hex; cbn [negb].
    + unfold compile_regex.
      destruct regex as [[|c r]|].
      * destruct (search_loop _ _ _ _ _ _); cbn.
        split; [discriminate|]. intros [_ (c & r & H & _)]. discriminate.
      * destruct (re_compile (c :: r) ci) eqn:Hc.
        -- destruct (search_loop _ _ _ _ _ _); cbn.
           split; [discriminate|]. intros [_ (c' & r' & H & H')].
           injection H as <- <-. congruence.
        -- cbn. split; [|reflexivity]. intros _. split; [reflexivity|].
           now exists c, r.
      * destruct (search_loop _ _ _ _ _ _); cbn.
        split; [discriminate|]. intros [_ (c & r & H & _)]. discriminate.
    + cbn. split; [discriminate|]. intros [H _]. discriminate.
  - unfold search_files.
    destruct (fs_exists w (Path_of_dir root)); cbn [negb]; [|discriminate].
    destruct (compile_regex re_compile regex ci); [|reflexivity].
    destruct (search_loop _ _ _ _ _ _); cbn. discriminate.
Qed.

Lemma X16_witness :
  re_plain (pystr "(") true = None
  /\ search_files Discovery.w_data re_plain (DStr (pystr "/nowhere")) None
                  (Some (pystr "(")) true None
     = (Returned [], [EvExists (Path_of_str (pystr "/nowhere"))])
  /\ fst (search_files Discovery.w_data re_plain (DStr (pystr "/data")) None
                       (Some (pystr "(")) true None)
     = RaisedReError.
Proof.
  pose proof (X16_search_errors_and_missing_root
                Discovery.w_data re_plain (DStr (pystr "/nowhere")) None
                (Some (pystr "(")) true None) as H.
  pose proof (X16_search_errors_and_missing_root
                Discovery.w_data re_plain (DStr (pystr "/data")) None
                (Some (pystr "(")) true None) as H'.
  cbv zeta in H, H'. destruct H as [H _]. destruct H' as [_ [H' _]].
  split; [reflexivity|]. split.
  - exact (proj1 (H eq_refl)).
  - apply H'. split; [reflexivity|].
    exists "("%char, []. split; reflexivity.
Defined.

(** X17.  Under an existing root and with an expression that compiles (or
    none), [search_files] returns the candidates the expression accepts,
    in the order of the enumeration, cut at the limit: no cut for
    [max_results] [None] or 0, the first [max_results] for a positive
    one, and the first one alone for a negative one.  The candidates are
    all enumerated entries when a pattern is given, directories included,
    and the files among them otherwise. *)
Theorem X17_search_results
        (w : Discovery.World) (re_compile : str -> bool -> option (str -> bool))
        (root : PyDir) (pattern regex : option str) (ci : bool)
        (max_results : option Z) (rx : option (str -> bool)) :
  fs_exists w (Path_of_dir root) = true ->
  compile_regex re_compile regex ci = Some rx ->
  let found := matches rx (candidates w root pattern) in
  fst (search_files w re_compile root pattern regex ci max_results)
  = Returned (limited max_results found)
  /\ (forall p, In p (limited max_results found) ->
      rejected rx p = false
      /\ In p (fs_glob w (Path_of_dir root) (rglob_pattern pattern))
      /\ (given pattern = false -> fs_is_file w p = true))
  /\ (forall m, max_results = Some m -> m <> 0 ->
      (Z.of_nat (length (limited max_results found)) <= Z.max m 1)).
Proof.
  intros Hex Hrx found. split; [|split].
  - unfold search_files. rewrite Hex, Hrx. cbn [negb].
    pose proof (search_loop_value w (negb (given pattern)) rx max_results
                  (fs_glob w (Path_of_dir root) (rglob_pattern pattern)) [])
      as Hv.
    destruct (search_loop _ _ _ _ _ _) as [out t]. cbn [fst] in Hv |- *.
    rewrite Hv.
    + cbv zeta. cbn [app]. unfold limited, found, candidates.
      now destruct (given pattern).
    + intros n Hn. cbn [length]. unfold limit in Hn.
      destruct max_results as [m|]; [|discriminate].
      destruct (Z.eqb_spec m 0); [discriminate|].
      destruct (Z.ltb_spec m 0); injection Hn as <-; lia.
  - intros p Hp.
    assert (Hin : In p found).
    { unfold limited in Hp. destruct (limit max_results); [|exact Hp].
      eapply In_firstn. exact Hp. }
    unfold found, matches in Hin. apply filter_In in Hin as [Hc Hr].
    apply negb_true_iff in Hr. split; [exact Hr|].
    unfold candidates in Hc. destruct (given pattern).
    + split; [exact Hc|discriminate].
    + apply filter_In in Hc as [Hg Hf]. now split.
  - intros m -> Hm. unfold limited, limit.
    destruct (Z.eqb_spec m 0); [contradiction|].
    destruct (Z.ltb_spec m 0).
    + pose proof (firstn_le_length 1 found). lia.
    + pose proof (firstn_le_length (Z.to_nat m) found). lia.
Qed.

Lemma X17_witness :
  exists rx,
    Search.compile_regex Search.re_plain (Some (pystr "B")) true = Some rx
    /\ fst (Search.search_files Discovery.w_data Search.re_plain
                                (DStr (pystr "/data")) None (Some (pystr "B"))
                                true (Some (-3)%Z))
       = Search.Returned [Discovery.b_txt].
Proof.
  eexists. split; [reflexivity|].
  refine (eq_trans (proj1 (X17_search_results Discovery.w_data Search.re_plain
                             (DStr (pystr "/data")) None (Some (pystr "B"))
                             true (Some (-3)%Z) _ eq_refl eq_refl)) _).
  vm_compute. reflexivity.
Defined.

Lemma search_loop_first (w : Discovery.World) (only_files : bool)
      (rx : option (str -> bool)) (yielded : list Path) :
  let run := search_loop w only_files rx (Some 1%Z) yielded [] in
  (fst run = []
   /\ Forall (fun q => accepted w only_files rx q = false) yielded
   /\ snd run = visits only_files yielded)
  \/ (exists p l1 l2,
        fst run = [p]
        /\ yielded = l1 ++ p :: l2
        /\ accepted w only_files rx p = true
        /\ Forall (fun q => accepted w only_files rx q = false) l1
        /\ snd run = visits only_files (l1 ++ [p])).
Proof.
  cbv zeta. induction yielded as [|q rest IH].
  - left. cbn. repeat split; [constructor | now destruct only_files].
  - assert (Hvis : forall l, visits only_files (q :: l)
                   = (if only_files then [EvIsFile q] else [])
                       ++ visits only_files l)
      by (intros l; now destruct only_files).
    cbn [search_loop].
    destruct (only_files && negb (fs_is_file w q)) eqn:Hskip;
      [|destruct (rejected rx q) eqn:Hrej].
    3:{ right. exists q, [], rest. cbn [app cap_reached length].
        change (negb (1 =? 0)%Z && (1 <=? Z.of_nat 1)%Z) with true. cbv iota.
        split; [reflexivity|]. split; [reflexivity|]. split.
        - unfold accepted. rewrite Hrej.
          destruct only_files; [|reflexivity]. cbn in Hskip |- *.
          apply negb_false_iff in Hskip. now rewrite Hskip.
        - split; [constructor|]. now destruct only_files. }
    all: assert (Hno : accepted w only_files rx q = false)
      by (unfold accepted;
          first [ apply andb_true_iff in Hskip as [-> Hf];
                  apply negb_true_iff in Hf; now rewrite Hf
                | rewrite Hrej; apply andb_false_r ]).
    all: rewrite fst_let_pair, snd_let_pair.
    all: destruct IH as [(Hr & Hall & Ht) | (p & l1 & l2 & Hr & Hy & Hp & Hall & Ht)].
    all: try (left; split; [exact Hr|]; split;
              [now constructor | now rewrite Ht, Hvis]).
    all: right; exists p, (q :: l1), l2; split; [exact Hr|]; split;
      [now rewrite Hy|]; split; [exact Hp|]; split;
      [now constructor|]; cbn [app]; now rewrite Ht, Hvis.
Qed.

(** X18.  [find_one] returns the first enumerated entry that is kept (a
    file when no pattern is given, and accepted by the expression), or
    [None] when there is none.  Nothing after that entry is looked at:
    without a pattern the [is_file] tests are those of the entries up to
    and including the one returned, and with a pattern no test is made
    at all. *)
Theorem X18_find_one_stops_at_first_match
        (w : Discovery.World) (re_compile : str -> bool -> option (str -> bool))
        (root : PyDir) (pattern regex : option str) (ci : bool)
        (rx : option (str -> bool)) :
  fs_exists w (Path_of_dir root) = true ->
  compile_regex re_compile regex ci = Some rx ->
  let only_files := negb (given pattern) in
  let yielded := fs_glob w (Path_of_dir root) (rglob_pattern pattern) in
  let opening := [EvExists (Path_of_dir root);
                  EvGlob (Path_of_dir root) (rglob_pattern pattern)] in
  (find_one w re_compile root pattern regex ci
   = (Returned None, opening ++ visits only_files yielded)
   /\ Forall (fun q => accepted w only_files rx q = false) yielded)
  \/ (exists p l1 l2,
        find_one w re_compile root pattern regex ci
        = (Returned (Some p), opening ++ visits only_files (l1 ++ [p]))
        /\ yielded = l1 ++ p :: l2
        /\ accepted w only_files rx p = true
        /\ Forall (fun q => accepted w only_files rx q = false) l1).
Proof.
  intros Hex Hrx only_files yielded opening.
  unfold find_one, search_files. rewrite Hex, Hrx. cbn [negb].
  fold only_files yielded.
  pose proof (search_loop_first w only_files rx yielded) as H. cbv zeta in H.
  destruct (search_loop w only_files rx (Some 1%Z) yielded []) as [out t].
  cbn [fst snd] in H.
  destruct H as [(-> & Hall & ->) | (p & l1 & l2 & -> & Hy & Hp & Hall & ->)].
  - left. now split.
  - right. exists p, l1, l2. now repeat split.
Qed.

Lemma X18_witness :
  exists rx,
    compile_regex re_plain (Some (pystr "B")) true = Some rx
    /\ find_one Discovery.w_data re_plain (DStr (pystr "/data")) None
                (Some (pystr "B")) true
       = (Returned (Some Discovery.b_txt),
          [EvExists Discovery.data_dir;
           EvGlob Discovery.data_dir (pystr "**/*");
           EvIsFile Discovery.a_txt; EvIsFile Discovery.b_txt]).
Proof.
  eexists. split; [reflexivity|].
  destruct (X18_find_one_stops_at_first_match
              Discovery.w_data re_plain (DStr (pystr "/data")) None
              (Some (pystr "B")) true _ eq_refl eq_refl)
    as [[_ _] | _]; vm_compute; reflexivity.
Defined.

(* ================================================================= *)
(** ** [run_multiprocessing] *)

Section PoolFacts.
Import MultiProc.
Context {A B : Type}.

Lemma values_of_successes (rs : list (Result B)) (out : list B) :
  (failures rs = [] /\ values rs = out) <-> map Ok out = rs.
Proof.
  revert out. induction rs as [|[b|e] rs IH]; intros out; cbn.
  - split.
    + now intros [_ <-].
    + destruct out; [now split | discriminate].
  - split.
    + intros [Hf <-]. cbn. f_equal. now apply IH.
    + destruct out as [|b' out]; [discriminate|]. cbn.
      intros H. injection H as -> H. apply IH in H as [Hf <-]. now split.
  - split.
    + intros [Hf _]. discriminate.
    + destruct out; discriminate.
Qed.

Lemma pool_map_ok (func : A -> Result B) (unpicklable : list A -> list Exn)
      (first_to_arrive : list Exn -> Exn)
      (inputs : list A) (out : list B) :
  pool_map func unpicklable first_to_arrive inputs = Ok out
  <-> unpicklable inputs = [] /\ map Ok out = map func inputs.
Proof.
  unfold pool_map. rewrite <- values_of_successes.
  destruct (unpicklable inputs) as [|e es]; cbn [app].
  - destruct (failures (map func inputs)).
    + split.
      * intros H. injection H as <-. now repeat split.
      * now intros [_ [_ ->]].
    + split; [discriminate | intros [_ [H _]]; discriminate].
  - split; [discriminate | intros [H _]; discriminate].
Qed.

End PoolFacts.

Import MultiProc.

(** X19.  [run_multiprocessing] returns a list exactly when the number of
    workers it settles on ([num_workers], or one less than the CPU count
    when that is [None] or 0) is at least one, the function, the inputs
    and the results can all be pickled, and the function succeeds on
    every input; the list then holds the function's values in the order
    of the inputs, one for each. *)
Theorem X19_pool_results_follow_inputs
        {A B : Type} (cpu_count : Z) (func : A -> Result B)
        (unpicklable : list A -> list Exn)
        (first_to_arrive : list Exn -> Exn) (inputs : list A)
        (num_workers : option Z) (out : list B) :
  run_multiprocessing cpu_count func unpicklable first_to_arrive inputs
                      num_workers
  = Ok out
  <-> (1 <= workers cpu_count num_workers)%Z
      /\ unpicklable inputs = []
      /\ map Ok out = map func inputs.
Proof.
  unfold run_multiprocessing, Pool.
  destruct (Z.ltb_spec (workers cpu_count num_workers) 1) as [Hw|Hw].
  - split; [discriminate | intros [H _]; lia].
  - rewrite pool_map_ok. split; [now split | now intros [_ H]].
Qed.

(** X20.  With a negative [num_workers], or with [num_workers] [None] or
    0 on a machine with a single CPU, the call raises [ValueError] from
    the pool's constructor, whatever the function and the inputs are. *)
Theorem X20_no_worker_raises_value_error
        {A B : Type} (cpu_count : Z) (func : A -> Result B)
        (unpicklable : list A -> list Exn)
        (first_to_arrive : list Exn -> Exn) (inputs : list A)
        (num_workers : option Z) :
  (exists n, num_workers = Some n /\ (n < 0)%Z)
  \/ ((num_workers = None \/ num_workers = Some 0%Z) /\ (cpu_count <= 1)%Z) ->
  run_multiprocessing cpu_count func unpicklable first_to_arrive inputs
                      num_workers
  = Raise ValueError.
Proof.
  intros H. unfold run_multiprocessing, Pool.
  assert (Hw : (workers cpu_count num_workers < 1)%Z).
  { unfold workers. destruct H as [(n & -> & Hn) | [[-> | ->] Hc]].
    - destruct (Z.eqb_spec n 0); lia.
    - lia.
    - cbn. lia. }
  apply Z.ltb_lt in Hw. now rewrite Hw.
Qed.

Lemma X20_witness :
  run_multiprocessing 1 (fun n : nat => Ok (S n)) (fun _ => [])
                      (fun _ => OSError) [1; 2; 3]%nat None
  = Raise ValueError.
Proof.
  apply X20_no_worker_raises_value_error.
  right. split; [now left | lia].
Defined.

(** A function that cannot be pickled: it succeeds on every input, and
    the call raises all the same. *)
Example lambda_cannot_be_pickled :
  run_multiprocessing 4 (fun n : nat => Ok (S n)) (fun _ => [PicklingError])
                      (fun l => hd OSError l) [1; 2; 3]%nat None
  = Raise PicklingError.
Proof. reflexivity. Qed.

(* ================================================================= *)
(** ** Attaching functions as methods *)

Import Attach.















(* ================================================================= *)
(** ** Searching again with the recorded arguments *)

(** X23.  The [args] record of a result holds the normalised arguments,
    while the search itself ran on the arguments as given.  Searching
    again with the recorded arguments succeeds and records the same
    arguments once more.  It is the same search, step for step, when the
    given arguments were in normal form already; otherwise it need not
    be: after a [file_format] with a leading dot the first search finds
    nothing and the second one looks for the bare extension. *)
Theorem X23_search_again_with_recorded_arguments
        (fnmatch : str -> str -> bool) (w : Discovery.World)
        (a : FindFilesArgs) (r : FindFilesResult) :
  outcome (find_files fnmatch w a) = Ok r ->
  FindFilesArgs_post_init a = (Ok (args r), [])
  /\ (exists r', outcome (find_files fnmatch w (args r)) = Ok r'
                 /\ args r' = args r
                 /\ searched_dir r' = searched_dir r)
  /\ (in_normal_form a = true ->
      find_files fnmatch w (args r) = find_files fnmatch w a).
Proof.
  intros Hr.
  pose proof (find_files_args fnmatch w a r Hr) as Hargs.
  pose proof (find_files_Ok fnmatch w a r Hr)
    as (He & Hd & Hm & Hv & Hs & _).
  unfold FindFilesArgs_post_init in Hargs.
  cbn [sort_by file_format dir Path_of_dir include_patterns exclude_patterns
       prefix suffix_arg recursive min_size_bytes max_files reverse] in Hargs.
  rewrite Hm in Hargs. cbn [negb] in Hargs.
  assert (Hrec : args r
                 = mkArgs (DPath (base_of a)) (prefix a) (suffix_arg a)
                          match file_format a with
                          | Some (c :: f) => Some (lstrip dot (c :: f))
                          | other => other
                          end
                          (recursive a) (ensure_list (include_patterns a))
                          (ensure_list (exclude_patterns a))
                          (min_size_bytes a) (max_files a) (sort_by a)
                          (reverse a))
    by (injection Hargs as <-; reflexivity).
  clear Hargs. rewrite Hrec. clear Hrec.
  split; [unfold FindFilesArgs_post_init; rewrite Hm; reflexivity|].
  set (ff := match file_format a with
             | Some (c :: f) => Some (lstrip dot (c :: f))
             | other => other
             end) in *.
  assert (Hff : match ff with
                | Some [] => Some []
                | Some (c :: f) => Some (lstrip dot (c :: f))
                | None => None
                end = ff).
  { unfold ff. destruct (file_format a) as [[|c f]|]; try reflexivity.
    pose proof (lstrip_no_leading dot (c :: f)) as Hl.
    destruct (lstrip dot (c :: f)) as [|x l] eqn:E; [reflexivity|].
    f_equal. apply lstrip_fixed. exact Hl. }
  assert (Hfa : in_normal_form a = true -> ff = file_format a).
  { intros Hn. unfold in_normal_form in Hn.
    apply andb_true_iff in Hn as [Hn _]. apply andb_true_iff in Hn as [Hf _].
    unfold ff. destruct (file_format a) as [[|c f]|]; try reflexivity.
    f_equal. apply lstrip_fixed. now apply negb_true_iff in Hf. }
  clearbody ff.
  set (a' := mkArgs (DPath (base_of a)) (prefix a) (suffix_arg a) ff
                    (recursive a) (ensure_list (include_patterns a))
                    (ensure_list (exclude_patterns a)) (min_size_bytes a)
                    (max_files a) (sort_by a) (reverse a)) in *.
  split.
  - destruct (find_files_succeeds fnmatch w a' He Hd Hm Hv) as [r' Hr'].
    exists r'. split; [exact Hr'|].
    pose proof (find_files_args fnmatch w a' r' Hr') as Hargs'.
    pose proof (find_files_Ok fnmatch w a' r' Hr')
      as (_ & _ & _ & _ & Hs' & _).
    split; [|now rewrite Hs', Hs].
    unfold FindFilesArgs_post_init in Hargs'.
    cbn [a' sort_by file_format dir Path_of_dir include_patterns
         exclude_patterns prefix suffix_arg recursive min_size_bytes
         max_files reverse base_of] in Hargs'.
    rewrite Hm, !ensure_list_idempotent in Hargs'.
    cbn [negb] in Hargs'. injection Hargs' as Hargs'.
    rewrite <- Hargs'. unfold a'. f_equal. exact Hff.
  - intros Hn. specialize (Hfa Hn). unfold in_normal_form in Hn.
    apply andb_true_iff in Hn as [Hn Hx]. apply andb_true_iff in Hn as [Hf Hi].
    assert (Hinc : ensure_list (include_patterns a) = include_patterns a)
      by now destruct (include_patterns a).
    assert (Hexc : ensure_list (exclude_patterns a) = exclude_patterns a)
      by now destruct (exclude_patterns a).
    unfold a'. rewrite Hfa, Hinc, Hexc. reflexivity.
Qed.

Lemma X23_witness :
  exists r r',
    outcome (find_files fnmatch_plain w_data
               (mkArgs (DPath data_dir) None None (Some (pystr ".txt")) false
                       PNone PNone None None (pystr "name") false)) = Ok r
    /\ outcome (find_files fnmatch_plain w_data (args r)) = Ok r'
    /\ args r' = args r
    /\ files r = []
    /\ files r' = [a_txt; b_txt].
Proof.
  eexists.
  destruct (X23_search_again_with_recorded_arguments fnmatch_plain w_data
              (mkArgs (DPath data_dir) None None (Some (pystr ".txt")) false
                      PNone PNone None None (pystr "name") false)
              _ ltac:(vm_compute; reflexivity))
    as (_ & (r' & Hr' & Ha & _) & _).
  exists r'. split; [reflexivity|]. split; [exact Hr'|]. split; [exact Ha|].
  split; [reflexivity|].
  vm_compute in Hr'. injection Hr' as <-. reflexivity.
Defined.
